(** * vite-plugin-pwa-manifest: the manifest builder, its serializer,
      the disk mirror and the dev route, embedded from [src/index.ts].

    Conventions of the embedding.

    - A TypeScript field of a declared type is a record field; an optional
      field is an [option] ([None] covers both a missing property and
      [undefined]/[null], which [??] does not tell apart).
    - A value of type [unknown] (the [extra] map, what [transform] returns,
      the parsed [package.json]) is a [value]: the dynamically typed
      JavaScript values that JSON can meet.  Numbers are the integers, [NaN]
      and the two infinities; fractional doubles are outside the embedding.
      So are BigInts, functions, symbols, objects with a [toJSON] method
      (dates among them) and cyclic objects: [value] is the finite trees
      of data, on which [JSON.stringify] neither throws nor runs user
      code.
    - A JavaScript string is a [string]: a sequence of code units below 256.
    - A JavaScript object is the list of its own enumerable properties in
      enumeration order (array-index keys ascending, then the other keys in
      creation order); [obj_set] is property assignment and keeps that order.
    - An exception is the [Err] of the [result] monad.
    - The outside world of one call (package metadata, the version-control
      binary, the clock) is the record [Env]; the file system is [FS]. *)

From Stdlib Require Import String Ascii ZArith NArith List Bool Lia.
From Stdlib Require Import DecimalString DecimalZ DecimalN DecimalPos.
From stdpp Require Import gmap strings list.
Import ListNotations.
Open Scope string_scope.
Open Scope list_scope.

(* ================================================================= *)
(** ** Exceptions as an error monad *)

Inductive result (E A : Type) : Type :=
| Ok (a : A)
| Err (e : E).
Arguments Ok {E A} a.
Arguments Err {E A} e.

Definition bind {E A B} (m : result E A) (k : A -> result E B) : result E B :=
  match m with
  | Ok a => k a
  | Err e => Err e
  end.

Notation "'let*' x ':=' m 'in' k" := (bind m (fun x => k))
  (at level 10, x pattern, m at level 100, k at level 200).

(** What the JavaScript runtime throws inside the builder. *)
Inductive js_error : Type :=
| TypeError (what : string)
| UserError (what : string).

(* ================================================================= *)
(** ** Characters and strings *)

Definition dquote : ascii := "034"%char.
Definition backslash : ascii := "092"%char.
Definition nl : string := String "010"%char EmptyString.

(** [s.startsWith(p)] *)
Definition startsWith (p s : string) : bool := String.prefix p s.

(** [s.includes(p)] *)
Fixpoint includes (p s : string) : bool :=
  String.prefix p s ||
  match s with
  | EmptyString => false
  | String _ s' => includes p s'
  end.

(** The code units below 256 that [String.prototype.trim] strips:
    TAB, LF, VT, FF, CR, SP and NBSP. *)
Definition is_js_space (c : ascii) : bool :=
  let n := nat_of_ascii c in
  ((9 <=? n)%nat && (n <=? 13)%nat) || (n =? 32)%nat || (n =? 160)%nat.

Fixpoint trimStart (s : string) : string :=
  match s with
  | EmptyString => EmptyString
  | String c s' => if is_js_space c then trimStart s' else s
  end.

Fixpoint trimEnd (s : string) : string :=
  match s with
  | EmptyString => EmptyString
  | String c s' =>
      match trimEnd s' with
      | EmptyString => if is_js_space c then EmptyString else String c EmptyString
      | t => String c t
      end
  end.

Definition trim (s : string) : string := trimEnd (trimStart s).

(** [toLowerCase] on the code units below 256: the letters [A] to [Z],
    and the capital letters of Latin-1. *)
Definition lower_char (c : ascii) : ascii :=
  let n := nat_of_ascii c in
  if ((65 <=? n)%nat && (n <=? 90)%nat)
     || ((192 <=? n)%nat && (n <=? 222)%nat && negb (n =? 215)%nat)
  then ascii_of_nat (n + 32) else c.

Fixpoint toLowerCase (s : string) : string :=
  match s with
  | EmptyString => EmptyString
  | String c s' => String (lower_char c) (toLowerCase s')
  end.

(* ================================================================= *)
(** ** JavaScript values and objects *)

Inductive number : Type :=
| NInt (z : Z)
| NNaN
| NInfinity (negative : bool).

Unset Elimination Schemes.
Inductive value : Type :=
| VUndefined
| VNull
| VBool (b : bool)
| VNum (n : number)
| VStr (s : string)
| VArr (xs : list value)
| VObj (props : list (string * value)).
Set Elimination Schemes.

(** An object: its own enumerable properties in enumeration order. *)
Definition jsobject : Type := list (string * value).

Section ValueInduction.
Variable P : value -> Prop.
Hypothesis Hundef : P VUndefined.
Hypothesis Hnull : P VNull.
Hypothesis Hbool : forall b, P (VBool b).
Hypothesis Hnum : forall n, P (VNum n).
Hypothesis Hstr : forall s, P (VStr s).
Hypothesis Harr : forall xs, Forall P xs -> P (VArr xs).
Hypothesis Hobj : forall ps, Forall (fun kv => P (snd kv)) ps -> P (VObj ps).

Fixpoint value_ind (v : value) : P v :=
  match v with
  | VUndefined => Hundef
  | VNull => Hnull
  | VBool b => Hbool b
  | VNum n => Hnum n
  | VStr s => Hstr s
  | VArr xs =>
      Harr xs
        ((fix go (l : list value) : Forall P l :=
            match l with
            | [] => List.Forall_nil P
            | x :: l' => List.Forall_cons _ x l' (value_ind x) (go l')
            end) xs)
  | VObj ps =>
      Hobj ps
        ((fix go (l : list (string * value)) : Forall (fun kv => P (snd kv)) l :=
            match l with
            | [] => List.Forall_nil _
            | kv :: l' => List.Forall_cons _ kv l' (value_ind (snd kv)) (go l')
            end) ps)
  end.
End ValueInduction.

(** [o[k]] on own properties. *)
Fixpoint obj_get (k : string) (o : jsobject) : option value :=
  match o with
  | [] => None
  | (k', v) :: o' => if String.eqb k' k then Some v else obj_get k o'
  end.

Definition has_key (k : string) (o : jsobject) : bool :=
  match obj_get k o with Some _ => true | None => false end.

(** A property key is an array index when it is the canonical decimal
    spelling of an integer in [0, 2^32 - 2]; such keys enumerate first,
    in ascending order. *)
Definition array_index (k : string) : option N :=
  match NilZero.uint_of_string k with
  | Some d =>
      let n := N.of_uint d in
      if String.eqb (NilZero.string_of_uint (N.to_uint n)) k && (n <=? 4294967294)%N
      then Some n else None
  | None => None
  end.

(** Overwrite an existing own property, keeping its place. *)
Fixpoint obj_replace (k : string) (v : value) (o : jsobject) : jsobject :=
  match o with
  | [] => []
  | (k', v') :: o' =>
      if String.eqb k' k then (k, v) :: o' else (k', v') :: obj_replace k v o'
  end.

(** Create an array-index property: it goes before the first property
    that is not an array index or that has a larger index. *)
Fixpoint obj_insert_index (n : N) (k : string) (v : value) (o : jsobject) : jsobject :=
  match o with
  | [] => [(k, v)]
  | (k', v') :: o' =>
      match array_index k' with
      | Some n' =>
          if (n' <? n)%N then (k', v') :: obj_insert_index n k v o'
          else (k, v) :: o
      | None => (k, v) :: o
      end
  end.

(** [o[k] = v] on an ordinary object, and CreateDataProperty (the keys
    the program assigns are never [__proto__]). *)
Definition obj_set (k : string) (v : value) (o : jsobject) : jsobject :=
  if has_key k o then obj_replace k v o
  else match array_index k with
       | Some n => obj_insert_index n k v o
       | None => o ++ [(k, v)]
       end.

(** [{...target, ...source}] copies the own properties of [source] in
    order onto [target]. *)
Definition obj_assign (target source : jsobject) : jsobject :=
  fold_left (fun acc kv => obj_set (fst kv) (snd kv) acc) source target.

(** An object literal: its properties are created left to right. *)
Definition obj_literal (props : list (string * value)) : jsobject :=
  obj_assign [] props.

(* ================================================================= *)
(** ** The types of [index.ts] *)

Inductive IconPurpose : Type :=
| PurposeAny | PurposeMaskable | PurposeMonochrome | PurposeAnyMaskable.

Definition purpose_string (p : IconPurpose) : string :=
  match p with
  | PurposeAny => "any"
  | PurposeMaskable => "maskable"
  | PurposeMonochrome => "monochrome"
  | PurposeAnyMaskable => "any maskable"
  end.

(** [ManifestIcon].  An icon is taken to be an object of exactly this
    type, its properties written in the order of the declaration: the
    spread of [normalizeIcons] keeps the order in which an icon was
    written and any property beyond the type, which shows in the bytes
    of the payload only. *)
Record ManifestIcon : Type := {
  icon_src : string;
  icon_sizes : string;
  icon_type : option string;
  icon_purpose : option IconPurpose
}.

Inductive FormFactor : Type := Wide | Narrow.

Definition form_factor_string (f : FormFactor) : string :=
  match f with Wide => "wide" | Narrow => "narrow" end.

Record Screenshot : Type := {
  shot_src : string;
  shot_sizes : option string;
  shot_type : option string;
  shot_label : option string;
  shot_form_factor : option FormFactor
}.

Inductive TextDir : Type := Rtl | Ltr.

Definition dir_string (d : TextDir) : string :=
  match d with Rtl => "rtl" | Ltr => "ltr" end.

Inductive Display : Type := Standalone | Fullscreen | MinimalUi | Browser.

Definition display_string (d : Display) : string :=
  match d with
  | Standalone => "standalone"
  | Fullscreen => "fullscreen"
  | MinimalUi => "minimal-ui"
  | Browser => "browser"
  end.

Inductive Orientation : Type := OrientAny | Portrait | Landscape.

Definition orientation_string (o : Orientation) : string :=
  match o with
  | OrientAny => "any"
  | Portrait => "portrait"
  | Landscape => "landscape"
  end.

Record RelatedApplication : Type := {
  app_platform : string;
  app_url : option string;
  app_id : option string
}.

Record ProtocolHandler : Type := {
  handler_protocol : string;
  handler_url : string
}.

Inductive Mode : Type := development | production.

(** [ManifestOptions].  [outputDir] is [string | false]: [None] is
    [false] or a missing property. *)
Record ManifestOptions : Type := {
  opt_outputDir : option string;
  opt_filename : option string;
  opt_name : option string;
  opt_short_name : option string;
  opt_description : option string;
  opt_lang : option string;
  opt_dir : option TextDir;
  opt_start_url : option string;
  opt_scope : option string;
  opt_id : option string;
  opt_display : option Display;
  opt_orientation : option Orientation;
  opt_background_color : option string;
  opt_theme_color : option string;
  opt_categories : option (list string);
  opt_prefer_related_applications : option bool;
  opt_related_applications : option (list RelatedApplication);
  opt_protocol_handlers : option (list ProtocolHandler);
  opt_icons : option (list ManifestIcon);
  opt_screenshots : option (list Screenshot);
  opt_extra : option jsobject;
  opt_includeBuildMeta : option bool;
  opt_transform : option (jsobject -> Mode -> result js_error jsobject)
}.

(** [generateManifest(options = {})]: every property missing. *)
Definition no_options : ManifestOptions := {|
  opt_outputDir := None; opt_filename := None; opt_name := None;
  opt_short_name := None; opt_description := None; opt_lang := None;
  opt_dir := None; opt_start_url := None; opt_scope := None; opt_id := None;
  opt_display := None; opt_orientation := None; opt_background_color := None;
  opt_theme_color := None; opt_categories := None;
  opt_prefer_related_applications := None; opt_related_applications := None;
  opt_protocol_handlers := None; opt_icons := None; opt_screenshots := None;
  opt_extra := None; opt_includeBuildMeta := None; opt_transform := None
|}.

(** What one call of the builder reads from outside the program:
    [env_package] is [JSON.parse] of [package.json] ([None] when the read
    or the parse throws), [env_exec] is [execSync] ([None] when it
    throws), [env_now] is [new Date().toISOString()]. *)
Record Env : Type := {
  env_package : option value;
  env_exec : string -> option string;
  env_now : string
}.

(* ================================================================= *)
(** ** Typed records as JavaScript values *)

Definition optional_property (k : string) (v : option value) : list (string * value) :=
  match v with
  | Some x => [(k, x)]
  | None => []
  end.

Definition icon_value (i : ManifestIcon) : value :=
  VObj ([("src", VStr (icon_src i)); ("sizes", VStr (icon_sizes i))]
        ++ optional_property "type" (VStr <$> icon_type i)
        ++ optional_property "purpose" (VStr <$> (purpose_string <$> icon_purpose i))).

Definition screenshot_value (s : Screenshot) : value :=
  VObj ([("src", VStr (shot_src s))]
        ++ optional_property "sizes" (VStr <$> shot_sizes s)
        ++ optional_property "type" (VStr <$> shot_type s)
        ++ optional_property "label" (VStr <$> shot_label s)
        ++ optional_property "form_factor" (VStr <$> (form_factor_string <$> shot_form_factor s))).

Definition related_application_value (a : RelatedApplication) : value :=
  VObj ([("platform", VStr (app_platform a))]
        ++ optional_property "url" (VStr <$> app_url a)
        ++ optional_property "id" (VStr <$> app_id a)).

Definition protocol_handler_value (h : ProtocolHandler) : value :=
  VObj [("protocol", VStr (handler_protocol h)); ("url", VStr (handler_url h))].

(** [x ?? undefined] for an optional field, as a value. *)
Definition or_undefined {A} (f : A -> value) (x : option A) : value :=
  from_option f VUndefined x.

(* ================================================================= *)
(** ** helpers *)

(** [runCommand]: the trimmed output, [null] when it is empty or when
    [execSync] throws. *)
Definition runCommand (env : Env) (cmd : string) : option string :=
  match env_exec env cmd with
  | Some out =>
      match trim out with
      | EmptyString => None
      | t => Some t
      end
  | None => None
  end.

(** [a || b] and [a ?? b] on [string | null]: they agree where [a] is
    never the empty string, as what [runCommand] returns. *)
Definition or_else {A} (a b : option A) : option A :=
  match a with
  | Some _ => a
  | None => b
  end.

(** [ensureLeadingSlash] *)
Definition ensureLeadingSlash (s : string) : string :=
  if startsWith "/" s then s else "/" +:+ s.

(* ================================================================= *)
(** ** internals *)

(** Reading a property of an arbitrary value, for the keys the program
    reads ([version], [purpose]), which no built-in prototype defines:
    [undefined] and [null] throw, other non-objects give [undefined]. *)
Definition get_property (k : string) (v : value) : result js_error value :=
  match v with
  | VUndefined | VNull => Err (TypeError "Cannot read properties of undefined or null")
  | VObj o => Ok (default VUndefined (obj_get k o))
  | _ => Ok VUndefined
  end.

(** [readPkgVersion]: the [try] turns every throw into [null]. *)
Definition readPkgVersion (env : Env) : option string :=
  match env_package env with
  | Some pkg =>
      match get_property "version" pkg with
      | Ok (VStr s) => Some s
      | _ => None
      end
  | None => None
  end.

(** [gitShort] *)
Definition gitShort (env : Env) : option string :=
  or_else (runCommand env "git describe --tags --exact-match")
    (or_else (runCommand env "git describe --tags --always")
       (or_else (runCommand env "git rev-parse --short HEAD") None)).

(** [defaultIcons] *)
Definition defaultIcons : list ManifestIcon :=
  [ {| icon_src := "/icons/icon-192x192.png"; icon_sizes := "192x192";
       icon_type := Some "image/png"; icon_purpose := Some PurposeAnyMaskable |};
    {| icon_src := "/icons/icon-512x512.png"; icon_sizes := "512x512";
       icon_type := Some "image/png"; icon_purpose := Some PurposeAnyMaskable |} ].

(** [`${i.src}|${i.sizes}|${i.purpose ?? ""}`] *)
Definition icon_key (i : ManifestIcon) : string :=
  icon_src i +:+ "|" +:+ icon_sizes i +:+ "|"
  +:+ from_option purpose_string EmptyString (icon_purpose i).

(** The [filter] of [normalizeIcons], with its [seen] set threaded. *)
Fixpoint filter_unseen (seen : gset string) (l : list ManifestIcon) : list ManifestIcon :=
  match l with
  | [] => []
  | i :: l' =>
      let key := icon_key i in
      if decide (key ∈ seen) then filter_unseen seen l'
      else i :: filter_unseen ({[ key ]} ∪ seen) l'
  end.

(** [{...i, src: ensureLeadingSlash(i.src)}] *)
Definition with_leading_slash (i : ManifestIcon) : ManifestIcon :=
  {| icon_src := ensureLeadingSlash (icon_src i); icon_sizes := icon_sizes i;
     icon_type := icon_type i; icon_purpose := icon_purpose i |}.

(** [normalizeIcons] *)
Definition normalizeIcons (icons : option (list ManifestIcon)) : list ManifestIcon :=
  let list := map with_leading_slash (default defaultIcons icons) in
  filter_unseen ∅ list.

(** [(p ?? "").includes("maskable")]: on a string the substring test, on
    an array [Array.prototype.includes]; anything else has no [includes]. *)
Definition purpose_includes_maskable (p : value) : result js_error bool :=
  match p with
  | VUndefined | VNull => Ok (includes "maskable" EmptyString)
  | VStr s => Ok (includes "maskable" s)
  | VArr xs =>
      Ok (existsb (fun x => match x with
                            | VStr s => String.eqb s "maskable"
                            | _ => false
                            end) xs)
  | _ => Err (TypeError "includes is not a function")
  end.

(** [.some((i) => (i.purpose ?? "").includes("maskable"))]; [some] stops
    at the first element that answers [true]. *)
Fixpoint some_maskable (l : list value) : result js_error bool :=
  match l with
  | [] => Ok false
  | i :: l' =>
      let* p := get_property "purpose" i in
      let* b := purpose_includes_maskable p in
      if b then Ok true else some_maskable l'
  end.

(** [hasMaskableIcon], on what [json.icons as ManifestIcon[]] really holds. *)
Definition hasMaskableIcon (icons : value) : result js_error bool :=
  match icons with
  | VUndefined | VNull => Ok false
  | VArr l => some_maskable l
  | _ => Err (TypeError "some is not a function")
  end.

(** The object literal [base] of [buildManifest]. *)
Definition baseManifest (opts : ManifestOptions) : jsobject :=
  let theme := default "#0a131b" (opt_theme_color opts) in
  obj_literal
    [ ("lang", VStr (default "en" (opt_lang opts)));
      ("dir", VStr (dir_string (default Ltr (opt_dir opts))));
      ("name", VStr (default "My App" (opt_name opts)));
      ("short_name", VStr (default "App" (opt_short_name opts)));
      ("description", or_undefined VStr (opt_description opts));
      ("start_url", VStr (ensureLeadingSlash (default "/" (opt_start_url opts))));
      ("scope", VStr (ensureLeadingSlash (default "/" (opt_scope opts))));
      ("id", VStr (ensureLeadingSlash (default "/" (opt_id opts))));
      ("display", VStr (display_string (default Standalone (opt_display opts))));
      ("orientation", or_undefined (fun o => VStr (orientation_string o)) (opt_orientation opts));
      ("background_color", VStr (default theme (opt_background_color opts)));
      ("theme_color", VStr theme);
      ("categories", or_undefined (fun l => VArr (map VStr l)) (opt_categories opts));
      ("prefer_related_applications", or_undefined VBool (opt_prefer_related_applications opts));
      ("related_applications",
        or_undefined (fun l => VArr (map related_application_value l)) (opt_related_applications opts));
      ("protocol_handlers",
        or_undefined (fun l => VArr (map protocol_handler_value l)) (opt_protocol_handlers opts));
      ("icons", VArr (map icon_value (normalizeIcons (opt_icons opts))));
      ("screenshots", or_undefined (fun l => VArr (map screenshot_value l)) (opt_screenshots opts)) ].

(** [opts.includeBuildMeta !== false] *)
Definition includesBuildMeta (opts : ManifestOptions) : bool :=
  match opt_includeBuildMeta opts with
  | Some false => false
  | _ => true
  end.

(** The three assignments under [if (opts.includeBuildMeta !== false)]. *)
Definition attachBuildMeta (env : Env) (base : jsobject) : jsobject :=
  let pkgVersion := readPkgVersion env in
  let vcsVersion := gitShort env in
  let base := obj_set "pkgVersion" (or_undefined VStr pkgVersion) base in
  let base := obj_set "version" (or_undefined VStr (or_else vcsVersion pkgVersion)) base in
  obj_set "buildTime" (VStr (env_now env)) base.

(** [base] once the build metadata is attached or not. *)
Definition assembled (opts : ManifestOptions) (env : Env) : jsobject :=
  if includesBuildMeta opts then attachBuildMeta env (baseManifest opts)
  else baseManifest opts.

(** [{...base, ...(opts.extra ?? {})}] *)
Definition mergedManifest (opts : ManifestOptions) (env : Env) : jsobject :=
  obj_assign (obj_assign [] (assembled opts env)) (default [] (opt_extra opts)).

(** [buildManifest] *)
Definition buildManifest (opts : ManifestOptions) (env : Env) (mode : Mode)
  : result js_error jsobject :=
  let merged := mergedManifest opts env in
  match opt_transform opts with
  | Some transform => transform merged mode
  | None => Ok merged
  end.

(* ================================================================= *)
(** ** [JSON.stringify(v, null, 2)] *)

(** What a JSON text denotes. *)
Unset Elimination Schemes.
Inductive json : Type :=
| JNull
| JBool (b : bool)
| JNum (z : Z)
| JStr (s : string)
| JArr (items : list json)
| JObj (members : list (string * json)).
Set Elimination Schemes.

Section JsonInduction.
Variable P : json -> Prop.
Hypothesis Hnull : P JNull.
Hypothesis Hbool : forall b, P (JBool b).
Hypothesis Hnum : forall z, P (JNum z).
Hypothesis Hstr : forall s, P (JStr s).
Hypothesis Harr : forall items, Forall P items -> P (JArr items).
Hypothesis Hobj : forall members, Forall (fun kv => P (snd kv)) members -> P (JObj members).

Fixpoint json_ind (j : json) : P j :=
  match j with
  | JNull => Hnull
  | JBool b => Hbool b
  | JNum z => Hnum z
  | JStr s => Hstr s
  | JArr items =>
      Harr items
        ((fix go (l : list json) : Forall P l :=
            match l with
            | [] => List.Forall_nil P
            | x :: l' => List.Forall_cons _ x l' (json_ind x) (go l')
            end) items)
  | JObj members =>
      Hobj members
        ((fix go (l : list (string * json)) : Forall (fun kv => P (snd kv)) l :=
            match l with
            | [] => List.Forall_nil _
            | kv :: l' => List.Forall_cons _ kv l' (json_ind (snd kv)) (go l')
            end) members)
  end.
End JsonInduction.

Section SerializeChildren.
Variable ser : value -> option json.

(** An array element that has no JSON form is written [null]. *)
Fixpoint ser_elements (l : list value) : list json :=
  match l with
  | [] => []
  | x :: l' => default JNull (ser x) :: ser_elements l'
  end.

(** A property whose value has no JSON form is left out. *)
Fixpoint ser_members (l : list (string * value)) : list (string * json) :=
  match l with
  | [] => []
  | (k, x) :: l' =>
      match ser x with
      | Some j => (k, j) :: ser_members l'
      | None => ser_members l'
      end
  end.
End SerializeChildren.

(** SerializeJSONProperty: [None] is [undefined]. *)
Fixpoint to_json (v : value) : option json :=
  match v with
  | VUndefined => None
  | VNull => Some JNull
  | VBool b => Some (JBool b)
  | VNum (NInt z) => Some (JNum z)
  | VNum _ => Some JNull
  | VStr s => Some (JStr s)
  | VArr xs => Some (JArr (ser_elements to_json xs))
  | VObj ps => Some (JObj (ser_members to_json ps))
  end.

(** Number::toString on an integer that a double holds exactly (below
    2^53 in magnitude): beyond, the digits are the shortest that read
    back, with an exponent from 10^21, which shows in the bytes of the
    payload only. *)
Definition number_string (z : Z) : string :=
  (if (z <? 0)%Z then "-" else EmptyString)
  +:+ NilZero.string_of_uint (N.to_uint (Z.abs_N z)).

Definition hex_digit (n : nat) : ascii :=
  ascii_of_nat (if (n <? 10)%nat then 48 + n else 87 + n).

(** QuoteJSONString on one code unit. *)
Definition escape_char (c : ascii) : string :=
  let n := nat_of_ascii c in
  if (n =? 8)%nat then "\b"
  else if (n =? 9)%nat then "\t"
  else if (n =? 10)%nat then "\n"
  else if (n =? 12)%nat then "\f"
  else if (n =? 13)%nat then "\r"
  else if (n =? 34)%nat then String backslash (String dquote EmptyString)
  else if (n =? 92)%nat then String backslash (String backslash EmptyString)
  else if (n <? 32)%nat then
    "\u00" +:+ String (hex_digit (n / 16)) (String (hex_digit (n mod 16)) EmptyString)
  else String c EmptyString.

Fixpoint escape (s : string) : string :=
  match s with
  | EmptyString => EmptyString
  | String c s' => escape_char c +:+ escape s'
  end.

Definition quote (s : string) : string :=
  String dquote (escape s +:+ String dquote EmptyString).

(** The indentation at nesting depth [d], for the gap of two spaces. *)
Fixpoint indentation (d : nat) : string :=
  match d with
  | O => EmptyString
  | S d' => "  " +:+ indentation d'
  end.

(** SerializeJSONObject and SerializeJSONArray with a non-empty gap. *)
Fixpoint render (d : nat) (j : json) : string :=
  match j with
  | JNull => "null"
  | JBool b => if b then "true" else "false"
  | JNum z => number_string z
  | JStr s => quote s
  | JArr [] => "[]"
  | JArr items =>
      "[" +:+ nl +:+ indentation (S d)
      +:+ String.concat ("," +:+ nl +:+ indentation (S d)) (map (render (S d)) items)
      +:+ nl +:+ indentation d +:+ "]"
  | JObj [] => "{}"
  | JObj members =>
      "{" +:+ nl +:+ indentation (S d)
      +:+ String.concat ("," +:+ nl +:+ indentation (S d))
            (map (fun kv => quote (fst kv) +:+ ": " +:+ render (S d) (snd kv)) members)
      +:+ nl +:+ indentation d +:+ "}"
  end.

(** [JSON.stringify(v, null, 2)]: [None] is [undefined]. *)
Definition JSON_stringify (v : value) : option string :=
  render 0 <$> to_json v.

(* ================================================================= *)
(** ** [JSON.parse], on texts whose numbers are integers *)

Definition is_json_ws (c : ascii) : bool :=
  let n := nat_of_ascii c in
  (n =? 32)%nat || (n =? 9)%nat || (n =? 10)%nat || (n =? 13)%nat.

Fixpoint skip_ws (s : string) : string :=
  match s with
  | EmptyString => EmptyString
  | String c s' => if is_json_ws c then skip_ws s' else s
  end.

Definition hex_value (c : ascii) : option nat :=
  let n := nat_of_ascii c in
  if (48 <=? n)%nat && (n <=? 57)%nat then Some (n - 48)
  else if (97 <=? n)%nat && (n <=? 102)%nat then Some (n - 87)
  else if (65 <=? n)%nat && (n <=? 70)%nat then Some (n - 55)
  else None.

(** The code unit of [\uXXXX]; a unit of 256 or more is outside [string]. *)
Definition unicode_escape (h1 h2 h3 h4 : ascii) : option ascii :=
  match hex_value h1, hex_value h2, hex_value h3, hex_value h4 with
  | Some a, Some b, Some c, Some d =>
      let n := ((a * 16 + b) * 16 + c) * 16 + d in
      if (n <? 256)%nat then Some (ascii_of_nat n) else None
  | _, _, _, _ => None
  end.

Definition simple_escape (e : ascii) : option ascii :=
  let n := nat_of_ascii e in
  if (n =? 34)%nat then Some dquote
  else if (n =? 92)%nat then Some backslash
  else if (n =? 47)%nat then Some "/"%char
  else if (n =? 98)%nat then Some (ascii_of_nat 8)
  else if (n =? 102)%nat then Some (ascii_of_nat 12)
  else if (n =? 110)%nat then Some (ascii_of_nat 10)
  else if (n =? 114)%nat then Some (ascii_of_nat 13)
  else if (n =? 116)%nat then Some (ascii_of_nat 9)
  else None.

Definition cons_char (c : ascii) (r : option (string * string)) : option (string * string) :=
  match r with
  | Some (str, rest) => Some (String c str, rest)
  | None => None
  end.

(** The characters of a string literal, after its opening quote. *)
Fixpoint parse_chars (s : string) : option (string * string) :=
  match s with
  | EmptyString => None
  | String c s' =>
      if Ascii.eqb c dquote then Some (EmptyString, s')
      else if Ascii.eqb c backslash then
        match s' with
        | EmptyString => None
        | String e s'' =>
            if Ascii.eqb e "u"%char then
              match s'' with
              | String h1 (String h2 (String h3 (String h4 s5))) =>
                  match unicode_escape h1 h2 h3 h4 with
                  | Some u => cons_char u (parse_chars s5)
                  | None => None
                  end
              | _ => None
              end
            else
              match simple_escape e with
              | Some u => cons_char u (parse_chars s'')
              | None => None
              end
        end
      else if (nat_of_ascii c <? 32)%nat then None
      else cons_char c (parse_chars s')
  end.

Definition is_digit (c : ascii) : bool :=
  let n := nat_of_ascii c in (48 <=? n)%nat && (n <=? 57)%nat.

Fixpoint span_digits (s : string) : string * string :=
  match s with
  | EmptyString => (EmptyString, EmptyString)
  | String c s' =>
      if is_digit c then
        let (ds, rest) := span_digits s' in (String c ds, rest)
      else (EmptyString, s)
  end.

(** A fraction or an exponent would follow. *)
Definition continues_number (s : string) : bool :=
  match s with
  | EmptyString => false
  | String c _ =>
      Ascii.eqb c "."%char || Ascii.eqb c "e"%char || Ascii.eqb c "E"%char
  end.

(** The digits of an integer literal: [0], or digits without a leading
    zero, with no fraction and no exponent after them. *)
Definition parse_digits (negative : bool) (s : string) : option (Z * string) :=
  let (ds, rest) := span_digits s in
  match NilZero.uint_of_string ds with
  | Some d =>
      let n := N.of_uint d in
      if String.eqb (NilZero.string_of_uint (N.to_uint n)) ds
         && negb (continues_number rest)
      then Some (if negative then (- Z.of_N n)%Z else Z.of_N n, rest)
      else None
  | None => None
  end.

(** An integer literal: an optional minus sign, then the digits. *)
Definition parse_number (s : string) : option (Z * string) :=
  match s with
  | String c s' =>
      if Ascii.eqb c "-"%char then parse_digits true s' else parse_digits false s
  | EmptyString => None
  end.

(** [strip p s]: [s] without its prefix [p]. *)
Fixpoint strip (p s : string) : option string :=
  match p with
  | EmptyString => Some s
  | String a p' =>
      match s with
      | String b s' => if Ascii.eqb a b then strip p' s' else None
      | EmptyString => None
      end
  end.

(** Recursive descent; [fuel] bounds the number of nested and successive
    values.  [parse_value] expects the white space before the value to be
    skipped already. *)
Fixpoint parse_value (fuel : nat) (s : string) : option (value * string) :=
  match fuel with
  | O => None
  | S fuel' =>
      match s with
      | EmptyString => None
      | String c s' =>
          if Ascii.eqb c "{"%char then
            match skip_ws s' with
            | String c1 s1 =>
                if Ascii.eqb c1 "}"%char then Some (VObj [], s1)
                else parse_members fuel' [] (String c1 s1)
            | EmptyString => None
            end
          else if Ascii.eqb c "["%char then
            match skip_ws s' with
            | String c1 s1 =>
                if Ascii.eqb c1 "]"%char then Some (VArr [], s1)
                else parse_elements fuel' [] (String c1 s1)
            | EmptyString => None
            end
          else if Ascii.eqb c dquote then
            match parse_chars s' with
            | Some (str, rest) => Some (VStr str, rest)
            | None => None
            end
          else if Ascii.eqb c "n"%char then
            match strip "null" s with
            | Some rest => Some (VNull, rest)
            | None => None
            end
          else if Ascii.eqb c "t"%char then
            match strip "true" s with
            | Some rest => Some (VBool true, rest)
            | None => None
            end
          else if Ascii.eqb c "f"%char then
            match strip "false" s with
            | Some rest => Some (VBool false, rest)
            | None => None
            end
          else
            match parse_number s with
            | Some (z, rest) => Some (VNum (NInt z), rest)
            | None => None
            end
      end
  end

with parse_elements (fuel : nat) (acc : list value) (s : string) : option (value * string) :=
  match fuel with
  | O => None
  | S fuel' =>
      match parse_value fuel' s with
      | Some (v, rest) =>
          match skip_ws rest with
          | String c rest' =>
              if Ascii.eqb c ","%char then parse_elements fuel' (acc ++ [v]) (skip_ws rest')
              else if Ascii.eqb c "]"%char then Some (VArr (acc ++ [v]), rest')
              else None
          | EmptyString => None
          end
      | None => None
      end
  end

with parse_members (fuel : nat) (acc : jsobject) (s : string) : option (value * string) :=
  match fuel with
  | O => None
  | S fuel' =>
      match s with
      | String q s1 =>
          if Ascii.eqb q dquote then
            match parse_chars s1 with
            | Some (k, r1) =>
                match skip_ws r1 with
                | String colon r2 =>
                    if Ascii.eqb colon ":"%char then
                      match parse_value fuel' (skip_ws r2) with
                      | Some (v, r3) =>
                          match skip_ws r3 with
                          | String c r4 =>
                              if Ascii.eqb c ","%char
                              then parse_members fuel' (obj_set k v acc) (skip_ws r4)
                              else if Ascii.eqb c "}"%char
                              then Some (VObj (obj_set k v acc), r4)
                              else None
                          | EmptyString => None
                          end
                      | None => None
                      end
                    else None
                | EmptyString => None
                end
            | None => None
            end
          else None
      | EmptyString => None
      end
  end.

(** [JSON.parse]: one value between optional white space. *)
Definition JSON_parse (s : string) : option value :=
  match parse_value (S (String.length s)) (skip_ws s) with
  | Some (v, rest) =>
      match skip_ws rest with
      | EmptyString => Some v
      | String _ _ => None
      end
  | None => None
  end.

(** The value [JSON.parse] builds for a text that denotes [j]: the
    members of an object are assigned one after the other. *)
Fixpoint of_json (j : json) : value :=
  match j with
  | JNull => VNull
  | JBool b => VBool b
  | JNum z => VNum (NInt z)
  | JStr s => VStr s
  | JArr items => VArr (map of_json items)
  | JObj members =>
      VObj (fold_left (fun acc kv => obj_set (fst kv) (of_json (snd kv)) acc) members [])
  end.

(* ================================================================= *)
(** ** The logger *)

(** One call of [console.log] or [console.warn] with its arguments. *)
Inductive console_call : Type :=
| ConsoleLog (args : list value)
| ConsoleWarn (args : list value).

(** [toUpperCase], on the letters [a] to [z]. *)
Definition upper_char (c : ascii) : ascii :=
  let n := nat_of_ascii c in
  if (97 <=? n)%nat && (n <=? 122)%nat then ascii_of_nat (n - 32) else c.

Fixpoint toUpperCase (s : string) : string :=
  match s with
  | EmptyString => EmptyString
  | String c s' => String (upper_char c) (toUpperCase s')
  end.

(** [tag] of [createLogger(scope)] *)
Definition tag (scope level : string) : string :=
  "[" +:+ scope +:+ "] " +:+ toUpperCase level.

(** [createLogger(scope).info(msg, meta)] *)
Definition log_info (scope msg : string) (meta : option value) : console_call :=
  ConsoleLog [VStr (tag scope "info"); VStr msg; default (VStr EmptyString) meta].

(** [createLogger(scope).warn(msg, meta)] *)
Definition log_warn (scope msg : string) (meta : option value) : console_call :=
  ConsoleWarn [VStr (tag scope "warn"); VStr msg; default (VStr EmptyString) meta].

(* ================================================================= *)
(** ** [serialize] *)

(** [x + "\n"] where [x] is a string or [undefined]. *)
Definition concat_newline (x : option string) : string :=
  default "undefined" x +:+ nl.

(** [serialize(mode)] of the plugin built for [options]: the payload and
    the console calls it makes. *)
Definition serialize (options : ManifestOptions) (env : Env) (mode : Mode)
  : result js_error (string * list console_call) :=
  let* json := buildManifest options env mode in
  let* maskable := hasMaskableIcon (default VUndefined (obj_get "icons" json)) in
  let calls :=
    if maskable then []
    else [log_warn "manifest"
            "No maskable icon found; add purpose: 'maskable' for better Android PWA rendering."
            None] in
  Ok (concat_newline (JSON_stringify (VObj json)), calls).

(* ================================================================= *)
(** ** SHA-1 and [hashETag] *)

(** [update(s)] hashes the UTF-8 encoding of [s]. *)
Definition utf8_char (c : ascii) : list Z :=
  let n := Z.of_nat (nat_of_ascii c) in
  if (n <? 128)%Z then [n]
  else [Z.lor 192 (Z.shiftr n 6); Z.lor 128 (Z.land n 63)].

Fixpoint utf8 (s : string) : list Z :=
  match s with
  | EmptyString => []
  | String c s' => utf8_char c ++ utf8 s'
  end.

Definition word (x : Z) : Z := Z.land x 4294967295.

Definition rotl (n x : Z) : Z :=
  word (Z.lor (Z.shiftl x n) (Z.shiftr x (32 - n))).

(** Big-endian bytes of a number, [k] of them. *)
Fixpoint be_bytes (k : nat) (x : Z) : list Z :=
  match k with
  | O => []
  | S k' => Z.land (Z.shiftr x (8 * Z.of_nat k')) 255 :: be_bytes k' x
  end.

(** The message, the byte [0x80], zeros up to 56 modulo 64, and the bit
    length on eight bytes. *)
Definition sha1_pad (msg : list Z) : list Z :=
  let len := Z.of_nat (length msg) in
  let zeros := Z.to_nat ((55 - len) mod 64) in
  msg ++ [128%Z] ++ repeat 0%Z zeros ++ be_bytes 8 (8 * len).

Fixpoint be_words (k : nat) (bytes : list Z) : list Z :=
  match k with
  | O => []
  | S k' =>
      match bytes with
      | a :: b :: c :: d :: rest =>
          Z.lor (Z.shiftl a 24) (Z.lor (Z.shiftl b 16) (Z.lor (Z.shiftl c 8) d))
          :: be_words k' rest
      | _ => []
      end
  end.

(** The message schedule, most recent word first. *)
Fixpoint sha1_schedule (k : nat) (recent : list Z) : list Z :=
  match k with
  | O => recent
  | S k' =>
      let w := rotl 1 (Z.lxor (Z.lxor (nth 2 recent 0%Z) (nth 7 recent 0%Z))
                              (Z.lxor (nth 13 recent 0%Z) (nth 15 recent 0%Z))) in
      sha1_schedule k' (w :: recent)
  end.

Record sha1_state : Type := {
  h0 : Z; h1 : Z; h2 : Z; h3 : Z; h4 : Z
}.

Definition sha1_init : sha1_state :=
  {| h0 := 1732584193; h1 := 4023233417; h2 := 2562383102;
     h3 := 271733878; h4 := 3285377520 |}%Z.

Definition sha1_f (t : nat) (b c d : Z) : Z :=
  if (t <? 20)%nat then Z.lor (Z.land b c) (Z.land (Z.lxor b 4294967295) d)
  else if (t <? 40)%nat then Z.lxor (Z.lxor b c) d
  else if (t <? 60)%nat then Z.lor (Z.lor (Z.land b c) (Z.land b d)) (Z.land c d)
  else Z.lxor (Z.lxor b c) d.

Definition sha1_k (t : nat) : Z :=
  (if (t <? 20)%nat then 1518500249
   else if (t <? 40)%nat then 1859775393
   else if (t <? 60)%nat then 2400959708
   else 3395469782)%Z.

Fixpoint sha1_rounds (t : nat) (ws : list Z) (s : sha1_state) : sha1_state :=
  match ws with
  | [] => s
  | w :: ws' =>
      let temp := word (rotl 5 (h0 s) + sha1_f t (h1 s) (h2 s) (h3 s) + h4 s + sha1_k t + w) in
      sha1_rounds (S t) ws'
        {| h0 := temp; h1 := h0 s; h2 := rotl 30 (h1 s); h3 := h2 s; h4 := h3 s |}
  end.

Definition sha1_block (s : sha1_state) (block : list Z) : sha1_state :=
  let ws := rev (sha1_schedule 64 (rev (be_words 16 block))) in
  let r := sha1_rounds 0 ws s in
  {| h0 := word (h0 s + h0 r); h1 := word (h1 s + h1 r); h2 := word (h2 s + h2 r);
     h3 := word (h3 s + h3 r); h4 := word (h4 s + h4 r) |}.

Fixpoint sha1_blocks (k : nat) (s : sha1_state) (bytes : list Z) : sha1_state :=
  match k with
  | O => s
  | S k' => sha1_blocks k' (sha1_block s (firstn 64 bytes)) (skipn 64 bytes)
  end.

Definition sha1 (msg : list Z) : list Z :=
  let padded := sha1_pad msg in
  let s := sha1_blocks (length padded / 64) sha1_init padded in
  be_bytes 4 (h0 s) ++ be_bytes 4 (h1 s) ++ be_bytes 4 (h2 s)
  ++ be_bytes 4 (h3 s) ++ be_bytes 4 (h4 s).

(** [digest("hex")] *)
Fixpoint hex (bytes : list Z) : string :=
  match bytes with
  | [] => EmptyString
  | b :: bytes' =>
      String (hex_digit (Z.to_nat (Z.shiftr b 4)))
        (String (hex_digit (Z.to_nat (Z.land b 15))) (hex bytes'))
  end.

Definition sha1_hex (s : string) : string := hex (sha1 (utf8 s)).

(** [hashETag] *)
Definition hashETag (s : string) : string :=
  "W/" +:+ String dquote (sha1_hex s +:+ String dquote EmptyString).

(* ================================================================= *)
(** ** The file system behind [node:fs/promises] *)

(** An absolute, normalized path, as [path.resolve] returns it: the
    segments below the root. *)
Abbreviation fspath := (list string).

Inductive node : Type :=
| Dir (writable : bool)
| File (content : string) (readable writable : bool).

Inductive fs_error : Type := ENOENT | EACCES | EISDIR | ENOTDIR | EEXIST.

Inductive fs_call : Type :=
| ReadFile (p : fspath)
| Mkdir (p : fspath)
| WriteFile (p : fspath) (data : string).

(** The tree, and the calls made so far, the latest first. *)
Record FS : Type := {
  fs_nodes : gmap fspath node;
  fs_calls : list fs_call
}.

(** A computation over the file system that may reject. *)
Definition io (A : Type) : Type := FS -> result fs_error A * FS.

Definition io_ret {A} (a : A) : io A := fun fs => (Ok a, fs).

Definition io_bind {A B} (m : io A) (k : A -> io B) : io B :=
  fun fs =>
    match m fs with
    | (Ok a, fs') => k a fs'
    | (Err e, fs') => (Err e, fs')
    end.

(** [try { m } catch { }]: [None] when [m] rejects. *)
Definition io_try {A} (m : io A) : io (option A) :=
  fun fs =>
    match m fs with
    | (Ok a, fs') => (Ok (Some a), fs')
    | (Err _, fs') => (Ok None, fs')
    end.

Notation "'await' x ':=' m 'in' k" := (io_bind m (fun x => k))
  (at level 10, x pattern, m at level 100, k at level 200).

Definition called (c : fs_call) (fs : FS) : FS :=
  {| fs_nodes := fs_nodes fs; fs_calls := c :: fs_calls fs |}.

(** [path.dirname] *)
Definition dirname (p : fspath) : fspath := removelast p.

(** [fsp.readFile(p, "utf8")] *)
Definition readFile (p : fspath) : io string :=
  fun fs =>
    let fs := called (ReadFile p) fs in
    match fs_nodes fs !! p with
    | Some (File content true _) => (Ok content, fs)
    | Some (File _ false _) => (Err EACCES, fs)
    | Some (Dir _) => (Err EISDIR, fs)
    | None => (Err ENOENT, fs)
    end.

(** Below the existing directory [parent], create what is missing of
    [segments], one level after the other. *)
Fixpoint mkdir_below (parent : fspath) (segments : list string) (m : gmap fspath node)
  : result fs_error (gmap fspath node) :=
  match segments with
  | [] => Ok m
  | s :: segments' =>
      let p := parent ++ [s] in
      match m !! p with
      | Some (Dir _) => mkdir_below p segments' m
      | Some (File _ _ _) =>
          match segments' with
          | [] => Err EEXIST
          | _ :: _ => Err ENOTDIR
          end
      | None =>
          match m !! parent with
          | Some (Dir true) => mkdir_below p segments' (<[p := Dir true]> m)
          | Some (Dir false) => Err EACCES
          | Some (File _ _ _) => Err ENOTDIR
          | None => Err ENOENT
          end
      end
  end.

(** [fsp.mkdir(p, {recursive: true})] *)
Definition mkdir (p : fspath) : io unit :=
  fun fs =>
    let fs := called (Mkdir p) fs in
    match fs_nodes fs !! [] with
    | Some (Dir _) =>
        match mkdir_below [] p (fs_nodes fs) with
        | Ok m => (Ok tt, {| fs_nodes := m; fs_calls := fs_calls fs |})
        | Err e => (Err e, fs)
        end
    | Some (File _ _ _) => (Err ENOTDIR, fs)
    | None => (Err ENOENT, fs)
    end.

(** [fsp.writeFile(p, data, "utf8")]: an existing file keeps its mode, a
    new file is readable and writable by its owner. *)
Definition writeFile (p : fspath) (data : string) : io unit :=
  fun fs =>
    let fs := called (WriteFile p data) fs in
    let put n := {| fs_nodes := <[p := n]> (fs_nodes fs); fs_calls := fs_calls fs |} in
    match fs_nodes fs !! p with
    | Some (File _ readable true) => (Ok tt, put (File data readable true))
    | Some (File _ _ false) => (Err EACCES, fs)
    | Some (Dir _) => (Err EISDIR, fs)
    | None =>
        match fs_nodes fs !! dirname p with
        | Some (Dir true) => (Ok tt, put (File data true true))
        | Some (Dir false) => (Err EACCES, fs)
        | Some (File _ _ _) => (Err ENOTDIR, fs)
        | None => (Err ENOENT, fs)
        end
    end.

(** [writeFileIfChanged] *)
Definition writeFileIfChanged (filePath : fspath) (payload : string) : io bool :=
  await existing := io_try (readFile filePath) in
  match existing with
  | Some existing' =>
      if String.eqb existing' payload then io_ret false
      else
        await _ := mkdir (dirname filePath) in
        await _ := writeFile filePath payload in
        io_ret true
  | None =>
      await _ := mkdir (dirname filePath) in
      await _ := writeFile filePath payload in
      io_ret true
  end.

(** The [writeFile] calls among the calls made. *)
Definition is_write (c : fs_call) : bool :=
  match c with
  | WriteFile _ _ => true
  | _ => false
  end.

Definition writes (fs : FS) : list fs_call :=
  List.filter is_write (fs_calls fs).

(* ================================================================= *)
(** ** The dev route *)

(** What the handler reads of the request: [req.headers["if-none-match"]]. *)
Record Request : Type := {
  req_if_none_match : option string
}.

(** A [ServerResponse]: its headers are kept under their names in lower
    case, as Node keeps them (the spelling that goes on the wire is not
    recorded). *)
Record Response : Type := {
  statusCode : nat;
  res_headers : list (string * string);
  res_body : string;
  res_ended : bool
}.

(** A fresh [ServerResponse]. *)
Definition new_response : Response :=
  {| statusCode := 200; res_headers := []; res_body := EmptyString; res_ended := false |}.

Fixpoint set_assoc (k v : string) (l : list (string * string)) : list (string * string) :=
  match l with
  | [] => [(k, v)]
  | (k', v') :: l' =>
      if String.eqb k' k then (k, v) :: l' else (k', v') :: set_assoc k v l'
  end.

(** [res.setHeader(name, value)] on a response whose headers are not
    sent yet: the name counts without its case. *)
Definition setHeader (name value : string) (res : Response) : Response :=
  {| statusCode := statusCode res;
     res_headers := set_assoc (toLowerCase name) value (res_headers res);
     res_body := res_body res; res_ended := res_ended res |}.

(** [res.statusCode = code] *)
Definition setStatusCode (code : nat) (res : Response) : Response :=
  {| statusCode := code; res_headers := res_headers res;
     res_body := res_body res; res_ended := res_ended res |}.

(** [res.end(data)] and [res.end()] *)
Definition end_response (data : option string) (res : Response) : Response :=
  {| statusCode := statusCode res; res_headers := res_headers res;
     res_body := res_body res +:+ default EmptyString data; res_ended := true |}.

(** [route] of [configureServer] *)
Definition devRoute (options : ManifestOptions) : string :=
  "/" +:+ default "manifest.json" (opt_filename options).

(** The middleware mounted on [devRoute]: the response it leaves and the
    console calls it makes. *)
Definition devHandler (options : ManifestOptions) (env : Env)
    (req : Request) (res : Response)
  : result js_error (Response * list console_call) :=
  let* (payload, calls) := serialize options env development in
  let etag := hashETag payload in
  let res := setHeader "Content-Type" "application/manifest+json; charset=utf-8" res in
  let res := setHeader "Cache-Control" "no-store, no-cache, must-revalidate, max-age=0" res in
  let res := setHeader "Pragma" "no-cache" res in
  let res := setHeader "Expires" "0" res in
  let res := setHeader "ETag" etag res in
  match req_if_none_match req with
  | Some v =>
      if String.eqb v etag
      then Ok (end_response None (setStatusCode 304 res), calls)
      else Ok (end_response (Some payload) res, calls)
  | None => Ok (end_response (Some payload) res, calls)
  end.
(* ================================================================= *)
(** ** [path.resolve] *)

(** The parts of a path string between its slashes. *)
Fixpoint split_slash (s : string) : list string :=
  match s with
  | EmptyString => [EmptyString]
  | String c s' =>
      if Ascii.eqb c "/"%char then EmptyString :: split_slash s'
      else match split_slash s' with
           | seg :: segs => String c seg :: segs
           | [] => [String c EmptyString]
           end
  end.

(** One part of a path, read in the directory [dir]: an empty part and
    [.] stay there, [..] goes up and stays at the root, a name goes down. *)
Definition enter (dir : fspath) (seg : string) : fspath :=
  if String.eqb seg EmptyString || String.eqb seg "." then dir
  else if String.eqb seg ".." then removelast dir
  else dir ++ [seg].

(** [path.resolve(...paths)] on POSIX, where [process.cwd()] is [cwd]:
    the paths are followed one after the other from the working
    directory, an absolute path starting over at the root (so that what
    stands left of the last absolute path is ignored), and the result is
    normalized. *)
Definition path_resolve (cwd : string) (paths : list string) : fspath :=
  fold_left
    (fun dir p => fold_left enter (split_slash p) (if startsWith "/" p then [] else dir))
    (cwd :: paths) [].

(** A resolved path as the string that [path.resolve] returns. *)
Definition path_string (p : fspath) : string :=
  match p with
  | [] => "/"
  | _ :: _ => String.concat EmptyString (map (fun seg => "/" +:+ seg) p)
  end.

(* ================================================================= *)
(** ** plugin *)

(** What the hooks read of Vite's [ResolvedConfig]. *)
Inductive Command : Type := serve | build.

Record ResolvedConfig : Type := {
  cfg_root : option string;
  cfg_command : Command
}.

(** The variables that the hooks of one plugin share: [root], [config]
    and [lastJSON].  [options] and [filename] never change; the hooks
    below take [options] as their first argument. *)
Record PluginState : Type := {
  root : string;
  config : option ResolvedConfig;
  lastJSON : string
}.

(** [filename] *)
Definition filename (opts : ManifestOptions) : string :=
  default "manifest.json" (opt_filename opts).

(** [generateManifest(options)]: the variables when it returns, where
    [process.cwd()] is [cwd]. *)
Definition generateManifest (cwd : string) : PluginState :=
  {| root := cwd; config := None; lastJSON := "{}" +:+ nl |}.

(** [configResolved(c)]: the variables it leaves, and the console calls
    made or the exception thrown. *)
Definition configResolved (opts : ManifestOptions) (env : Env) (cwd : string)
    (c : ResolvedConfig) (st : PluginState)
  : PluginState * result js_error (list console_call) :=
  let st := {| root := default cwd (cfg_root c); config := Some c;
               lastJSON := lastJSON st |} in
  match serialize opts env
          match cfg_command c with serve => development | build => production end with
  | Ok (payload, calls) =>
      ({| root := root st; config := config st; lastJSON := payload |}, Ok calls)
  | Err e => (st, Err e)
  end.

(** The promise that [buildStart] leaves behind:
    [writeFileIfChanged(outPath, lastJSON).then(...)], with the console
    calls of its continuation. *)
Definition mirror (outPath : fspath) (payload : string) : io (list console_call) :=
  await changed := writeFileIfChanged outPath payload in
  io_ret (if changed : bool
          then [log_info "manifest" "Manifest mirrored to disk"
                  (Some (VObj [("file", VStr (path_string outPath))]))]
          else []).

(** [buildStart()]: the variables it leaves, and the console calls made
    with the promise left pending, if any, or the exception thrown.  The
    hook does not wait for the promise. *)
Definition buildStart (opts : ManifestOptions) (env : Env) (cwd : string)
    (st : PluginState)
  : PluginState * result js_error (list console_call * option (io (list console_call))) :=
  match serialize opts env production with
  | Ok (payload, calls) =>
      let st := {| root := root st; config := config st; lastJSON := payload |} in
      match opt_outputDir opts with
      | Some (String c d) =>
          let outPath := path_resolve cwd [root st; String c d; filename opts] in
          (st, Ok (calls, Some (mirror outPath (lastJSON st))))
      | _ => (st, Ok (calls, None))
      end
  | Err e => (st, Err e)
  end.

(** The argument of [this.emitFile]. *)
Record EmittedFile : Type := {
  emitted_type : string;
  fileName : string;
  source : string
}.

(** [generateBundle()]: the file handed to [this.emitFile] and the
    console call that follows. *)
Definition generateBundle (opts : ManifestOptions) (st : PluginState)
  : EmittedFile * list console_call :=
  ({| emitted_type := "asset"; fileName := filename opts; source := lastJSON st |},
   [log_info "manifest" "Manifest emitted" (Some (VObj [("file", VStr (filename opts))]))]).


(* ================================================================= *)
(** ** Vocabulary of the statements *)

(** *** Texts *)

Fixpoint all_digits (s : string) : bool :=
  match s with
  | EmptyString => true
  | String c s' => is_digit c && all_digits s'
  end.

(** What may follow a number in a text: nothing, or a character that is
    neither a digit nor the start of a fraction or of an exponent. *)
Definition ends_number (rest : string) : bool :=
  match rest with
  | EmptyString => true
  | String c _ => negb (is_digit c) && negb (continues_number rest)
  end.

(** A character that is neither white space nor a closing bracket. *)
Definition opens_value (c : ascii) : bool :=
  negb (is_json_ws c) && negb (Ascii.eqb c "]"%char) && negb (Ascii.eqb c "}"%char).

(** The fuel that reading a value back takes. *)
Fixpoint size (j : json) : nat :=
  match j with
  | JArr items => S (list_sum (map (fun x => S (size x)) items))
  | JObj members => S (list_sum (map (fun kv => S (size (snd kv))) members))
  | _ => 1
  end.

Definition render_member (d : nat) (kv : string * json) : string :=
  quote (fst kv) +:+ ": " +:+ render d (snd kv).

(** [parse_value] reads [j] back from its rendering at any depth, before
    any rest that ends a number, given fuel for [j]. *)
Definition reads_back (j : json) : Prop :=
  forall d n rest,
    size j <= n -> ends_number rest = true ->
    parse_value n (render d j +:+ rest) = Some (of_json j, rest).

(** *** Values that JSON can carry *)

Definition is_undefined (v : value) : bool :=
  match v with
  | VUndefined => true
  | _ => false
  end.

(** No [undefined] inside an array, no [NaN], no infinity; a property may
    hold [undefined]. *)
Fixpoint json_clean (v : value) : bool :=
  match v with
  | VUndefined => false
  | VNull | VBool _ | VStr _ => true
  | VNum (NInt _) => true
  | VNum _ => false
  | VArr xs => forallb json_clean xs
  | VObj ps =>
      forallb (fun kv => is_undefined (snd kv) || json_clean (snd kv)) ps
  end.

(** [k] may come before [k'] in the enumeration of one object: they
    differ, an array index comes before a key that is none, and two
    array indices are ascending. *)
Definition precedes (k k' : string) : bool :=
  negb (String.eqb k k') &&
  match array_index k, array_index k' with
  | Some n, Some n' => (n <? n')%N
  | Some _, None => true
  | None, Some _ => false
  | None, None => true
  end.

Fixpoint wf_keys (ks : list string) : bool :=
  match ks with
  | [] => true
  | k :: ks' => forallb (precedes k) ks' && wf_keys ks'
  end.

(** The representation invariant of objects, at every depth. *)
Fixpoint wf_value (v : value) : bool :=
  match v with
  | VArr xs => forallb wf_value xs
  | VObj ps => wf_keys (map fst ps) && forallb (fun kv => wf_value (snd kv)) ps
  | _ => true
  end.

Section DefinedMembers.
Variable f : value -> value.

(** The properties that hold something else than [undefined], under [f]. *)
Fixpoint defined_members (l : list (string * value)) : list (string * value) :=
  match l with
  | [] => []
  | (k, VUndefined) :: l' => defined_members l'
  | (k, v) :: l' => (k, f v) :: defined_members l'
  end.
End DefinedMembers.

(** [v] without the properties that hold [undefined]. *)
Fixpoint prune (v : value) : value :=
  match v with
  | VArr xs => VArr (map prune xs)
  | VObj ps => VObj (defined_members prune ps)
  | _ => v
  end.

Fixpoint insert_member (kv : string * value) (l : list (string * value))
  : list (string * value) :=
  match l with
  | [] => [kv]
  | kv' :: l' =>
      if String.leb (fst kv) (fst kv') then kv :: l else kv' :: insert_member kv l'
  end.

Definition sort_members (l : list (string * value)) : list (string * value) :=
  fold_right insert_member [] l.

(** The canonical form of a value: no property that holds [undefined],
    the properties of every object sorted by key. *)
Fixpoint canon (v : value) : value :=
  match v with
  | VArr xs => VArr (map canon xs)
  | VObj ps => VObj (sort_members (defined_members canon ps))
  | _ => v
  end.

(** Structural equality modulo key order, a property that holds
    [undefined] counting as absent. *)
Definition struct_eq (a b : value) : Prop := canon a = canon b.

(** A property of every value that an object holds. *)
Definition all_values (Q : value -> bool) (o : jsobject) : bool :=
  forallb (fun kv => Q (snd kv)) o.

(** What a property of a document that JSON can carry holds. *)
Definition carried (v : value) : bool := is_undefined v || json_clean v.

(** The text that [serialize] makes of a document. *)
Definition serialized (doc : jsobject) : string :=
  concat_newline (JSON_stringify (VObj doc)).

(** [k] is absent from the serialized JSON of [doc]: the text parses to
    an object without the key [k]. *)
Definition absent_from_json (k : string) (doc : jsobject) : Prop :=
  exists parsed,
    JSON_parse (serialized doc) = Some (VObj parsed) /\ obj_get k parsed = None.

(** *** The default-assembly contract *)

(** The fields that always have a value, with the value the contract
    gives them. *)
Definition defaulted_fields (o : ManifestOptions) : list (string * value) :=
  let theme := match opt_theme_color o with Some c => c | None => "#0a131b" end in
  [ ("lang", VStr match opt_lang o with Some l => l | None => "en" end);
    ("dir", VStr match opt_dir o with Some d => dir_string d | None => "ltr" end);
    ("name", VStr match opt_name o with Some n => n | None => "My App" end);
    ("short_name", VStr match opt_short_name o with Some n => n | None => "App" end);
    ("display",
      VStr match opt_display o with Some d => display_string d | None => "standalone" end);
    ("theme_color", VStr theme);
    ("background_color",
      VStr match opt_background_color o with Some c => c | None => theme end) ].

Definition supplied {A} (x : option A) : bool :=
  match x with Some _ => true | None => false end.

(** The fields without a default, each with whether the configuration
    supplies it. *)
Definition optional_fields (o : ManifestOptions) : list (string * bool) :=
  [ ("description", supplied (opt_description o));
    ("orientation", supplied (opt_orientation o));
    ("categories", supplied (opt_categories o));
    ("prefer_related_applications", supplied (opt_prefer_related_applications o));
    ("related_applications", supplied (opt_related_applications o));
    ("protocol_handlers", supplied (opt_protocol_handlers o));
    ("screenshots", supplied (opt_screenshots o)) ].

(** The contract on the fields that [reserved] does not define. *)
Definition default_assembly_contract_outside (reserved : jsobject)
    (o : ManifestOptions) (doc : jsobject) : Prop :=
  (forall k v, In (k, v) (defaulted_fields o) ->
     has_key k reserved = false -> obj_get k doc = Some v)
  /\ (forall k, In (k, false) (optional_fields o) ->
        has_key k reserved = false -> absent_from_json k doc).

(** The contract on every field. *)
Definition default_assembly_contract (o : ManifestOptions) (doc : jsobject) : Prop :=
  default_assembly_contract_outside [] o doc.

(** *** Configurations of the examples *)

(** A configuration that sets only [icons], [extra], [includeBuildMeta]
    and [transform]. *)
Definition options_with (icons : option (list ManifestIcon)) (extra : option jsobject)
    (includeBuildMeta : option bool)
    (transform : option (jsobject -> Mode -> result js_error jsobject))
  : ManifestOptions := {|
  opt_outputDir := None; opt_filename := None; opt_name := None;
  opt_short_name := None; opt_description := None; opt_lang := None;
  opt_dir := None; opt_start_url := None; opt_scope := None; opt_id := None;
  opt_display := None; opt_orientation := None; opt_background_color := None;
  opt_theme_color := None; opt_categories := None;
  opt_prefer_related_applications := None; opt_related_applications := None;
  opt_protocol_handlers := None; opt_icons := icons; opt_screenshots := None;
  opt_extra := extra; opt_includeBuildMeta := includeBuildMeta;
  opt_transform := transform
|}.

(** A project without package metadata and without version control, at
    a fixed instant. *)
Definition bare_env : Env :=
  {| env_package := None; env_exec := fun _ => None;
     env_now := "2025-09-09T13:45:00.000Z" |}.

(** A project at version 0.1.0 whose commit is [abc1234], untagged. *)
Definition git_env : Env :=
  {| env_package := Some (VObj [("name", VStr "app"); ("version", VStr "0.1.0")]);
     env_exec := fun cmd =>
       if String.eqb cmd "git describe --tags --exact-match" then None
       else Some ("abc1234" +:+ nl);
     env_now := "2025-09-09T13:45:00.000Z" |}.

(** The transform of the spec's example: [name] becomes ["X"] in
    development only. *)
Definition name_X_in_development (json : jsobject) (m : Mode) : result js_error jsobject :=
  match m with
  | development => Ok (obj_set "name" (VStr "X") json)
  | production => Ok json
  end.

(** The icon list that the built-in pair serializes to. *)
Definition default_pair : value :=
  VArr [ VObj [("src", VStr "/icons/icon-192x192.png"); ("sizes", VStr "192x192");
               ("type", VStr "image/png"); ("purpose", VStr "any maskable")];
         VObj [("src", VStr "/icons/icon-512x512.png"); ("sizes", VStr "512x512");
               ("type", VStr "image/png"); ("purpose", VStr "any maskable")] ].

Definition no_maskable_warning : console_call :=
  log_warn "manifest"
    "No maskable icon found; add purpose: 'maskable' for better Android PWA rendering."
    None.

(** The keys of the build metadata. *)
Definition build_meta_keys : list string := ["pkgVersion"; "version"; "buildTime"].

(** A transform that adds none of the keys [ks]. *)
Definition adds_none_of (ks : list string)
    (transform : jsobject -> Mode -> result js_error jsobject) : Prop :=
  forall json m json' k,
    transform json m = Ok json' -> In k ks -> has_key k json = false ->
    has_key k json' = false.

(** *** The dev route *)

Fixpoint get_assoc (k : string) (l : list (string * string)) : option string :=
  match l with
  | [] => None
  | (k', v) :: l' => if String.eqb k' k then Some v else get_assoc k l'
  end.

(** [res.getHeader(name)]: the name counts without its case. *)
Definition getHeader (name : string) (l : list (string * string)) : option string :=
  get_assoc (toLowerCase name) l.

Definition is_hex_digit (c : ascii) : bool :=
  let n := nat_of_ascii c in
  ((48 <=? n)%nat && (n <=? 57)%nat) || ((97 <=? n)%nat && (n <=? 102)%nat).

Fixpoint all_hex (s : string) : bool :=
  match s with
  | EmptyString => true
  | String c s' => is_hex_digit c && all_hex s'
  end.

(** The response as the server hands it to the middleware, whatever
    headers [hs] were set before. *)
Definition response_with (hs : list (string * string)) : Response :=
  {| statusCode := 200; res_headers := hs; res_body := EmptyString; res_ended := false |}.

(** *** The disk mirror *)

(** The pre-read succeeds and gives exactly the payload. *)
Definition same_content (fs : FS) (p : fspath) (payload : string) : bool :=
  match fs_nodes fs !! p with
  | Some (File content true _) => String.eqb content payload
  | _ => false
  end.

(** [p] holds a file that cannot be read. *)
Definition unreadable (fs : FS) (p : fspath) : Prop :=
  exists content writable, fs_nodes fs !! p = Some (File content false writable).

Definition is_directory (fs : FS) (p : fspath) : Prop :=
  exists writable, fs_nodes fs !! p = Some (Dir writable).

(** A project directory [/app] that nothing was written to yet. *)
Definition empty_project : FS :=
  {| fs_nodes := {[ [] := Dir true; ["app"] := Dir true ]}; fs_calls := [] |}.

(** The same with a mirror that may be written but not read. *)
Definition write_only_mirror : FS :=
  {| fs_nodes := {[ [] := Dir true; ["app"] := Dir true;
                    ["app"; "public"] := Dir true;
                    ["app"; "public"; "manifest.json"] := File "{}" false true ]};
     fs_calls := [] |}.

(** *** Deduplication as the spec words it *)

#[global] Instance IconPurpose_eq_dec : EqDecision IconPurpose.
Proof. solve_decision. Defined.

(** The (source, size, purpose) triple of an icon. *)
Definition icon_triple (i : ManifestIcon) : string * string * option IconPurpose :=
  (icon_src i, icon_sizes i, icon_purpose i).

(** Keep the first icon of every triple, in input order. *)
Fixpoint first_of_each_triple (seen : list (string * string * option IconPurpose))
    (l : list ManifestIcon) : list ManifestIcon :=
  match l with
  | [] => []
  | i :: l' =>
      if decide (icon_triple i ∈ seen) then first_of_each_triple seen l'
      else i :: first_of_each_triple (icon_triple i :: seen) l'
  end.

(** Follows the spec's words: one entry per distinct triple after path
    normalization, the first retained, in first-seen order. *)
Definition deduplicated (icons : list ManifestIcon) : list ManifestIcon :=
  first_of_each_triple [] (map with_leading_slash icons).

(** No vertical bar in the string. *)
Fixpoint bar_free (s : string) : bool :=
  match s with
  | EmptyString => true
  | String c s' => negb (Ascii.eqb c "|"%char) && bar_free s'
  end.

Definition bar_free_icon (i : ManifestIcon) : bool :=
  bar_free (icon_src i) && bar_free (icon_sizes i).

(** Two icons of different triples whose keys collide. *)
Definition colliding_first : ManifestIcon :=
  {| icon_src := "/a|b"; icon_sizes := "c"; icon_type := None; icon_purpose := None |}.

Definition colliding_second : ManifestIcon :=
  {| icon_src := "/a"; icon_sizes := "b|c"; icon_type := None; icon_purpose := None |}.
(** *** Icons *)

(** The purposes that name [maskable]. *)
Definition maskable_purpose (p : option IconPurpose) : bool :=
  match p with
  | Some PurposeMaskable | Some PurposeAnyMaskable => true
  | _ => false
  end.

(** What the callback of [hasMaskableIcon] answers for one element. *)
Definition maskable_answer (i : value) : result js_error bool :=
  let* p := get_property "purpose" i in
  purpose_includes_maskable p.

(** The icons as [normalizeIcons] filters them. *)
Definition slashed (icons : option (list ManifestIcon)) : list ManifestIcon :=
  map with_leading_slash (default defaultIcons icons).

(** *** The dev route, again *)

(** The headers that the dev route sets. *)
Definition manifest_headers : list string :=
  ["Content-Type"; "Cache-Control"; "Pragma"; "Expires"; "ETag"].

(** The same with their values, for a payload. *)
Definition sent_headers (payload : string) : list (string * string) :=
  [ ("Content-Type", "application/manifest+json; charset=utf-8");
    ("Cache-Control", "no-store, no-cache, must-revalidate, max-age=0");
    ("Pragma", "no-cache");
    ("Expires", "0");
    ("ETag", hashETag payload) ].

(** The response of a handler that returned, a fresh one otherwise. *)
Definition response_of (r : result js_error (Response * list console_call)) : Response :=
  match r with
  | Ok (res, _) => res
  | Err _ => new_response
  end.

(** *** The hooks *)

(** The console call that follows a mirror that wrote. *)
Definition mirrored_log (outPath : fspath) : console_call :=
  log_info "manifest" "Manifest mirrored to disk"
    (Some (VObj [("file", VStr (path_string outPath))])).

(** A part of a path that names something: not empty, not [.], not [..]. *)
Definition plain_part (seg : string) : bool :=
  negb (String.eqb seg EmptyString) && negb (String.eqb seg ".")
  && negb (String.eqb seg "..").

(** The states that the variables of one plugin can be in: what
    [generateManifest] leaves, and what [configResolved] and
    [buildStart] leave, whether they return or throw, in whatever order
    and world the host calls them. *)
Inductive reachable (opts : ManifestOptions) : PluginState -> Prop :=
| reach_new (cwd : string) : reachable opts (generateManifest cwd)
| reach_configResolved (env : Env) (cwd : string) (c : ResolvedConfig) (st : PluginState) :
    reachable opts st -> reachable opts (fst (configResolved opts env cwd c st))
| reach_buildStart (env : Env) (cwd : string) (st : PluginState) :
    reachable opts st -> reachable opts (fst (buildStart opts env cwd st)).

(** A configuration that mirrors to [public], without build metadata. *)
Definition mirrored_options : ManifestOptions := {|
  opt_outputDir := Some "public"; opt_filename := None; opt_name := None;
  opt_short_name := None; opt_description := None; opt_lang := None;
  opt_dir := None; opt_start_url := None; opt_scope := None; opt_id := None;
  opt_display := None; opt_orientation := None; opt_background_color := None;
  opt_theme_color := None; opt_categories := None;
  opt_prefer_related_applications := None; opt_related_applications := None;
  opt_protocol_handlers := None; opt_icons := None; opt_screenshots := None;
  opt_extra := None; opt_includeBuildMeta := Some false; opt_transform := None
|}.

(** A configuration whose paths come without their leading slash. *)
Definition slashless_options : ManifestOptions := {|
  opt_outputDir := None; opt_filename := None; opt_name := None;
  opt_short_name := None; opt_description := None; opt_lang := None;
  opt_dir := None; opt_start_url := Some "app/"; opt_scope := Some "/app/";
  opt_id := Some "pwa"; opt_display := None; opt_orientation := None;
  opt_background_color := None; opt_theme_color := None; opt_categories := None;
  opt_prefer_related_applications := None; opt_related_applications := None;
  opt_protocol_handlers := None;
  opt_icons := Some [ {| icon_src := "icon.png"; icon_sizes := "48x48";
                         icon_type := None; icon_purpose := Some PurposeMaskable |} ];
  opt_screenshots := None;
  opt_extra := None; opt_includeBuildMeta := None; opt_transform := None
|}.


(* ================================================================= *)
(** ** The embedding at work *)

Example sha1_of_abc : sha1_hex "abc" = "a9993e364706816aba3e25717850c26c9cd0d89d".
Proof. vm_compute. reflexivity. Qed.

Example sha1_of_nothing :
  sha1_hex EmptyString = "da39a3ee5e6b4b0d3255bfef95601890afd80709".
Proof. vm_compute. reflexivity. Qed.

Example sha1_of_two_blocks :
  sha1_hex "abcdbcdecdefdefgefghfghighijhijkijkljklmklmnlmnomnopnopq"
  = "84983e441c3bd26ebaae4aa1f95129e5e54670f1".
Proof. vm_compute. reflexivity. Qed.

Example stringify_nested :
  JSON_stringify (VObj [("b", VArr [VNum (NInt (-3)); VUndefined; VObj []]);
                        ("skipped", VUndefined); ("a", VNull)])
  = Some ("{
  " +:+ quote "b" +:+ ": [
    -3,
    null,
    {}
  ],
  " +:+ quote "a" +:+ ": null
}").
Proof. vm_compute. reflexivity. Qed.

Example parse_orders_keys :
  JSON_parse ("{" +:+ quote "b" +:+ ":1, " +:+ quote "10" +:+ ":2, " +:+ quote "9"
              +:+ ":3, " +:+ quote "b" +:+ ":4}")
  = Some (VObj [("9", VNum (NInt 3)); ("10", VNum (NInt 2)); ("b", VNum (NInt 4))]).
Proof. vm_compute. reflexivity. Qed.

Example gitShort_takes_first_answer : gitShort git_env = Some "abc1234".
Proof. reflexivity. Qed.

Example trim_strips_both_ends : trim (" v1.2 " +:+ nl) = "v1.2".
Proof. reflexivity. Qed.

(* ================================================================= *)
(** ** Strings *)

Lemma str_app_nil_r (s : string) : s +:+ EmptyString = s.
Proof.
  induction s as [|c s IH]; [reflexivity|].
  change (String c (s +:+ EmptyString) = String c s). now rewrite IH.
Qed.

Lemma str_app_assoc (a b c : string) : (a +:+ b) +:+ c = a +:+ (b +:+ c).
Proof.
  induction a as [|x a IH]; [reflexivity|].
  change (String x ((a +:+ b) +:+ c) = String x (a +:+ (b +:+ c))). now rewrite IH.
Qed.

Lemma str_app_nil_l (s : string) : EmptyString +:+ s = s.
Proof. reflexivity. Qed.

Lemma str_app_cons (c : ascii) (s t : string) : String c s +:+ t = String c (s +:+ t).
Proof. reflexivity. Qed.

Lemma str_length_app (a b : string) :
  String.length (a +:+ b) = String.length a + String.length b.
Proof.
  induction a as [|x a IH]; [reflexivity|].
  rewrite str_app_cons. simpl. now rewrite IH.
Qed.

(* ================================================================= *)
(** ** The text layer: [JSON.parse] reads back what [render] writes *)

Lemma parse_chars_escape_char (c : ascii) (t : string) :
  parse_chars (escape_char c +:+ t) = cons_char c (parse_chars t).
Proof. destruct c as [[] [] [] [] [] [] [] []]; reflexivity. Qed.

Lemma parse_chars_escape (s rest : string) :
  parse_chars (escape s +:+ String dquote rest) = Some (s, rest).
Proof.
  induction s as [|c s IH].
  - reflexivity.
  - cbn [escape]. rewrite str_app_assoc, parse_chars_escape_char, IH. reflexivity.
Qed.

Lemma parse_chars_quote (s rest : string) :
  quote s +:+ rest = String dquote (escape s +:+ String dquote rest).
Proof. unfold quote. rewrite str_app_cons, str_app_assoc. reflexivity. Qed.


Lemma all_digits_NilEmpty (d : Decimal.uint) :
  all_digits (NilEmpty.string_of_uint d) = true.
Proof. induction d; simpl; auto. Qed.

Lemma all_digits_NilZero (d : Decimal.uint) :
  all_digits (NilZero.string_of_uint d) = true.
Proof. destruct d; try reflexivity; apply (all_digits_NilEmpty (_ _)). Qed.

Lemma NilZero_nonempty (d : Decimal.uint) :
  NilZero.string_of_uint d <> EmptyString.
Proof. destruct d; discriminate. Qed.

Lemma to_uint_nonnil (n : N) : N.to_uint n <> Decimal.Nil.
Proof.
  destruct n as [|p]; [discriminate|].
  apply (DecimalPos.Unsigned.to_uint_nonnil p).
Qed.

Lemma span_digits_app (ds rest : string) :
  all_digits ds = true ->
  match rest with EmptyString => true | String c _ => negb (is_digit c) end = true ->
  span_digits (ds +:+ rest) = (ds, rest).
Proof.
  intros Hds Hrest. induction ds as [|c ds IH].
  - destruct rest as [|c r]; [reflexivity|].
    cbn [String.append span_digits]. rewrite str_app_nil_l.
    apply negb_true_iff in Hrest. cbn [span_digits]. now rewrite Hrest.
  - cbn [all_digits] in Hds. apply andb_true_iff in Hds as [Hc Hds].
    rewrite str_app_cons. cbn [span_digits]. rewrite Hc, (IH Hds). reflexivity.
Qed.


Lemma parse_number_string (z : Z) (rest : string) :
  ends_number rest = true ->
  parse_number (number_string z +:+ rest) = Some (z, rest).
Proof.
  intros Hrest.
  assert (Hspan : span_digits (NilZero.string_of_uint (N.to_uint (Z.abs_N z)) +:+ rest)
                  = (NilZero.string_of_uint (N.to_uint (Z.abs_N z)), rest)).
  { apply span_digits_app; [apply all_digits_NilZero|].
    destruct rest as [|c r]; [reflexivity|].
    cbn [ends_number] in Hrest. now apply andb_true_iff in Hrest as [-> _]. }
  assert (Hcont : continues_number rest = false).
  { destruct rest as [|c r]; [reflexivity|].
    cbn [ends_number] in Hrest. apply andb_true_iff in Hrest as [_ H].
    now apply negb_true_iff in H. }
  assert (Htail : forall negative : bool,
    parse_digits negative (NilZero.string_of_uint (N.to_uint (Z.abs_N z)) +:+ rest)
    = Some ((if negative then (- Z.of_N (Z.abs_N z))%Z else Z.of_N (Z.abs_N z)), rest)).
  { intros negative. unfold parse_digits. rewrite Hspan.
    rewrite NilZero.usu by apply to_uint_nonnil.
    cbv zeta. rewrite DecimalN.Unsigned.of_to, String.eqb_refl, Hcont. reflexivity. }
  unfold number_string, parse_number.
  destruct (Z.ltb_spec z 0) as [Hneg|Hpos].
  - rewrite str_app_assoc. change ("-" +:+ ?s) with (String "-"%char s).
    cbn [Ascii.eqb Bool.eqb]. cbv iota.
    rewrite (Htail true). f_equal. f_equal. rewrite N2Z.inj_abs_N. lia.
  - rewrite str_app_nil_l.
    destruct (NilZero.string_of_uint (N.to_uint (Z.abs_N z)) +:+ rest) as [|c s] eqn:E.
    { exfalso. destruct (NilZero.string_of_uint (N.to_uint (Z.abs_N z))) eqn:E2.
      - now apply NilZero_nonempty in E2.
      - discriminate. }
    assert (Hc : Ascii.eqb c "-"%char = false).
    { pose proof (all_digits_NilZero (N.to_uint (Z.abs_N z))) as Hd.
      destruct (NilZero.string_of_uint (N.to_uint (Z.abs_N z))) as [|c' s'] eqn:E2.
      - now apply NilZero_nonempty in E2.
      - rewrite str_app_cons in E. injection E as -> _.
        cbn [all_digits] in Hd. apply andb_true_iff in Hd as [Hd _].
        destruct (Ascii.eqb_spec c "-"%char) as [->|]; [discriminate|reflexivity]. }
    cbv beta iota. rewrite Hc, (Htail false). f_equal. f_equal.
    rewrite N2Z.inj_abs_N. lia.
Qed.

(** White space. *)
Lemma skip_ws_nl (s : string) : skip_ws (nl +:+ s) = skip_ws s.
Proof. reflexivity. Qed.

Lemma skip_ws_indentation (d : nat) (s : string) :
  skip_ws (indentation d +:+ s) = skip_ws s.
Proof.
  induction d as [|d IH]; [reflexivity|].
  cbn [indentation]. rewrite str_app_assoc. exact IH.
Qed.

Lemma skip_ws_head (c : ascii) (s : string) :
  is_json_ws c = false -> skip_ws (String c s) = String c s.
Proof. intros H. cbn [skip_ws]. now rewrite H. Qed.


Lemma number_string_head (z : Z) (rest : string) :
  exists c s, number_string z +:+ rest = String c s
              /\ (is_digit c || Ascii.eqb c "-"%char) = true.
Proof.
  unfold number_string. destruct (z <? 0)%Z.
  - eexists _, _. split; [rewrite str_app_assoc; reflexivity|reflexivity].
  - rewrite str_app_nil_l.
    pose proof (all_digits_NilZero (N.to_uint (Z.abs_N z))) as Hd.
    destruct (NilZero.string_of_uint (N.to_uint (Z.abs_N z))) as [|c s] eqn:E.
    + now apply NilZero_nonempty in E.
    + cbn [all_digits] in Hd. apply andb_true_iff in Hd as [Hd _].
      exists c, (s +:+ rest). split; [reflexivity|]. now rewrite Hd.
Qed.

Lemma number_head_opens (c : ascii) :
  (is_digit c || Ascii.eqb c "-"%char) = true -> opens_value c = true.
Proof. destruct c as [[] [] [] [] [] [] [] []]; intros H; try discriminate H; reflexivity. Qed.

Lemma render_head (d : nat) (j : json) (rest : string) :
  exists c s, render d j +:+ rest = String c s /\ opens_value c = true.
Proof.
  destruct j as [|[]|z|s|[|x xs]|[|kv kvs]];
    try (eexists _, _; split; reflexivity).
  destruct (number_string_head z rest) as (c & s & E & Hc).
  exists c, s. split; [exact E|]. now apply number_head_opens.
Qed.

Lemma skip_ws_render (d : nat) (j : json) (rest : string) :
  skip_ws (render d j +:+ rest) = render d j +:+ rest.
Proof.
  destruct (render_head d j rest) as (c & s & -> & Hc).
  apply skip_ws_head. unfold opens_value in Hc.
  apply andb_true_iff in Hc as [Hc _]. apply andb_true_iff in Hc as [Hc _].
  now apply negb_true_iff in Hc.
Qed.


Lemma concat_cons (sep x : string) (xs : list string) :
  String.concat sep (x :: xs)
  = x +:+ match xs with
          | [] => EmptyString
          | _ :: _ => sep +:+ String.concat sep xs
          end.
Proof. destruct xs; cbn [String.concat]; [now rewrite str_app_nil_r|reflexivity]. Qed.

Lemma parse_value_number (n : nat) (c : ascii) (s : string) :
  (is_digit c || Ascii.eqb c "-"%char) = true ->
  parse_value (S n) (String c s)
  = match parse_number (String c s) with
    | Some (z, rest) => Some (VNum (NInt z), rest)
    | None => None
    end.
Proof. destruct c as [[] [] [] [] [] [] [] []]; intros H; try discriminate H; reflexivity. Qed.


Lemma skip_ws_concat (sep : string) (d : nat) (xs : list json) (rest : string) :
  xs <> [] ->
  skip_ws (String.concat sep (map (render d) xs) +:+ rest)
  = String.concat sep (map (render d) xs) +:+ rest.
Proof.
  destruct xs as [|x xs]; [congruence|]. intros _.
  cbn [map]. rewrite concat_cons, str_app_assoc. apply skip_ws_render.
Qed.

Lemma concat_cons_cons (sep x y : string) (l : list string) :
  String.concat sep (x :: y :: l) = x +:+ sep +:+ String.concat sep (y :: l).
Proof. reflexivity. Qed.

Lemma parse_elements_render (d : nat) (xs : list json) :
  Forall reads_back xs -> xs <> [] ->
  forall n acc rest,
    list_sum (map (fun x => S (size x)) xs) <= n ->
    parse_elements n acc
      (String.concat ("," +:+ nl +:+ indentation (S d)) (map (render (S d)) xs)
       +:+ nl +:+ indentation d +:+ "]" +:+ rest)
    = Some (VArr (acc ++ map of_json xs), rest).
Proof.
  induction 1 as [|x xs Hx Hxs IH]; [congruence|]. intros _ n acc rest Hn.
  simpl in Hn. destruct n as [|n]; [lia|].
  cbn [parse_elements]. destruct xs as [|y ys].
  - cbn [map String.concat].
    rewrite (Hx (S d) n) by (reflexivity || lia).
    rewrite skip_ws_nl, skip_ws_indentation. reflexivity.
  - cbn [map]. rewrite concat_cons_cons, !str_app_assoc.
    rewrite (Hx (S d) n) by (reflexivity || lia).
    change ("," +:+ ?s) with (String ","%char s).
    rewrite skip_ws_head by reflexivity. cbv beta iota.
    change (Ascii.eqb "," ",") with true. cbv iota.
    change (render (S d) y :: map (render (S d)) ys) with (map (render (S d)) (y :: ys)).
    rewrite skip_ws_nl, skip_ws_indentation, skip_ws_concat by congruence.
    rewrite IH by (congruence || lia).
    now rewrite <- app_assoc.
Qed.


Lemma skip_ws_members (sep : string) (d : nat) (kvs : list (string * json)) (rest : string) :
  kvs <> [] ->
  skip_ws (String.concat sep (map (render_member d) kvs) +:+ rest)
  = String.concat sep (map (render_member d) kvs) +:+ rest.
Proof.
  destruct kvs as [|kv kvs]; [congruence|]. intros _.
  cbn [map]. rewrite concat_cons. unfold render_member at 1, quote.
  rewrite !str_app_cons. apply skip_ws_head. reflexivity.
Qed.

Lemma members_head (sep : string) (d : nat) (kvs : list (string * json)) (rest : string) :
  kvs <> [] ->
  exists s, String.concat sep (map (render_member d) kvs) +:+ rest = String dquote s.
Proof.
  destruct kvs as [|kv kvs]; [congruence|]. intros _.
  cbn [map]. rewrite concat_cons. unfold render_member at 1, quote.
  rewrite !str_app_cons. eexists. reflexivity.
Qed.

Lemma parse_members_render (d : nat) (kvs : list (string * json)) :
  Forall (fun kv => reads_back (snd kv)) kvs -> kvs <> [] ->
  forall n acc rest,
    list_sum (map (fun kv => S (size (snd kv))) kvs) <= n ->
    parse_members n acc
      (String.concat ("," +:+ nl +:+ indentation (S d)) (map (render_member (S d)) kvs)
       +:+ nl +:+ indentation d +:+ "}" +:+ rest)
    = Some (VObj (fold_left (fun o kv => obj_set (fst kv) (of_json (snd kv)) o) kvs acc),
            rest).
Proof.
  induction 1 as [|[k v] kvs Hv Hkvs IH]; [congruence|]. intros _ n acc rest Hn.
  simpl in Hn. destruct n as [|n]; [lia|].
  assert (Hkey : forall tail,
    parse_members (S n) acc (render_member (S d) (k, v) +:+ tail)
    = match parse_value n (render (S d) v +:+ tail) with
      | Some (v', r3) =>
          match skip_ws r3 with
          | String c r4 =>
              if Ascii.eqb c ","%char
              then parse_members n (obj_set k v' acc) (skip_ws r4)
              else if Ascii.eqb c "}"%char
              then Some (VObj (obj_set k v' acc), r4)
              else None
          | EmptyString => None
          end
      | None => None
      end).
  { intros tail. unfold render_member. cbn [fst snd].
    rewrite !str_app_assoc, parse_chars_quote. cbn [parse_members].
    change (Ascii.eqb dquote dquote) with true. cbv iota.
    rewrite parse_chars_escape.
    change (": " +:+ ?s) with (String ":"%char (String " "%char s)).
    rewrite skip_ws_head by reflexivity. cbv beta iota.
    change (Ascii.eqb ":" ":") with true. cbv iota.
    change (skip_ws (String " " ?s)) with (skip_ws s).
    rewrite skip_ws_render. reflexivity. }
  destruct kvs as [|kv' kvs'].
  - cbn [map String.concat]. rewrite Hkey.
    rewrite (Hv (S d) n) by (reflexivity || (cbn [snd]; lia)).
    rewrite skip_ws_nl, skip_ws_indentation. reflexivity.
  - cbn [map]. rewrite concat_cons_cons, !str_app_assoc, Hkey.
    rewrite (Hv (S d) n) by (reflexivity || (cbn [snd]; lia)).
    change ("," +:+ ?s) with (String ","%char s).
    rewrite skip_ws_head by reflexivity. cbv beta iota.
    change (Ascii.eqb "," ",") with true. cbv iota.
    change (render_member (S d) kv' :: map (render_member (S d)) kvs')
      with (map (render_member (S d)) (kv' :: kvs')).
    rewrite skip_ws_nl, skip_ws_indentation, skip_ws_members by congruence.
    rewrite IH by (congruence || lia).
    reflexivity.
Qed.

Lemma render_arr (d : nat) (x : json) (xs : list json) :
  render d (JArr (x :: xs))
  = "[" +:+ nl +:+ indentation (S d)
    +:+ String.concat ("," +:+ nl +:+ indentation (S d)) (map (render (S d)) (x :: xs))
    +:+ nl +:+ indentation d +:+ "]".
Proof. reflexivity. Qed.

Lemma render_obj (d : nat) (kv : string * json) (kvs : list (string * json)) :
  render d (JObj (kv :: kvs))
  = "{" +:+ nl +:+ indentation (S d)
    +:+ String.concat ("," +:+ nl +:+ indentation (S d))
          (map (render_member (S d)) (kv :: kvs))
    +:+ nl +:+ indentation d +:+ "}".
Proof. reflexivity. Qed.

(** Reading back one rendered value, given enough fuel. *)
Lemma parse_value_render (j : json) : reads_back j.
Proof.
  induction j as [| b | z | s | items IH | members IH] using json_ind;
    intros d n rest Hn Hrest; (destruct n as [|n]; [simpl in Hn; lia|]).
  - reflexivity.
  - destruct b; reflexivity.
  - cbn [render of_json].
    destruct (number_string_head z rest) as (c & s & E & Hc).
    rewrite E, (parse_value_number n c s Hc), <- E.
    now rewrite parse_number_string.
  - cbn [render of_json]. rewrite parse_chars_quote. cbn [parse_value].
    change (Ascii.eqb dquote "{") with false.
    change (Ascii.eqb dquote "[") with false.
    change (Ascii.eqb dquote dquote) with true. cbv iota.
    now rewrite parse_chars_escape.
  - destruct items as [|x xs]; [reflexivity|].
    rewrite render_arr, !str_app_assoc.
    change ("[" +:+ ?s) with (String "["%char s). cbn [parse_value].
    change (Ascii.eqb "[" "{") with false.
    change (Ascii.eqb "[" "[") with true. cbv iota.
    rewrite skip_ws_nl, skip_ws_indentation, skip_ws_concat by congruence.
    pose proof (parse_elements_render d (x :: xs) IH ltac:(congruence) n [] rest) as Hp.
    cbn [size] in Hn. specialize (Hp ltac:(lia)).
    revert Hp.
    cbn [map]. rewrite concat_cons, !str_app_assoc.
    destruct (render_head (S d) x
                (match map (render (S d)) xs with
                 | [] => EmptyString
                 | _ :: _ => "," +:+ nl +:+ indentation (S d)
                             +:+ String.concat ("," +:+ nl +:+ indentation (S d))
                                   (map (render (S d)) xs)
                 end +:+ nl +:+ indentation d +:+ "]" +:+ rest))
      as (c' & s' & -> & Hc').
    unfold opens_value in Hc'. apply andb_true_iff in Hc' as [Hc' _].
    apply andb_true_iff in Hc' as [_ Hc']. apply negb_true_iff in Hc'.
    rewrite Hc'. intros ->. reflexivity.
  - destruct members as [|kv kvs]; [reflexivity|].
    rewrite render_obj, !str_app_assoc.
    change ("{" +:+ ?s) with (String "{"%char s). cbn [parse_value].
    change (Ascii.eqb "{" "{") with true. cbv iota.
    rewrite skip_ws_nl, skip_ws_indentation, skip_ws_members by congruence.
    destruct (members_head ("," +:+ nl +:+ indentation (S d)) (S d) (kv :: kvs)
                (nl +:+ indentation d +:+ "}" +:+ rest) ltac:(congruence)) as (s & E).
    pose proof (parse_members_render d (kv :: kvs) IH ltac:(congruence) n [] rest) as Hp.
    cbn [size] in Hn. specialize (Hp ltac:(lia)).
    rewrite E in Hp |- *. cbv beta iota.
    change (Ascii.eqb dquote "}") with false. cbv iota.
    rewrite Hp. reflexivity.
Qed.

(** The fuel [JSON_parse] gives is enough for what [render] writes. *)
Lemma number_string_length (z : Z) : 1 <= String.length (number_string z).
Proof.
  unfold number_string. rewrite str_length_app.
  destruct (NilZero.string_of_uint (N.to_uint (Z.abs_N z))) eqn:E.
  - now apply NilZero_nonempty in E.
  - simpl. lia.
Qed.

Lemma concat_length_bound (sep : string) (f : json -> string) (l : list json) :
  1 <= String.length sep ->
  Forall (fun j => size j <= String.length (f j)) l ->
  list_sum (map (fun x => S (size x)) l)
  <= String.length (String.concat sep (map f l)) + 1.
Proof.
  intros Hsep. induction 1 as [|x l Hx Hl IH]; [simpl; lia|].
  destruct l as [|y l]; [simpl; lia|].
  change (map f (x :: y :: l)) with (f x :: f y :: map f l).
  rewrite concat_cons_cons, !str_length_app.
  change (f y :: map f l) with (map f (y :: l)).
  change (list_sum (map ?g (x :: y :: l))) with (S (size x) + list_sum (map g (y :: l))).
  lia.
Qed.

Lemma concat_members_length_bound (sep : string) (f : string * json -> string)
    (l : list (string * json)) :
  1 <= String.length sep ->
  Forall (fun kv => size (snd kv) <= String.length (f kv)) l ->
  list_sum (map (fun kv => S (size (snd kv))) l)
  <= String.length (String.concat sep (map f l)) + 1.
Proof.
  intros Hsep. induction 1 as [|x l Hx Hl IH]; [simpl; lia|].
  destruct l as [|y l]; [simpl; lia|].
  change (map f (x :: y :: l)) with (f x :: f y :: map f l).
  rewrite concat_cons_cons, !str_length_app.
  change (f y :: map f l) with (map f (y :: l)).
  change (list_sum (map ?g (x :: y :: l))) with (S (size (snd x)) + list_sum (map g (y :: l))).
  lia.
Qed.

Lemma size_le_length (j : json) : forall d, size j <= String.length (render d j).
Proof.
  induction j as [| b | z | s | items IH | members IH] using json_ind; intros d.
  - simpl. lia.
  - destruct b; simpl; lia.
  - apply number_string_length.
  - simpl. lia.
  - destruct items as [|x xs]; [simpl; lia|].
    rewrite render_arr. cbn [size].
    assert (Hsep : 1 <= String.length ("," +:+ nl +:+ indentation (S d))).
    { rewrite str_length_app. change (String.length ",") with 1. lia. }
    assert (Hall : Forall (fun j => size j <= String.length (render (S d) j)) (x :: xs)).
    { eapply Forall_impl; [exact IH|]. intros j Hj. apply Hj. }
    pose proof (concat_length_bound _ _ _ Hsep Hall) as Hb.
    rewrite !str_length_app.
    change (String.length "[") with 1. change (String.length nl) with 1. lia.
  - destruct members as [|kv kvs]; [simpl; lia|].
    rewrite render_obj. cbn [size].
    assert (Hsep : 1 <= String.length ("," +:+ nl +:+ indentation (S d))).
    { rewrite str_length_app. change (String.length ",") with 1. lia. }
    assert (Hall : Forall (fun kv => size (snd kv) <= String.length (render_member (S d) kv))
                     (kv :: kvs)).
    { eapply Forall_impl; [exact IH|]. intros [k v] Hj. unfold render_member.
      cbn [fst snd] in *. rewrite !str_length_app. specialize (Hj (S d)). lia. }
    pose proof (concat_members_length_bound _ _ _ Hsep Hall) as Hb.
    rewrite !str_length_app.
    change (String.length "{") with 1. change (String.length nl) with 1. lia.
Qed.

(** [JSON.parse] reads back every text that [render] writes, with or
    without the newline that [serialize] appends. *)
Lemma JSON_parse_render (j : json) : JSON_parse (render 0 j) = Some (of_json j).
Proof.
  unfold JSON_parse.
  rewrite <- (str_app_nil_r (render 0 j)) at 2.
  rewrite skip_ws_render.
  rewrite (parse_value_render j 0 _ EmptyString); [reflexivity| |reflexivity].
  pose proof (size_le_length j 0). lia.
Qed.

Lemma JSON_parse_render_nl (j : json) :
  JSON_parse (render 0 j +:+ nl) = Some (of_json j).
Proof.
  unfold JSON_parse. rewrite skip_ws_render.
  rewrite (parse_value_render j 0 _ nl); [reflexivity| |reflexivity].
  rewrite str_length_app. pose proof (size_le_length j 0). lia.
Qed.

(* ================================================================= *)
(** ** Objects *)

Lemma obj_get_replace_eq (k : string) (v : value) (o : jsobject) :
  has_key k o = true -> obj_get k (obj_replace k v o) = Some v.
Proof.
  unfold has_key. induction o as [|[k' v'] o IH]; [discriminate|].
  cbn [obj_get obj_replace]. destruct (String.eqb_spec k' k) as [->|Hne].
  - intros _. cbn [obj_get]. now rewrite String.eqb_refl.
  - intros H. cbn [obj_get]. destruct (String.eqb_spec k' k); [congruence|]. auto.
Qed.

Lemma obj_get_replace_ne (k k0 : string) (v : value) (o : jsobject) :
  k0 <> k -> obj_get k0 (obj_replace k v o) = obj_get k0 o.
Proof.
  intros Hne. induction o as [|[k' v'] o IH]; [reflexivity|].
  cbn [obj_get obj_replace]. destruct (String.eqb_spec k' k) as [->|Hk].
  - cbn [obj_get]. destruct (String.eqb_spec k k0); [congruence|reflexivity].
  - cbn [obj_get]. now rewrite IH.
Qed.

Lemma array_index_inj (k k' : string) (n : N) :
  array_index k = Some n -> array_index k' = Some n -> k = k'.
Proof.
  unfold array_index. intros H H'.
  destruct (NilZero.uint_of_string k) as [d|]; [|discriminate].
  destruct (NilZero.uint_of_string k') as [d'|]; [|discriminate].
  cbv zeta in *.
  destruct (String.eqb_spec (NilZero.string_of_uint (N.to_uint (N.of_uint d))) k) as [E|];
    [|discriminate].
  destruct (String.eqb_spec (NilZero.string_of_uint (N.to_uint (N.of_uint d'))) k') as [E'|];
    [|discriminate].
  cbn [andb] in *.
  destruct (N.of_uint d <=? 4294967294)%N; [|discriminate].
  destruct (N.of_uint d' <=? 4294967294)%N; [|discriminate].
  injection H as H. injection H' as H'. rewrite <- E, <- E', H, H'. reflexivity.
Qed.

Lemma obj_get_insert_index_ne (n : N) (k k0 : string) (v : value) (o : jsobject) :
  k0 <> k -> obj_get k0 (obj_insert_index n k v o) = obj_get k0 o.
Proof.
  intros Hne. induction o as [|[k' v'] o IH].
  - cbn. destruct (String.eqb_spec k k0); [congruence|reflexivity].
  - cbn [obj_insert_index].
    destruct (array_index k') as [n'|].
    + destruct (n' <? n)%N.
      * cbn [obj_get]. now rewrite IH.
      * cbn [obj_get]. destruct (String.eqb_spec k k0); [congruence|reflexivity].
    + cbn [obj_get]. destruct (String.eqb_spec k k0); [congruence|reflexivity].
Qed.

Lemma obj_get_insert_index_eq (n : N) (k : string) (v : value) (o : jsobject) :
  array_index k = Some n -> obj_get k (obj_insert_index n k v o) = Some v.
Proof.
  intros Hk. induction o as [|[k' v'] o IH].
  - cbn. now rewrite String.eqb_refl.
  - cbn [obj_insert_index].
    destruct (array_index k') as [n'|] eqn:Hk'.
    + destruct (N.ltb_spec n' n) as [Hlt|Hge].
      * cbn [obj_get]. destruct (String.eqb_spec k' k) as [->|]; [|exact IH].
        rewrite Hk in Hk'. injection Hk' as ->. lia.
      * cbn [obj_get]. now rewrite String.eqb_refl.
    + cbn [obj_get]. now rewrite String.eqb_refl.
Qed.

Lemma obj_get_app (k : string) (o o' : jsobject) :
  obj_get k (o ++ o') = match obj_get k o with
                        | Some v => Some v
                        | None => obj_get k o'
                        end.
Proof.
  induction o as [|[k' v'] o IH]; [reflexivity|].
  cbn [app obj_get]. destruct (String.eqb k' k); [reflexivity|exact IH].
Qed.

(** Reading a property that was just assigned. *)
Lemma obj_get_set_eq (k : string) (v : value) (o : jsobject) :
  obj_get k (obj_set k v o) = Some v.
Proof.
  unfold obj_set. destruct (has_key k o) eqn:Hk.
  - now apply obj_get_replace_eq.
  - destruct (array_index k) as [n|] eqn:Hi.
    + now apply obj_get_insert_index_eq.
    + rewrite obj_get_app. unfold has_key in Hk.
      destruct (obj_get k o); [discriminate|].
      cbn. now rewrite String.eqb_refl.
Qed.

(** Assigning a property leaves the others as they are. *)
Lemma obj_get_set_ne (k k0 : string) (v : value) (o : jsobject) :
  k0 <> k -> obj_get k0 (obj_set k v o) = obj_get k0 o.
Proof.
  intros Hne. unfold obj_set. destruct (has_key k o).
  - now apply obj_get_replace_ne.
  - destruct (array_index k) as [n|].
    + now apply obj_get_insert_index_ne.
    + rewrite obj_get_app. destruct (obj_get k0 o); [reflexivity|].
      cbn. destruct (String.eqb_spec k k0); [congruence|reflexivity].
Qed.

Lemma has_key_false_In (k : string) (o : jsobject) :
  has_key k o = false <-> ~ In k (map fst o).
Proof.
  unfold has_key. induction o as [|[k' v'] o IH]; [cbn; tauto|].
  cbn [obj_get map fst In]. destruct (String.eqb_spec k' k) as [->|Hne].
  - split; [discriminate|]. intros H. exfalso. apply H. now left.
  - rewrite IH. tauto.
Qed.

(** Spreading [source] leaves a property that [source] lacks as it is. *)
Lemma obj_get_assign_other (k : string) (source target : jsobject) :
  has_key k source = false ->
  obj_get k (obj_assign target source) = obj_get k target.
Proof.
  unfold obj_assign. revert target.
  induction source as [|[k' v'] source IH]; intros target Hk; [reflexivity|].
  apply has_key_false_In in Hk. cbn [map fst In] in Hk.
  cbn [fold_left fst snd]. rewrite IH.
  - apply obj_get_set_ne. intros ->. tauto.
  - apply has_key_false_In. tauto.
Qed.

(** Where the properties of an assigned object come from. *)
Lemma In_obj_replace (k k0 : string) (v v0 : value) (o : jsobject) :
  In (k0, v0) (obj_replace k v o) -> (k0 = k /\ v0 = v) \/ In (k0, v0) o.
Proof.
  induction o as [|[k' v'] o IH]; [cbn; tauto|].
  cbn [obj_replace]. destruct (String.eqb k' k); cbn [In].
  - intros [H|H]; [left; now inversion H|right; now right].
  - intros [H|H]; [right; now left|]. destruct (IH H); [now left|right; now right].
Qed.

Lemma In_obj_insert_index (n : N) (k k0 : string) (v v0 : value) (o : jsobject) :
  In (k0, v0) (obj_insert_index n k v o) -> (k0 = k /\ v0 = v) \/ In (k0, v0) o.
Proof.
  induction o as [|[k' v'] o IH].
  - cbn. intros [H|[]]. left. now inversion H.
  - cbn [obj_insert_index]. destruct (array_index k') as [n'|].
    + destruct (n' <? n)%N; cbn [In].
      * intros [H|H]; [right; now left|]. destruct (IH H); [now left|right; now right].
      * intros [H|H]; [left; now inversion H|now right].
    + cbn [In]. intros [H|H]; [left; now inversion H|now right].
Qed.

Lemma In_obj_set (k k0 : string) (v v0 : value) (o : jsobject) :
  In (k0, v0) (obj_set k v o) -> (k0 = k /\ v0 = v) \/ In (k0, v0) o.
Proof.
  unfold obj_set. destruct (has_key k o).
  - apply In_obj_replace.
  - destruct (array_index k) as [n|].
    + apply In_obj_insert_index.
    + rewrite in_app_iff. cbn. intros [H|[H|[]]]; [now right|left; now inversion H].
Qed.

Lemma In_obj_assign (k0 : string) (v0 : value) (source target : jsobject) :
  In (k0, v0) (obj_assign target source) -> In (k0, v0) target \/ In (k0, v0) source.
Proof.
  unfold obj_assign. revert target.
  induction source as [|[k v] source IH]; intros target; [cbn; tauto|].
  cbn [fold_left fst snd]. intros H. destruct (IH _ H) as [H'|H'].
  - destruct (In_obj_set _ _ _ _ _ H') as [[-> ->]|H'']; [right; now left|now left].
  - right. now right.
Qed.

(* ================================================================= *)
(** ** The value layer: what [JSON.parse] rebuilds *)

Lemma to_json_none (v : value) : to_json v = None <-> v = VUndefined.
Proof. destruct v as [| | | [] | | |]; cbn; split; congruence. Qed.

Lemma wf_keys_precede (A : list string) (k : string) (K : list string) :
  wf_keys (A ++ k :: K) = true -> Forall (fun k' => precedes k' k = true) A.
Proof.
  induction A as [|a A IH]; [constructor|].
  cbn [app wf_keys]. intros H. apply andb_true_iff in H as [Ha HA].
  constructor; [|now apply IH].
  rewrite forallb_app in Ha. apply andb_true_iff in Ha as [_ Ha].
  cbn [forallb] in Ha. now apply andb_true_iff in Ha as [Ha _].
Qed.

Lemma precedes_ne (k' k : string) : precedes k' k = true -> k' <> k.
Proof.
  unfold precedes. intros H. apply andb_true_iff in H as [H _].
  apply negb_true_iff in H. now apply String.eqb_neq.
Qed.

(** Creating a property that may come last puts it last. *)
Lemma obj_set_last (k : string) (v : value) (o : jsobject) :
  Forall (fun k' => precedes k' k = true) (map fst o) ->
  obj_set k v o = o ++ [(k, v)].
Proof.
  intros Hall. unfold obj_set.
  assert (Hk : has_key k o = false).
  { apply has_key_false_In. intros Hin.
    rewrite List.Forall_forall in Hall. apply Hall in Hin. now apply precedes_ne in Hin. }
  rewrite Hk. destruct (array_index k) as [n|] eqn:Hi; [|reflexivity].
  clear Hk. induction o as [|[k' v'] o IH]; [reflexivity|].
  cbn [map fst] in Hall. apply Forall_cons in Hall as [Hk' Hall].
  cbn [obj_insert_index app]. unfold precedes in Hk'. rewrite Hi in Hk'.
  apply andb_true_iff in Hk' as [_ Hk'].
  destruct (array_index k') as [n'|]; [|discriminate].
  rewrite Hk'. now rewrite IH.
Qed.

(** Assigning the properties of a well-formed object one after the
    other rebuilds it in its order. *)
Lemma fold_obj_set_wf (g : json -> value) (ms : list (string * json)) :
  forall acc,
    wf_keys (map fst acc ++ map fst ms) = true ->
    fold_left (fun o kv => obj_set (fst kv) (g (snd kv)) o) ms acc
    = acc ++ map (fun kv => (fst kv, g (snd kv))) ms.
Proof.
  induction ms as [|[k j] ms IH]; intros acc Hwf.
  - cbn. now rewrite app_nil_r.
  - cbn [fold_left map fst snd] in *.
    rewrite obj_set_last by (eapply wf_keys_precede; exact Hwf).
    rewrite IH.
    + now rewrite <- app_assoc.
    + rewrite map_app, <- app_assoc. exact Hwf.
Qed.

Lemma forallb_defined_members (P : string -> bool) (f : value -> value)
    (ps : list (string * value)) :
  forallb P (map fst ps) = true -> forallb P (map fst (defined_members f ps)) = true.
Proof.
  induction ps as [|[k x] ps IH]; [reflexivity|].
  cbn [map fst forallb]. intros H. apply andb_true_iff in H as [Hk Hps].
  destruct x; cbn [defined_members map fst forallb]; rewrite ?Hk; auto.
Qed.

Lemma wf_keys_defined_members (f : value -> value) (ps : list (string * value)) :
  wf_keys (map fst ps) = true -> wf_keys (map fst (defined_members f ps)) = true.
Proof.
  induction ps as [|[k x] ps IH]; [reflexivity|].
  cbn [map fst wf_keys]. intros H. apply andb_true_iff in H as [Hk Hps].
  destruct x; cbn [defined_members map fst wf_keys]; auto;
    (apply andb_true_iff; split; [now apply forallb_defined_members|auto]).
Qed.

(** On a value that JSON can carry, serializing and rebuilding only
    removes the properties that hold [undefined]. *)
Lemma of_json_to_json (v : value) :
  json_clean v = true -> wf_value v = true ->
  exists j, to_json v = Some j /\ of_json j = prune v.
Proof.
  induction v as [| | b | n | s | xs IH | ps IH] using value_ind; intros Hc Hw.
  - discriminate.
  - eexists; split; reflexivity.
  - eexists; split; reflexivity.
  - destruct n; try discriminate. eexists; split; reflexivity.
  - eexists; split; reflexivity.
  - exists (JArr (ser_elements to_json xs)). split; [reflexivity|].
    change (VArr (map of_json (ser_elements to_json xs)) = VArr (map prune xs)).
    f_equal.
    change (forallb json_clean xs = true) in Hc.
    change (forallb wf_value xs = true) in Hw.
    induction IH as [|x xs Hx Hxs IHxs]; [reflexivity|].
    cbn [forallb] in Hc, Hw.
    apply andb_true_iff in Hc as [Hc1 Hc2]. apply andb_true_iff in Hw as [Hw1 Hw2].
    cbn [ser_elements map]. destruct (Hx Hc1 Hw1) as (j & -> & <-).
    cbn [default]. f_equal. now apply IHxs.
  - exists (JObj (ser_members to_json ps)). split; [reflexivity|].
    change (VObj (fold_left (fun o kv => obj_set (fst kv) (of_json (snd kv)) o)
                    (ser_members to_json ps) [])
            = VObj (defined_members prune ps)).
    f_equal.
    change (forallb (fun kv => is_undefined (snd kv) || json_clean (snd kv)) ps = true) in Hc.
    change (wf_keys (map fst ps) && forallb (fun kv => wf_value (snd kv)) ps = true) in Hw.
    apply andb_true_iff in Hw as [Hk Hw].
    assert (Hmembers :
      map (fun kv => (fst kv, of_json (snd kv))) (ser_members to_json ps)
      = defined_members prune ps).
    { clear Hk. induction IH as [|[k x] ps Hx Hps IHps]; [reflexivity|].
      cbn [forallb fst snd] in Hc, Hw.
      apply andb_true_iff in Hc as [Hc1 Hc2]. apply andb_true_iff in Hw as [Hw1 Hw2].
      cbn [snd] in Hx. cbn [ser_members].
      destruct x; try (cbn [to_json defined_members map fst snd]; f_equal; now apply IHps).
      - destruct n; try discriminate.
        cbn [to_json defined_members map fst snd]. f_equal. now apply IHps.
      - destruct (Hx Hc1 Hw1) as (j & Ej & Ep). rewrite Ej.
        cbn [defined_members map fst snd]. rewrite Ep. f_equal. now apply IHps.
      - destruct (Hx Hc1 Hw1) as (j & Ej & Ep). rewrite Ej.
        cbn [defined_members map fst snd]. rewrite Ep. f_equal. now apply IHps. }
    rewrite fold_obj_set_wf.
    + cbn [app]. exact Hmembers.
    + cbn [map app].
      replace (map fst (ser_members to_json ps)) with (map fst (defined_members prune ps)).
      * now apply wf_keys_defined_members.
      * rewrite <- Hmembers, map_map. reflexivity.
Qed.

Lemma defined_members_cons (f : value -> value) (k : string) (x : value)
    (l : list (string * value)) :
  defined_members f ((k, x) :: l)
  = if is_undefined x then defined_members f l else (k, f x) :: defined_members f l.
Proof. destruct x; reflexivity. Qed.

Lemma is_undefined_prune (x : value) : is_undefined (prune x) = is_undefined x.
Proof. destruct x; reflexivity. Qed.

(** Removing the properties that hold [undefined] keeps the canonical form. *)
Lemma canon_prune (v : value) : canon (prune v) = canon v.
Proof.
  induction v as [| | b | n | s | xs IH | ps IH] using value_ind; try reflexivity.
  - change (VArr (map canon (map prune xs)) = VArr (map canon xs)).
    f_equal. rewrite map_map.
    induction IH as [|x xs Hx Hxs IHxs]; [reflexivity|].
    cbn [map]. now rewrite Hx, IHxs.
  - change (VObj (sort_members (defined_members canon (defined_members prune ps)))
            = VObj (sort_members (defined_members canon ps))).
    f_equal. f_equal.
    induction IH as [|[k x] ps Hx Hps IHps]; [reflexivity|].
    cbn [snd] in Hx. rewrite !defined_members_cons.
    destruct (is_undefined x) eqn:Hu; [exact IHps|].
    rewrite defined_members_cons, is_undefined_prune, Hu, Hx, IHps. reflexivity.
Qed.

Lemma struct_eq_prune (v : value) : struct_eq v (prune v).
Proof. unfold struct_eq. now rewrite canon_prune. Qed.

(** *** Absence from the serialized JSON *)

Lemma JSON_stringify_object (doc : jsobject) :
  JSON_stringify (VObj doc) = Some (render 0 (JObj (ser_members to_json doc))).
Proof. reflexivity. Qed.

Lemma serialized_eq (doc : jsobject) :
  serialized doc = render 0 (JObj (ser_members to_json doc)) +:+ nl.
Proof. reflexivity. Qed.

(** What [JSON.parse] makes of the serialized document. *)
Lemma JSON_parse_serialized (doc : jsobject) :
  JSON_parse (serialized doc) = Some (of_json (JObj (ser_members to_json doc))).
Proof. rewrite serialized_eq. apply JSON_parse_render_nl. Qed.

Lemma obj_get_fold_none (g : json -> value) (k : string) (ms : list (string * json)) :
  forall acc,
    obj_get k acc = None -> ~ In k (map fst ms) ->
    obj_get k (fold_left (fun o kv => obj_set (fst kv) (g (snd kv)) o) ms acc) = None.
Proof.
  induction ms as [|[k' j] ms IH]; intros acc Hacc Hk; [exact Hacc|].
  cbn [fold_left fst snd]. cbn [map fst In] in Hk. apply IH; [|tauto].
  rewrite obj_get_set_ne; [exact Hacc|]. intros ->. tauto.
Qed.

Lemma ser_members_keys (k : string) (doc : jsobject) :
  (forall v, In (k, v) doc -> v = VUndefined) ->
  ~ In k (map fst (ser_members to_json doc)).
Proof.
  induction doc as [|[k' x] doc IH]; intros Hall; [cbn; tauto|].
  cbn [ser_members]. destruct (to_json x) as [j|] eqn:E.
  - cbn [map fst In]. intros [->|Hin].
    + assert (x = VUndefined) as -> by (apply Hall; now left). discriminate.
    + revert Hin. apply IH. intros v Hv. apply Hall. now right.
  - apply IH. intros v Hv. apply Hall. now right.
Qed.

(** A key whose every occurrence in the document holds [undefined] is
    absent from the serialized JSON. *)
Lemma absent_when_undefined (k : string) (doc : jsobject) :
  (forall v, In (k, v) doc -> v = VUndefined) -> absent_from_json k doc.
Proof.
  intros Hall. eexists. split; [apply JSON_parse_serialized|].
  apply obj_get_fold_none; [reflexivity|]. now apply ser_members_keys.
Qed.

(* ================================================================= *)
(** ** The builder *)

(** Copying the assembled object into a fresh one changes nothing. *)
Lemma spread_assembled (o : ManifestOptions) (env : Env) :
  obj_assign [] (assembled o env) = assembled o env.
Proof. unfold assembled. destruct (includesBuildMeta o); reflexivity. Qed.

Lemma buildManifest_plain (o : ManifestOptions) (env : Env) (mode : Mode) :
  opt_transform o = None ->
  buildManifest o env mode = Ok (obj_assign (assembled o env) (default [] (opt_extra o))).
Proof.
  intros Ht. unfold buildManifest, mergedManifest. now rewrite Ht, spread_assembled.
Qed.

(** A field that [extra] does not define reads as assembled. *)
Lemma merged_get (o : ManifestOptions) (env : Env) (k : string) :
  has_key k (default [] (opt_extra o)) = false ->
  obj_get k (mergedManifest o env) = obj_get k (assembled o env).
Proof.
  intros Hk. unfold mergedManifest. rewrite spread_assembled.
  now apply obj_get_assign_other.
Qed.

Lemma merged_In (o : ManifestOptions) (env : Env) (k : string) (v : value) :
  has_key k (default [] (opt_extra o)) = false ->
  In (k, v) (mergedManifest o env) -> In (k, v) (assembled o env).
Proof.
  intros Hk Hin. unfold mergedManifest in Hin. rewrite spread_assembled in Hin.
  apply In_obj_assign in Hin as [Hin|Hin]; [exact Hin|].
  apply has_key_false_In in Hk. exfalso. apply Hk.
  change k with (fst (k, v)). now apply in_map.
Qed.

(* ================================================================= *)
(** ** C3: the leading slash *)

Lemma startsWith_slash (s : string) :
  startsWith "/" s = true <-> exists s', s = String "/"%char s'.
Proof.
  unfold startsWith. destruct s as [|c s]; cbn [String.prefix].
  - split; [discriminate|]. intros (s' & H). discriminate.
  - destruct (Ascii.ascii_dec "/"%char c) as [<-|Hne].
    + destruct s; split; eauto.
    + split; [discriminate|]. intros (s' & H). congruence.
Qed.

Lemma ensureLeadingSlash_starts (s : string) :
  startsWith "/" (ensureLeadingSlash s) = true.
Proof.
  unfold ensureLeadingSlash. destruct (startsWith "/" s) eqn:E; [exact E|].
  apply startsWith_slash. eexists. reflexivity.
Qed.

Lemma ensureLeadingSlash_idempotent (s : string) :
  ensureLeadingSlash (ensureLeadingSlash s) = ensureLeadingSlash s.
Proof.
  unfold ensureLeadingSlash at 1. now rewrite ensureLeadingSlash_starts.
Qed.

Lemma filter_unseen_In (l : list ManifestIcon) :
  forall seen i, In i (filter_unseen seen l) -> In i l.
Proof.
  induction l as [|x l IH]; intros seen i; [cbn; tauto|].
  cbn [filter_unseen]. destruct (decide (icon_key x ∈ seen)).
  - intros H. right. eapply IH, H.
  - cbn [In]. intros [H|H]; [now left|right; eapply IH, H].
Qed.


(* ================================================================= *)
(** ** C4 and C10: the icon list when it is absent and when it is empty *)

Lemma assembled_icons (o : ManifestOptions) (env : Env) :
  obj_get "icons" (assembled o env)
  = Some (VArr (map icon_value (normalizeIcons (opt_icons o)))).
Proof. unfold assembled. destruct (includesBuildMeta o); reflexivity. Qed.

Lemma normalizeIcons_default : normalizeIcons None = defaultIcons.
Proof. vm_compute. reflexivity. Qed.

(** C4, as the spec states it, fails: the [extra] map replaces the icon
    list of a configuration that has no [icons], and a transform may
    drop it. *)
Lemma default_icons_counterexample :
  (let o := options_with None (Some [("icons", VArr [])]) None None in
   opt_icons o = None
   /\ exists doc, buildManifest o bare_env production = Ok doc
                  /\ obj_get "icons" doc = Some (VArr [])
                  /\ obj_get "icons" doc <> Some default_pair)
  /\ (let o := options_with None None None (Some (fun _ _ => Ok [])) in
      opt_icons o = None
      /\ exists doc, buildManifest o bare_env production = Ok doc
                     /\ obj_get "icons" doc = None).
Proof.
  split.
  - split; [reflexivity|]. eexists. split; [reflexivity|]. split; [reflexivity|].
    vm_compute. discriminate.
  - split; [reflexivity|]. eexists. split; reflexivity.
Qed.

(** C4, amended.  For every configuration without [icons], without a
    transform and whose [extra] map has no [icons] key, the icon list of
    the generated manifest is exactly the built-in pair: the 192x192 icon
    then the 512x512 icon, both of purpose "any maskable", both under
    "/icons/". *)
Theorem default_icons_when_absent (o : ManifestOptions) (env : Env) (mode : Mode) :
  opt_icons o = None ->
  opt_transform o = None ->
  has_key "icons" (default [] (opt_extra o)) = false ->
  exists doc, buildManifest o env mode = Ok doc
              /\ obj_get "icons" doc = Some default_pair.
Proof.
  intros Hi Ht He. eexists. split.
  - unfold buildManifest. rewrite Ht. reflexivity.
  - rewrite (merged_get o env "icons" He), assembled_icons, Hi, normalizeIcons_default.
    reflexivity.
Qed.

Lemma default_icons_when_absent_witness :
  exists doc, buildManifest no_options git_env production = Ok doc
              /\ obj_get "icons" doc = Some default_pair.
Proof.
  apply (default_icons_when_absent no_options git_env production); reflexivity.
Defined.

Lemma hasMaskableIcon_typed (l : list ManifestIcon) :
  hasMaskableIcon (VArr (map icon_value l))
  = Ok (existsb (fun i => includes "maskable"
                            (from_option purpose_string EmptyString (icon_purpose i))) l).
Proof.
  cbn [hasMaskableIcon]. induction l as [|i l IH]; [reflexivity|].
  cbn [map some_maskable existsb]. rewrite IH.
  destruct i as [s z [t|] [[]|]]; reflexivity.
Qed.

(** Without a transform and without an [icons] key in [extra], nothing
    throws: [serialize] returns the serialization of the merged object. *)
Lemma serialize_returns (o : ManifestOptions) (env : Env) (mode : Mode) :
  opt_transform o = None ->
  has_key "icons" (default [] (opt_extra o)) = false ->
  exists calls,
    serialize o env mode = Ok (serialized (mergedManifest o env), calls).
Proof.
  intros Ht He. unfold serialize, buildManifest. rewrite Ht. cbn [bind].
  rewrite (merged_get o env "icons" He), assembled_icons. cbn [default from_option id].
  rewrite hasMaskableIcon_typed. cbn [bind]. eexists. reflexivity.
Qed.

(** C10, as stated, fails: with [icons: []] the [extra] map still
    decides the icon list, and then no warning is made; so does a
    transform. *)
Lemma empty_icons_counterexample :
  (let o := options_with (Some []) (Some [("icons", default_pair)]) None None in
   opt_icons o = Some []
   /\ exists doc payload,
        buildManifest o bare_env development = Ok doc
        /\ obj_get "icons" doc <> Some (VArr [])
        /\ serialize o bare_env development = Ok (payload, []))
  /\ (let o := options_with (Some []) None None
                 (Some (fun json _ => Ok (obj_set "icons" default_pair json))) in
      opt_icons o = Some []
      /\ exists doc payload,
           buildManifest o bare_env development = Ok doc
           /\ obj_get "icons" doc = Some default_pair
           /\ serialize o bare_env development = Ok (payload, [])).
Proof.
  split.
  - split; [reflexivity|]. eexists. eexists.
    split; [reflexivity|]. split; [vm_compute; discriminate|]. vm_compute. reflexivity.
  - split; [reflexivity|]. eexists. eexists.
    split; [reflexivity|]. split; [reflexivity|]. vm_compute. reflexivity.
Qed.

(** C10, amended.  For every configuration whose [icons] is the empty
    list, without a transform and whose [extra] map has no [icons] key,
    the icon list of the generated manifest is empty (the built-in pair is
    not substituted), and [serialize] makes the no-maskable-icon warning
    and returns the serialization of that same document. *)
Theorem empty_icons_stay_empty (o : ManifestOptions) (env : Env) (mode : Mode) :
  opt_icons o = Some [] ->
  opt_transform o = None ->
  has_key "icons" (default [] (opt_extra o)) = false ->
  exists doc, buildManifest o env mode = Ok doc
              /\ obj_get "icons" doc = Some (VArr [])
              /\ serialize o env mode = Ok (serialized doc, [no_maskable_warning]).
Proof.
  intros Hi Ht He.
  assert (Hicons : obj_get "icons" (mergedManifest o env) = Some (VArr [])).
  { rewrite (merged_get o env "icons" He), assembled_icons, Hi. reflexivity. }
  exists (mergedManifest o env). split; [|split].
  - unfold buildManifest. now rewrite Ht.
  - exact Hicons.
  - unfold serialize, buildManifest. rewrite Ht. cbn [bind]. rewrite Hicons. reflexivity.
Qed.

Lemma empty_icons_stay_empty_witness :
  exists doc, buildManifest (options_with (Some []) None None None) bare_env development
                = Ok doc
              /\ obj_get "icons" doc = Some (VArr [])
              /\ serialize (options_with (Some []) None None None) bare_env development
                 = Ok (serialized doc, [no_maskable_warning]).
Proof.
  apply (empty_icons_stay_empty (options_with (Some []) None None None)
           bare_env development); reflexivity.
Defined.

(* ================================================================= *)
(** ** C1: the default-assembly contract *)

Lemma assembled_defaulted (o : ManifestOptions) (env : Env) (k : string) (v : value) :
  In (k, v) (defaulted_fields o) -> obj_get k (assembled o env) = Some v.
Proof.
  unfold defaulted_fields. cbn [In]. unfold assembled, baseManifest.
  intros H. repeat destruct H as [H|H]; try contradiction; injection H as <- <-;
    destruct (includesBuildMeta o);
    repeat match goal with
           | |- context [match ?x with Some _ => _ | None => _ end] => destruct x
           end;
    reflexivity.
Qed.

Lemma obj_get_In (k : string) (v : value) (l : jsobject) :
  NoDup (map fst l) -> In (k, v) l -> obj_get k l = Some v.
Proof.
  induction l as [|[k' v'] l IH]; [intros _ []|].
  cbn [map fst]. intros Hnd. apply NoDup_cons in Hnd as [Hk' Hnd].
  cbn [In obj_get]. intros [H|H].
  - injection H as -> ->. now rewrite String.eqb_refl.
  - destruct (String.eqb_spec k' k) as [->|]; [|now apply IH].
    exfalso. apply Hk'. apply list_elem_of_In.
    change k with (fst (k, v)). now apply in_map.
Qed.

Lemma assembled_keys (o : ManifestOptions) (env : Env) :
  map fst (assembled o env)
  = [ "lang"; "dir"; "name"; "short_name"; "description"; "start_url"; "scope"; "id";
      "display"; "orientation"; "background_color"; "theme_color"; "categories";
      "prefer_related_applications"; "related_applications"; "protocol_handlers";
      "icons"; "screenshots" ]
    ++ (if includesBuildMeta o then build_meta_keys else []).
Proof. unfold assembled. destruct (includesBuildMeta o); reflexivity. Qed.

Lemma assembled_NoDup (o : ManifestOptions) (env : Env) :
  NoDup (map fst (assembled o env)).
Proof.
  rewrite assembled_keys.
  destruct (includesBuildMeta o); apply (bool_decide_unpack _); vm_compute; reflexivity.
Qed.

Lemma assembled_optional_get (o : ManifestOptions) (env : Env) :
  obj_get "description" (assembled o env) = Some (or_undefined VStr (opt_description o))
  /\ obj_get "orientation" (assembled o env)
     = Some (or_undefined (fun x => VStr (orientation_string x)) (opt_orientation o))
  /\ obj_get "categories" (assembled o env)
     = Some (or_undefined (fun l => VArr (map VStr l)) (opt_categories o))
  /\ obj_get "prefer_related_applications" (assembled o env)
     = Some (or_undefined VBool (opt_prefer_related_applications o))
  /\ obj_get "related_applications" (assembled o env)
     = Some (or_undefined (fun l => VArr (map related_application_value l))
               (opt_related_applications o))
  /\ obj_get "protocol_handlers" (assembled o env)
     = Some (or_undefined (fun l => VArr (map protocol_handler_value l))
               (opt_protocol_handlers o))
  /\ obj_get "screenshots" (assembled o env)
     = Some (or_undefined (fun l => VArr (map screenshot_value l)) (opt_screenshots o)).
Proof. unfold assembled. destruct (includesBuildMeta o); repeat split; reflexivity. Qed.

Lemma assembled_optional (o : ManifestOptions) (env : Env) (k : string) (v : value) :
  In (k, false) (optional_fields o) -> In (k, v) (assembled o env) -> v = VUndefined.
Proof.
  intros Hk Hin. apply obj_get_In in Hin; [|apply assembled_NoDup].
  destruct (assembled_optional_get o env) as (H1 & H2 & H3 & H4 & H5 & H6 & H7).
  revert Hk. unfold optional_fields, supplied. cbn [In].
  intros H. repeat destruct H as [H|H]; try contradiction; injection H as <- H;
    match goal with
    | H : match ?x with Some _ => true | None => false end = false |- _ =>
        destruct x; [discriminate|]
    end; cbn [or_undefined from_option] in *; congruence.
Qed.

(** C1, as the spec states it, fails on the [extra] map, which
    overwrites a defaulted field and supplies [null] for a field that the
    configuration leaves out, and on a transform, whose result is bound by
    nothing. *)
Lemma default_assembly_counterexample :
  (let o := options_with None (Some [("lang", VStr "fr"); ("description", VNull)])
              None None in
   exists doc,
     buildManifest o bare_env production = Ok doc
     /\ obj_get "lang" doc = Some (VStr "fr")
     /\ (exists parsed, JSON_parse (serialized doc) = Some (VObj parsed)
                        /\ obj_get "description" parsed = Some VNull)
     /\ ~ default_assembly_contract o doc)
  /\ (let o := options_with None None None (Some (fun _ _ => Ok [])) in
      exists doc,
        buildManifest o bare_env production = Ok doc
        /\ obj_get "lang" doc = None
        /\ ~ default_assembly_contract o doc).
Proof.
  split.
  - eexists. split; [reflexivity|]. split; [reflexivity|]. split.
    + eexists. split; [vm_compute; reflexivity|reflexivity].
    + intros [Hd _]. specialize (Hd "lang" (VStr "en") ltac:(now left) eq_refl).
      vm_compute in Hd. discriminate.
  - eexists. split; [reflexivity|]. split; [reflexivity|].
    intros [Hd _]. specialize (Hd "lang" (VStr "en") ltac:(now left) eq_refl).
    discriminate.
Qed.

(** C1, amended.  For every configuration without a transform and every
    mode, the builder produces a document in which every field of the
    contract that the [extra] map does not define is as the contract
    says: [lang], [dir], [name], [short_name], [display] and
    [theme_color] hold the configured value or "en", "ltr", "My App",
    "App", "standalone", "#0a131b"; [background_color] holds the
    configured value or else what [theme_color] holds; and each of
    [description], [orientation], [categories],
    [prefer_related_applications], [related_applications],
    [protocol_handlers], [screenshots] that the configuration does not
    supply is absent from the serialized JSON. *)
Theorem default_assembly (o : ManifestOptions) (env : Env) (mode : Mode) :
  opt_transform o = None ->
  exists doc,
    buildManifest o env mode = Ok doc
    /\ default_assembly_contract_outside (default [] (opt_extra o)) o doc.
Proof.
  intros Ht. exists (mergedManifest o env). split.
  - unfold buildManifest. now rewrite Ht.
  - split.
    + intros k v Hin Hk. rewrite (merged_get o env k Hk).
      now apply assembled_defaulted.
    + intros k Hin Hk. apply absent_when_undefined. intros v Hv.
      apply (merged_In o env k v Hk) in Hv. now apply (assembled_optional o env k v).
Qed.

Lemma default_assembly_witness :
  exists doc,
    buildManifest no_options git_env production = Ok doc
    /\ default_assembly_contract_outside [] no_options doc.
Proof. apply (default_assembly no_options git_env production). reflexivity. Defined.

(* ================================================================= *)
(** ** C5: build metadata *)

Lemma includesBuildMeta_iff (o : ManifestOptions) :
  includesBuildMeta o = true <-> opt_includeBuildMeta o <> Some false.
Proof.
  unfold includesBuildMeta. destruct (opt_includeBuildMeta o) as [[]|];
    split; congruence.
Qed.

Lemma assembled_without_meta (o : ManifestOptions) (env : Env) (k : string) :
  opt_includeBuildMeta o = Some false -> In k build_meta_keys ->
  obj_get k (assembled o env) = None.
Proof.
  intros Hf Hk. unfold assembled, includesBuildMeta. rewrite Hf.
  cbn [In build_meta_keys] in Hk.
  repeat destruct Hk as [Hk|Hk]; try contradiction; subst k; reflexivity.
Qed.

(** C5.  Unless [includeBuildMeta] is [false], the builder attaches
    [pkgVersion] (the version of the package metadata, [undefined] when
    that lookup fails), [version] (the first version-control lookup that
    answers, in the order exact tag, nearest tag, short hash; else
    [pkgVersion]; else [undefined]) and [buildTime]; the version-control
    answer wins over [pkgVersion] when there are both.  When
    [includeBuildMeta] is [false], the [extra] map has none of the three
    keys and the transform, if any, adds none of them, the output has
    none of them. *)
Theorem build_meta (o : ManifestOptions) (env : Env) (mode : Mode) :
  (opt_includeBuildMeta o <> Some false ->
     obj_get "pkgVersion" (assembled o env)
       = Some match readPkgVersion env with Some p => VStr p | None => VUndefined end
     /\ obj_get "version" (assembled o env)
       = Some match runCommand env "git describe --tags --exact-match" with
              | Some v => VStr v
              | None =>
                  match runCommand env "git describe --tags --always" with
                  | Some v => VStr v
                  | None =>
                      match runCommand env "git rev-parse --short HEAD" with
                      | Some v => VStr v
                      | None =>
                          match readPkgVersion env with
                          | Some p => VStr p
                          | None => VUndefined
                          end
                      end
                  end
              end
     /\ obj_get "buildTime" (assembled o env) = Some (VStr (env_now env))
     /\ (forall v p, gitShort env = Some v -> readPkgVersion env = Some p ->
           obj_get "version" (assembled o env) = Some (VStr v))
     /\ (forall k, In k build_meta_keys ->
           opt_transform o = None ->
           has_key k (default [] (opt_extra o)) = false ->
           exists doc, buildManifest o env mode = Ok doc
                       /\ obj_get k doc = obj_get k (assembled o env)))
  /\ (opt_includeBuildMeta o = Some false ->
      (forall k, In k build_meta_keys -> has_key k (default [] (opt_extra o)) = false) ->
      (forall t, opt_transform o = Some t -> adds_none_of build_meta_keys t) ->
      forall doc k,
        buildManifest o env mode = Ok doc -> In k build_meta_keys ->
        has_key k doc = false).
Proof.
  split.
  - intros Hm. apply includesBuildMeta_iff in Hm.
    assert (Hv : obj_get "version" (assembled o env)
                 = Some (or_undefined VStr (or_else (gitShort env) (readPkgVersion env)))).
    { unfold assembled. rewrite Hm. reflexivity. }
    split; [|split; [|split; [|split]]].
    + unfold assembled. rewrite Hm. destruct (readPkgVersion env) eqn:E;
        (transitivity (Some (or_undefined VStr (readPkgVersion env)));
         [reflexivity|now rewrite E]).
    + rewrite Hv. unfold gitShort.
      destruct (runCommand env "git describe --tags --exact-match"); [reflexivity|].
      destruct (runCommand env "git describe --tags --always"); [reflexivity|].
      destruct (runCommand env "git rev-parse --short HEAD"); [reflexivity|].
      destruct (readPkgVersion env); reflexivity.
    + unfold assembled. rewrite Hm. reflexivity.
    + intros v p Hg Hp. rewrite Hv, Hg. reflexivity.
    + intros k Hk Ht He. exists (mergedManifest o env). split.
      * unfold buildManifest. now rewrite Ht.
      * now apply merged_get.
  - intros Hf He Ht doc k Hb Hk.
    assert (Hmerged : has_key k (mergedManifest o env) = false).
    { unfold has_key. rewrite (merged_get o env k (He k Hk)).
      now rewrite (assembled_without_meta o env k Hf Hk). }
    unfold buildManifest in Hb. destruct (opt_transform o) as [t|] eqn:Et.
    + exact (Ht t eq_refl _ _ _ _ Hb Hk Hmerged).
    + injection Hb as <-. exact Hmerged.
Qed.

(** Both halves at work: a tagged-less repository at version 0.1.0, then
    the same with [includeBuildMeta: false] and the example transform. *)
Lemma build_meta_witness :
  obj_get "version" (assembled no_options git_env) = Some (VStr "abc1234")
  /\ obj_get "pkgVersion" (assembled no_options git_env) = Some (VStr "0.1.0")
  /\ (forall doc,
        buildManifest (options_with None None (Some false) (Some name_X_in_development))
          git_env development = Ok doc ->
        has_key "version" doc = false).
Proof.
  split; [|split].
  - destruct (build_meta no_options git_env production) as [Hon _].
    destruct (Hon ltac:(discriminate)) as (_ & _ & _ & Hv & _).
    apply (Hv "abc1234" "0.1.0"); reflexivity.
  - destruct (build_meta no_options git_env production) as [Hon _].
    destruct (Hon ltac:(discriminate)) as (Hp & _).
    exact Hp.
  - intros doc Hdoc.
    destruct (build_meta (options_with None None (Some false) (Some name_X_in_development))
                git_env development) as [_ Hoff].
    apply (Hoff eq_refl) with (doc := doc) (k := "version").
    + intros k Hk. reflexivity.
    + intros t Ht. injection Ht as <-. intros json m json' k Hj Hk Hjson.
      destruct m; injection Hj as <-; [|exact Hjson].
      unfold has_key in *. rewrite obj_get_set_ne; [exact Hjson|].
      cbn [In build_meta_keys] in Hk. intuition congruence.
    + exact Hdoc.
    + right. now left.
Defined.


(* ================================================================= *)
(** ** C7: the dev route *)

Lemma get_assoc_set_eq (k v : string) (l : list (string * string)) :
  get_assoc k (set_assoc k v l) = Some v.
Proof.
  induction l as [|[k' v'] l IH]; cbn [set_assoc get_assoc].
  - now rewrite String.eqb_refl.
  - destruct (String.eqb_spec k' k) as [->|Hne]; cbn [get_assoc].
    + now rewrite String.eqb_refl.
    + destruct (String.eqb_spec k' k); [congruence|exact IH].
Qed.

Lemma get_assoc_set_ne (k k0 v : string) (l : list (string * string)) :
  k0 <> k -> get_assoc k0 (set_assoc k v l) = get_assoc k0 l.
Proof.
  intros Hne. induction l as [|[k' v'] l IH]; cbn [set_assoc get_assoc].
  - destruct (String.eqb_spec k k0); [congruence|reflexivity].
  - destruct (String.eqb_spec k' k) as [->|Hk]; cbn [get_assoc].
    + destruct (String.eqb_spec k k0); [congruence|reflexivity].
    + now rewrite IH.
Qed.

(** A header that was set is read back under any spelling of its name,
    and setting it leaves the headers of other names alone. *)
Lemma getHeader_set_eq (k k0 v : string) (res : Response) :
  toLowerCase k0 = toLowerCase k ->
  getHeader k0 (res_headers (setHeader k v res)) = Some v.
Proof. intros H. unfold getHeader, setHeader. cbn [res_headers]. rewrite H. apply get_assoc_set_eq. Qed.

Lemma getHeader_set_ne (k k0 v : string) (res : Response) :
  toLowerCase k0 <> toLowerCase k ->
  getHeader k0 (res_headers (setHeader k v res)) = getHeader k0 (res_headers res).
Proof. intros H. unfold getHeader, setHeader. cbn [res_headers]. now apply get_assoc_set_ne. Qed.

Lemma length_be_bytes (k : nat) (x : Z) : length (be_bytes k x) = k.
Proof. induction k as [|k IH]; cbn [be_bytes length]; congruence. Qed.

Lemma be_bytes_range (k : nat) (x : Z) :
  Forall (fun b => (0 <= b < 256)%Z) (be_bytes k x).
Proof.
  induction k as [|k IH]; cbn [be_bytes]; constructor; [|exact IH].
  change 255%Z with (Z.ones 8). rewrite Z.land_ones by lia.
  apply Z.mod_pos_bound. lia.
Qed.

Lemma sha1_length (msg : list Z) : length (sha1 msg) = 20.
Proof. unfold sha1. cbv zeta. rewrite !length_app, !length_be_bytes. reflexivity. Qed.

Lemma sha1_range (msg : list Z) : Forall (fun b => (0 <= b < 256)%Z) (sha1 msg).
Proof. unfold sha1. cbv zeta. rewrite !Forall_app. repeat split; apply be_bytes_range. Qed.

Lemma hex_length (bytes : list Z) : String.length (hex bytes) = 2 * length bytes.
Proof. induction bytes as [|b bytes IH]; cbn [hex String.length length]; lia. Qed.

Lemma hex_digit_is_hex (n : nat) : n < 16 -> is_hex_digit (hex_digit n) = true.
Proof.
  intros Hn. do 16 (destruct n as [|n]; [reflexivity|]). lia.
Qed.

Lemma hex_all_hex (bytes : list Z) :
  Forall (fun b => (0 <= b < 256)%Z) bytes -> all_hex (hex bytes) = true.
Proof.
  induction 1 as [|b bytes Hb Hbytes IH]; [reflexivity|].
  cbn [hex all_hex]. rewrite IH, !hex_digit_is_hex; [reflexivity| |].
  - change 15%Z with (Z.ones 4). rewrite Z.land_ones by lia.
    pose proof (Z.mod_pos_bound b (2 ^ 4) ltac:(lia)). lia.
  - rewrite Z.shiftr_div_pow2 by lia.
    assert (b / 2 ^ 4 < 16)%Z by (apply Z.div_lt_upper_bound; lia).
    assert (0 <= b / 2 ^ 4)%Z by (apply Z.div_pos; lia). lia.
Qed.

(** A SHA-1 digest in hexadecimal: forty digits among [0-9a-f]. *)
Lemma sha1_hex_shape (s : string) :
  String.length (sha1_hex s) = 40 /\ all_hex (sha1_hex s) = true.
Proof.
  unfold sha1_hex. split.
  - now rewrite hex_length, sha1_length.
  - apply hex_all_hex, sha1_range.
Qed.

(** What the handler leaves on a response that the server hands to it,
    when [serialize] returns. *)
Lemma devHandler_ok (o : ManifestOptions) (env : Env) (req : Request) (res : Response)
    (payload : string) (calls : list console_call) :
  serialize o env development = Ok (payload, calls) ->
  exists res',
    devHandler o env req res = Ok (res', calls)
    /\ getHeader "Content-Type" (res_headers res')
       = Some "application/manifest+json; charset=utf-8"
    /\ getHeader "Cache-Control" (res_headers res')
       = Some "no-store, no-cache, must-revalidate, max-age=0"
    /\ getHeader "Pragma" (res_headers res') = Some "no-cache"
    /\ getHeader "Expires" (res_headers res') = Some "0"
    /\ getHeader "ETag" (res_headers res') = Some (hashETag payload)
    /\ (forall name, ~ In (toLowerCase name) (map toLowerCase manifest_headers) ->
          getHeader name (res_headers res') = getHeader name (res_headers res))
    /\ res_ended res' = true
    /\ ((req_if_none_match req = Some (hashETag payload)
         /\ statusCode res' = 304 /\ res_body res' = res_body res)
        \/ (req_if_none_match req <> Some (hashETag payload)
            /\ statusCode res' = statusCode res
            /\ res_body res' = res_body res +:+ payload)).
Proof.
  intros Hs. unfold devHandler. rewrite Hs. cbn [bind]. cbv zeta.
  set (etag := hashETag payload).
  set (r1 := setHeader "Content-Type" _ res).
  set (r2 := setHeader "Cache-Control" _ r1).
  set (r3 := setHeader "Pragma" _ r2).
  set (r4 := setHeader "Expires" _ r3).
  set (r5 := setHeader "ETag" etag r4).
  assert (Hheaders :
    getHeader "Content-Type" (res_headers r5)
      = Some "application/manifest+json; charset=utf-8"
    /\ getHeader "Cache-Control" (res_headers r5)
       = Some "no-store, no-cache, must-revalidate, max-age=0"
    /\ getHeader "Pragma" (res_headers r5) = Some "no-cache"
    /\ getHeader "Expires" (res_headers r5) = Some "0"
    /\ getHeader "ETag" (res_headers r5) = Some etag).
  { subst r5 r4 r3 r2 r1. repeat split;
      repeat (first [ apply getHeader_set_eq; reflexivity
                    | rewrite getHeader_set_ne by (vm_compute; discriminate) ]). }
  destruct Hheaders as (H1 & H2 & H3 & H4 & H5).
  assert (Hother : forall name,
            ~ In (toLowerCase name) (map toLowerCase manifest_headers) ->
            getHeader name (res_headers r5) = getHeader name (res_headers res)).
  { intros name Hn. unfold manifest_headers in Hn. cbn [map In] in Hn.
    subst r5 r4 r3 r2 r1.
    rewrite !getHeader_set_ne; [reflexivity|intros E; rewrite E in Hn; tauto..]. }
  assert (Hstatus : statusCode r5 = statusCode res) by reflexivity.
  assert (Hbody : res_body r5 = res_body res) by reflexivity.
  clearbody r5. clear r1 r2 r3 r4.
  unfold end_response, setStatusCode.
  cbn [statusCode res_headers res_body res_ended default from_option id].
  destruct (req_if_none_match req) as [v|] eqn:Ereq.
  - destruct (String.eqb_spec v etag) as [->|Hne].
    + eexists. split; [reflexivity|]. cbn [statusCode res_headers res_body res_ended].
      repeat (split; [first [reflexivity | assumption]|]).
      left. split; [reflexivity|]. split; [reflexivity|].
      rewrite Hbody. apply str_app_nil_r.
    + eexists. split; [reflexivity|]. cbn [statusCode res_headers res_body res_ended].
      repeat (split; [first [reflexivity | assumption]|]).
      right. split; [congruence|]. split; [exact Hstatus|now rewrite Hbody].
  - eexists. split; [reflexivity|]. cbn [statusCode res_headers res_body res_ended].
    repeat (split; [first [reflexivity | assumption]|]).
    right. split; [discriminate|]. split; [exact Hstatus|now rewrite Hbody].
Qed.

(** C7, as stated, fails: the handler answers only when [serialize]
    returns.  With [extra: {icons: [null]}] the maskable check throws,
    and so does the handler, for a request without [If-None-Match] as
    for one with: no [200] and no [304]. *)
Lemma dev_route_counterexample :
  let o := options_with None (Some [("icons", VArr [VNull])]) None None in
  devHandler o bare_env {| req_if_none_match := None |} (response_with [])
  = Err (TypeError "Cannot read properties of undefined or null")
  /\ devHandler o bare_env {| req_if_none_match := Some "*" |} (response_with [])
     = Err (TypeError "Cannot read properties of undefined or null").
Proof. split; reflexivity. Qed.

(** C7.  For every request, on the response that the server hands over
    (not ended, nothing written yet): when [serialize] returns for
    development, the handler sets the five headers, the [ETag] being
    [W/] and, between double quotes, the forty hexadecimal digits of the
    SHA-1 of the payload; it ends the response, with status [304] and
    no body exactly when [If-None-Match] is that [ETag], and otherwise
    with the payload as body and the status code as it was ([200] unless
    it was changed before); when [serialize] throws, so does the handler.
    [serialize] returns for every configuration without a transform
    whose [extra] holds only what JSON can carry and no [icons]. *)
Theorem dev_route (o : ManifestOptions) (env : Env) (req : Request) (res : Response) :
  res_ended res = false ->
  res_body res = EmptyString ->
  match serialize o env development with
  | Ok (payload, calls) =>
      exists res' digest,
        devHandler o env req res = Ok (res', calls)
        /\ digest = sha1_hex payload
        /\ String.length digest = 40 /\ all_hex digest = true
        /\ getHeader "Content-Type" (res_headers res')
           = Some "application/manifest+json; charset=utf-8"
        /\ getHeader "Cache-Control" (res_headers res')
           = Some "no-store, no-cache, must-revalidate, max-age=0"
        /\ getHeader "Pragma" (res_headers res') = Some "no-cache"
        /\ getHeader "Expires" (res_headers res') = Some "0"
        /\ getHeader "ETag" (res_headers res')
           = Some ("W/" +:+ String dquote (digest +:+ String dquote EmptyString))
        /\ res_ended res' = true
        /\ (req_if_none_match req
              = Some ("W/" +:+ String dquote (digest +:+ String dquote EmptyString)) ->
            statusCode res' = 304 /\ res_body res' = EmptyString)
        /\ (req_if_none_match req
              <> Some ("W/" +:+ String dquote (digest +:+ String dquote EmptyString)) ->
            statusCode res' = statusCode res /\ res_body res' = payload)
  | Err e => devHandler o env req res = Err e
  end
  /\ (opt_transform o = None ->
      has_key "icons" (default [] (opt_extra o)) = false ->
      all_values carried (default [] (opt_extra o)) = true ->
      all_values wf_value (default [] (opt_extra o)) = true ->
      exists payload calls, serialize o env development = Ok (payload, calls)).
Proof.
  intros Hended Hempty. split.
  2: { intros Ht He _ _. destruct (serialize_returns o env development Ht He) as [calls H].
       eauto. }
  destruct (serialize o env development) as [[payload calls]|e] eqn:Hs.
  2: { unfold devHandler. now rewrite Hs. }
  destruct (devHandler_ok o env req res payload calls Hs)
    as (res' & H & H1 & H2 & H3 & H4 & H5 & _ & Hend & Hcases).
  destruct (sha1_hex_shape payload) as [Hlen Hhex].
  exists res', (sha1_hex payload).
  change ("W/" +:+ String dquote (sha1_hex payload +:+ String dquote EmptyString))
    with (hashETag payload).
  repeat (split; [first [reflexivity | assumption]|]).
  destruct Hcases as [(Hreq & Hstatus & Hbody)|(Hreq & Hstatus & Hbody)].
  - split; [intros _; split; [exact Hstatus|now rewrite Hbody]|].
    intros Hne. now contradiction Hne.
  - split; [intros Heq; now contradiction Hreq|].
    intros _. split; [exact Hstatus|]. now rewrite Hbody, Hempty.
Qed.

(** The route of the default configuration, asked with the current
    [ETag], and asked without one on a response whose status is 200. *)
Lemma dev_route_witness :
  (exists res,
     devHandler no_options bare_env
       {| req_if_none_match :=
            Some ("W/" +:+ String dquote ("b0a1b71d5054c630a3fbf832a932980b1555443a"
                                          +:+ String dquote EmptyString)) |}
       (response_with []) = Ok (res, [])
     /\ statusCode res = 304 /\ res_body res = EmptyString)
  /\ (exists res,
        devHandler no_options bare_env {| req_if_none_match := None |}
          (response_with []) = Ok (res, [])
        /\ statusCode res = 200
        /\ res_body res = serialized (mergedManifest no_options bare_env)).
Proof.
  assert (E : serialize no_options bare_env development
              = Ok (serialized (mergedManifest no_options bare_env), []))
    by (vm_compute; reflexivity).
  split.
  - destruct (dev_route no_options bare_env
                {| req_if_none_match :=
                     Some ("W/" +:+ String dquote ("b0a1b71d5054c630a3fbf832a932980b1555443a"
                                                   +:+ String dquote EmptyString)) |}
                (response_with []) eq_refl eq_refl) as [H _].
    rewrite E in H.
    destruct H as (res & digest & Hres & -> & _ & _ & _ & _ & _ & _ & _ & _ & H304 & _).
    exists res. split; [exact Hres|]. apply H304. vm_compute. reflexivity.
  - destruct (dev_route no_options bare_env {| req_if_none_match := None |}
                (response_with []) eq_refl eq_refl) as [H _].
    rewrite E in H.
    destruct H as (res & digest & Hres & -> & _ & _ & _ & _ & _ & _ & _ & _ & _ & H200).
    exists res. split; [exact Hres|]. apply H200. discriminate.
Defined.

(* ================================================================= *)
(** ** C8: the disk mirror *)

Lemma mkdir_below_keeps (segments : list string) :
  forall parent m m' q n,
    mkdir_below parent segments m = Ok m' -> m !! q = Some n -> m' !! q = Some n.
Proof.
  induction segments as [|s segments IH]; intros parent m m' q n Hm Hq.
  - cbn in Hm. now injection Hm as <-.
  - cbn [mkdir_below] in Hm.
    destruct (m !! (parent ++ [s])) as [[w|c r w]|] eqn:Ep.
    + eapply IH; eauto.
    + destruct segments; discriminate.
    + destruct (m !! parent) as [[[]|]|]; try discriminate.
      eapply IH; [exact Hm|].
      rewrite lookup_insert_ne; [exact Hq|]. intros <-. congruence.
Qed.

(** After [mkdir], every level of the path is a directory. *)
Lemma mkdir_below_dirs (segments : list string) :
  forall parent m m',
    mkdir_below parent segments m = Ok m' ->
    (exists w, m !! parent = Some (Dir w)) ->
    forall k, k <= length segments ->
              exists w, m' !! (parent ++ take k segments) = Some (Dir w).
Proof.
  induction segments as [|s segments IH]; intros parent m m' Hm [w Hp] k Hk.
  - cbn in Hm. injection Hm as <-. rewrite take_nil, app_nil_r. eauto.
  - destruct k as [|k].
    + rewrite take_0, app_nil_r. exists w.
      exact (mkdir_below_keeps _ _ _ _ _ _ Hm Hp).
    + cbn [mkdir_below] in Hm. cbn [length] in Hk. cbn [take].
      replace (parent ++ s :: take k segments) with ((parent ++ [s]) ++ take k segments)
        by now rewrite <- app_assoc.
      destruct (m !! (parent ++ [s])) as [[w'|c r w']|] eqn:Ep.
      * eapply IH; [exact Hm|eauto|lia].
      * destruct segments; discriminate.
      * destruct (m !! parent) as [[[]|]|]; try discriminate.
        eapply IH; [exact Hm| |lia].
        exists true. apply lookup_insert_eq.
Qed.

Lemma writes_called (c : fs_call) (fs : FS) :
  writes (called c fs) = if is_write c then c :: writes fs else writes fs.
Proof. unfold writes, called. cbn [fs_calls List.filter]. reflexivity. Qed.

Lemma mkdir_below_other (segments : list string) :
  forall parent m m' q,
    mkdir_below parent segments m = Ok m' ->
    (forall k, q <> parent ++ take k segments) ->
    m' !! q = m !! q.
Proof.
  induction segments as [|s segments IH]; intros parent m m' q Hm Hq.
  - cbn in Hm. now injection Hm as <-.
  - assert (Hq' : forall k, q <> (parent ++ [s]) ++ take k segments).
    { intros k. rewrite <- app_assoc. exact (Hq (S k)). }
    cbn [mkdir_below] in Hm.
    destruct (m !! (parent ++ [s])) as [[w|c r w]|] eqn:Ep.
    + eapply IH; eauto.
    + destruct segments; discriminate.
    + destruct (m !! parent) as [[[]|]|]; try discriminate.
      rewrite (IH _ _ _ _ Hm Hq'). apply lookup_insert_ne.
      specialize (Hq' 0). rewrite take_0, app_nil_r in Hq'. congruence.
Qed.

Lemma take_dirname (k : nat) (p : fspath) :
  k < length p -> take k (dirname p) = take k p.
Proof.
  intros Hk. unfold dirname. rewrite removelast_firstn_len.
  change (take k (take (Nat.pred (length p)) p) = take k p).
  rewrite take_take. f_equal. lia.
Qed.

Lemma dirname_not_below (k : nat) (p : fspath) :
  p <> [] -> p <> take k (dirname p).
Proof.
  intros Hp Heq. apply (f_equal length) in Heq.
  rewrite length_take in Heq. unfold dirname in Heq.
  rewrite removelast_firstn_len in Heq.
  change (length p = k `min` length (take (Nat.pred (length p)) p)) in Heq.
  rewrite length_take in Heq. destruct p; [congruence|]. cbn [length] in Heq. lia.
Qed.

(** When the pre-read gives the payload, nothing else is called. *)
Lemma writeFileIfChanged_same (p : fspath) (payload : string) (fs : FS) :
  same_content fs p payload = true ->
  writeFileIfChanged p payload fs = (Ok false, called (ReadFile p) fs).
Proof.
  unfold same_content, writeFileIfChanged, io_bind, io_try, readFile.
  cbn [fs_nodes called].
  destruct (fs_nodes fs !! p) as [[w|c [] w]|]; try discriminate.
  intros ->. reflexivity.
Qed.

(** When the pre-read fails or gives something else, [mkdir] then
    [writeFile] decide alone. *)
Lemma writeFileIfChanged_differs (p : fspath) (payload : string) (fs : FS) :
  same_content fs p payload = false ->
  writeFileIfChanged p payload fs
  = io_bind (mkdir (dirname p))
      (fun _ => io_bind (writeFile p payload) (fun _ => io_ret true))
      (called (ReadFile p) fs).
Proof.
  unfold same_content, writeFileIfChanged, io_try, readFile.
  unfold io_bind at 1. cbn [fs_nodes called].
  destruct (fs_nodes fs !! p) as [[w|c [] w]|]; try reflexivity.
  intros ->. reflexivity.
Qed.

(** What a successful write leaves behind. *)
Lemma writeFileIfChanged_wrote (p : fspath) (payload : string) (fs fs' : FS) (b : bool) :
  same_content fs p payload = false ->
  writeFileIfChanged p payload fs = (Ok b, fs') ->
  b = true
  /\ fs_calls fs' = WriteFile p payload :: Mkdir (dirname p) :: ReadFile p :: fs_calls fs
  /\ fs_nodes fs' !! p
     = Some (File payload
               match fs_nodes fs !! p with Some (File _ r _) => r | _ => true end
               true)
  /\ (forall k, k < length p -> is_directory fs' (take k p)).
Proof.
  intros Hd H. rewrite (writeFileIfChanged_differs p payload fs Hd) in H.
  unfold io_bind, mkdir in H. cbn [fs_nodes fs_calls called] in H.
  destruct (fs_nodes fs !! []) as [[w0|? ? ?]|] eqn:Eroot; try discriminate H.
  destruct (mkdir_below [] (dirname p) (fs_nodes fs)) as [m1|e] eqn:Em; [|discriminate H].
  unfold writeFile in H. cbn [fs_nodes fs_calls called] in H.
  assert (Hp : p <> []).
  { intros ->. rewrite (mkdir_below_keeps _ _ _ _ _ _ Em Eroot) in H. discriminate H. }
  assert (Hsame : m1 !! p = fs_nodes fs !! p).
  { apply (mkdir_below_other _ _ _ _ _ Em). intros k. cbn [app].
    now apply dirname_not_below. }
  assert (Hdirs : forall k, k < length p -> exists w, m1 !! take k p = Some (Dir w)).
  { intros k Hk. rewrite <- (take_dirname k p Hk).
    apply (mkdir_below_dirs _ _ _ _ Em (ex_intro _ w0 Eroot) k).
    unfold dirname. rewrite removelast_firstn_len.
    change (k <= length (take (Nat.pred (length p)) p)). rewrite length_take. lia. }
  rewrite Hsame in H.
  assert (Hfinal : forall r fs2,
    fs2 = {| fs_nodes := <[p := File payload r true]> m1;
             fs_calls := WriteFile p payload :: Mkdir (dirname p) :: ReadFile p
                         :: fs_calls fs |} ->
    fs_calls fs2 = WriteFile p payload :: Mkdir (dirname p) :: ReadFile p :: fs_calls fs
    /\ fs_nodes fs2 !! p = Some (File payload r true)
    /\ (forall k, k < length p -> is_directory fs2 (take k p))).
  { intros r fs2 ->. cbn [fs_nodes fs_calls]. split; [reflexivity|]. split.
    - apply lookup_insert_eq.
    - intros k Hk. destruct (Hdirs k Hk) as [w Hw]. exists w. cbn [fs_nodes].
      rewrite lookup_insert_ne; [exact Hw|].
      intros Heq. apply (f_equal length) in Heq. rewrite length_take in Heq. lia. }
  destruct (fs_nodes fs !! p) as [[w|c r []]|] eqn:Enode; try discriminate H.
  - injection H as <- <-. split; [reflexivity|]. now apply Hfinal.
  - destruct (m1 !! dirname p) as [[[]|? ? ?]|]; try discriminate H.
    injection H as <- <-. split; [reflexivity|]. now apply Hfinal.
Qed.

(** C8, as stated, fails on a mirror that may be written but not read:
    the pre-read fails each time, so each of the two calls writes and
    returns [true]. *)
Lemma disk_mirror_counterexample :
  let p := ["app"; "public"; "manifest.json"] in
  let first := writeFileIfChanged p "{ }" write_only_mirror in
  let second := writeFileIfChanged p "{ }" (snd first) in
  fst first = Ok true /\ fst second = Ok true /\ length (writes (snd second)) = 2.
Proof. vm_compute. repeat split; reflexivity. Qed.

(** C8, amended.  The operation writes the payload exactly when the
    pre-read does not give the payload, a pre-read that fails counting as
    such and raising nothing; it then calls [mkdir] on the directory of
    the path before [writeFile], whose rejections are the operation's;
    it returns [true] exactly when it wrote, and then the path holds the
    payload below directories only.  On a path that does not hold an
    unreadable file, a second call with the same payload writes nothing
    and returns [false]. *)
Theorem disk_mirror (p : fspath) (payload : string) (fs : FS) :
  (same_content fs p payload = true ->
     writeFileIfChanged p payload fs = (Ok false, called (ReadFile p) fs))
  /\ (same_content fs p payload = false ->
        writeFileIfChanged p payload fs
        = io_bind (mkdir (dirname p))
            (fun _ => io_bind (writeFile p payload) (fun _ => io_ret true))
            (called (ReadFile p) fs))
  /\ (forall b fs',
        writeFileIfChanged p payload fs = (Ok b, fs') ->
        if b then
          same_content fs p payload = false
          /\ fs_calls fs'
             = WriteFile p payload :: Mkdir (dirname p) :: ReadFile p :: fs_calls fs
          /\ writes fs' = WriteFile p payload :: writes fs
          /\ (exists r, fs_nodes fs' !! p = Some (File payload r true))
          /\ (forall k, k < length p -> is_directory fs' (take k p))
        else
          same_content fs p payload = true
          /\ fs_nodes fs' = fs_nodes fs
          /\ writes fs' = writes fs)
  /\ (forall b fs',
        writeFileIfChanged p payload fs = (Ok b, fs') ->
        ~ unreadable fs p ->
        writeFileIfChanged p payload fs' = (Ok false, called (ReadFile p) fs')
        /\ writes (called (ReadFile p) fs') = writes fs').
Proof.
  split; [apply writeFileIfChanged_same|].
  split; [apply writeFileIfChanged_differs|].
  split.
  - intros b fs' H. destruct (same_content fs p payload) eqn:Hs.
    + rewrite (writeFileIfChanged_same p payload fs Hs) in H.
      injection H as <- <-. repeat split.
    + destruct (writeFileIfChanged_wrote p payload fs fs' b Hs H)
        as (-> & Hcalls & Hnode & Hdirs).
      split; [reflexivity|]. split; [exact Hcalls|]. split; [|split; [eauto|exact Hdirs]].
      unfold writes. rewrite Hcalls. reflexivity.
  - intros b fs' H Hunread. split; [|reflexivity].
    apply writeFileIfChanged_same.
    destruct (same_content fs p payload) eqn:Hs.
    + rewrite (writeFileIfChanged_same p payload fs Hs) in H.
      injection H as <- <-. exact Hs.
    + destruct (writeFileIfChanged_wrote p payload fs fs' b Hs H)
        as (-> & _ & Hnode & _).
      unfold same_content. rewrite Hnode.
      destruct (fs_nodes fs !! p) as [[w|c [] w]|] eqn:Enode;
        try apply String.eqb_refl.
      exfalso. apply Hunread. exists c, w. exact Enode.
Qed.

(** The mirror of a fresh project: the first call writes, the second
    does not. *)
Lemma disk_mirror_witness :
  let p := ["app"; "public"; "manifest.json"] in
  let first := writeFileIfChanged p "{ }" empty_project in
  fst (writeFileIfChanged p "{ }" (snd first)) = Ok false
  /\ writes (snd first) = [WriteFile p "{ }"].
Proof.
  cbv zeta.
  destruct (writeFileIfChanged ["app"; "public"; "manifest.json"] "{ }" empty_project)
    as [r fs'] eqn:E.
  assert (Hr : r = Ok true) by (apply (f_equal fst) in E; vm_compute in E; congruence).
  subst r.
  destruct (disk_mirror ["app"; "public"; "manifest.json"] "{ }" empty_project)
    as (_ & _ & Hwrote & Htwice).
  cbn [fst snd]. split.
  - destruct (Htwice true fs' E) as [-> _]; [|reflexivity].
    intros (c & w & Hc). vm_compute in Hc. discriminate Hc.
  - destruct (Hwrote true fs' E) as (_ & _ & -> & _). reflexivity.
Defined.

(* ================================================================= *)
(** ** C9: the round trip through JSON *)

Lemma serialize_payload (o : ManifestOptions) (env : Env) (mode : Mode)
    (doc : jsobject) (payload : string) (calls : list console_call) :
  buildManifest o env mode = Ok doc ->
  serialize o env mode = Ok (payload, calls) ->
  payload = serialized doc.
Proof.
  intros Hb Hs. unfold serialize in Hs. rewrite Hb in Hs. cbn [bind] in Hs.
  destruct (hasMaskableIcon (default VUndefined (obj_get "icons" doc))); [|discriminate Hs].
  cbn [bind] in Hs. now injection Hs as <- _.
Qed.

(** Parsing the serialization of a document that JSON can carry. *)
Lemma JSON_parse_document (doc : jsobject) :
  json_clean (VObj doc) = true -> wf_value (VObj doc) = true ->
  JSON_parse (serialized doc) = Some (prune (VObj doc)).
Proof.
  intros Hc Hw. destruct (of_json_to_json (VObj doc) Hc Hw) as (j & Hj & Hp).
  change (to_json (VObj doc)) with (Some (JObj (ser_members to_json doc))) in Hj.
  injection Hj as <-. rewrite JSON_parse_serialized. now f_equal.
Qed.

(** C9, as stated, fails on a document that holds what JSON cannot
    carry: [NaN] and an [undefined] array element come back as [null]. *)
Lemma json_round_trip_counterexample :
  let o := options_with None
             (Some [("scale", VNum NNaN); ("slots", VArr [VUndefined])]) None None in
  exists doc payload calls parsed,
    buildManifest o bare_env production = Ok doc
    /\ serialize o bare_env production = Ok (payload, calls)
    /\ JSON_parse payload = Some (VObj parsed)
    /\ obj_get "scale" doc = Some (VNum NNaN)
    /\ obj_get "scale" parsed = Some VNull
    /\ obj_get "slots" parsed = Some (VArr [VNull])
    /\ ~ struct_eq (VObj doc) (VObj parsed).
Proof.
  cbv zeta. eexists. eexists. eexists. eexists.
  split; [reflexivity|]. split; [vm_compute; reflexivity|].
  split; [vm_compute; reflexivity|].
  split; [reflexivity|]. split; [reflexivity|]. split; [reflexivity|].
  unfold struct_eq. vm_compute. discriminate.
Qed.

(** C9, amended.  For every document that the builder produces and that
    holds only what JSON can carry (no [undefined] inside an array, no
    [NaN], no infinity), parsing the serialized string gives the document
    without its properties that hold [undefined], in the same key order;
    the two are structurally equal, a property that holds [undefined]
    counting as absent.  ([wf_value] is the invariant of the
    representation of objects.) *)
Theorem json_round_trip (o : ManifestOptions) (env : Env) (mode : Mode)
    (doc : jsobject) (payload : string) (calls : list console_call) :
  buildManifest o env mode = Ok doc ->
  serialize o env mode = Ok (payload, calls) ->
  json_clean (VObj doc) = true ->
  wf_value (VObj doc) = true ->
  exists parsed,
    JSON_parse payload = Some parsed
    /\ parsed = prune (VObj doc)
    /\ struct_eq (VObj doc) parsed.
Proof.
  intros Hb Hs Hc Hw. rewrite (serialize_payload o env mode doc payload calls Hb Hs).
  exists (prune (VObj doc)). split; [|split].
  - now apply JSON_parse_document.
  - reflexivity.
  - apply struct_eq_prune.
Qed.

Lemma json_round_trip_witness :
  exists parsed,
    JSON_parse (serialized (mergedManifest no_options git_env)) = Some parsed
    /\ parsed = prune (VObj (mergedManifest no_options git_env))
    /\ struct_eq (VObj (mergedManifest no_options git_env)) parsed.
Proof.
  apply (json_round_trip no_options git_env production
           (mergedManifest no_options git_env)
           (serialized (mergedManifest no_options git_env)) []).
  - reflexivity.
  - vm_compute. reflexivity.
  - vm_compute. reflexivity.
  - vm_compute. reflexivity.
Defined.

(* ================================================================= *)
(** ** C2: deduplication of icons *)

(** C2.  The code misses the claim where the key collides: the key
    joins the three parts of the triple with a bar that the parts may
    contain, so two different triples can have one key, and the second
    icon is dropped although its triple is new. *)
Theorem icon_key_collision :
  icon_triple colliding_first <> icon_triple colliding_second
  /\ icon_key colliding_first = icon_key colliding_second
  /\ normalizeIcons (Some [colliding_first; colliding_second]) = [colliding_first]
  /\ deduplicated [colliding_first; colliding_second]
     = [colliding_first; colliding_second].
Proof.
  split; [discriminate|]. split; [reflexivity|]. split; vm_compute; reflexivity.
Qed.

(* ================================================================= *)
(** ** Assignment keeps the invariant of objects *)

Lemma keys_obj_replace (k : string) (v : value) (o : jsobject) :
  map fst (obj_replace k v o) = map fst o.
Proof.
  induction o as [|[k' v'] o IH]; [reflexivity|].
  cbn [obj_replace]. destruct (String.eqb_spec k' k) as [->|]; cbn [map fst];
    [reflexivity|now rewrite IH].
Qed.

Lemma forallb_keys_insert_index (P : string -> bool) (n : N) (k : string) (v : value)
    (o : jsobject) :
  forallb P (map fst (obj_insert_index n k v o)) = P k && forallb P (map fst o).
Proof.
  induction o as [|[k' v'] o IH]; [reflexivity|].
  cbn [obj_insert_index]. destruct (array_index k') as [n'|]; [|reflexivity].
  destruct (n' <? n)%N; [|reflexivity].
  cbn [map fst forallb]. rewrite IH. destruct (P k), (P k'); reflexivity.
Qed.

Lemma precedes_index (k k' : string) (n n' : N) :
  array_index k = Some n -> array_index k' = Some n' ->
  precedes k k' = true <-> (n < n')%N.
Proof.
  intros Hk Hk'. unfold precedes. rewrite Hk, Hk'. split.
  - intros H. apply andb_true_iff in H as [_ H]. now apply N.ltb_lt.
  - intros H. apply andb_true_iff. split; [|now apply N.ltb_lt].
    apply negb_true_iff, String.eqb_neq. intros ->. rewrite Hk in Hk'.
    injection Hk' as ->. lia.
Qed.

Lemma wf_keys_insert_index (n : N) (k : string) (v : value) (o : jsobject) :
  array_index k = Some n -> ~ In k (map fst o) ->
  wf_keys (map fst o) = true ->
  wf_keys (map fst (obj_insert_index n k v o)) = true.
Proof.
  intros Hk. induction o as [|[k' v'] o IH]; intros Hin Hwf; [reflexivity|].
  cbn [map fst In] in Hin. cbn [map fst wf_keys] in Hwf.
  apply andb_true_iff in Hwf as [Hk' Hwf].
  assert (Hne : negb (String.eqb k k') = true).
  { apply negb_true_iff, String.eqb_neq. intros ->. tauto. }
  cbn [obj_insert_index].
  destruct (array_index k') as [n'|] eqn:Ek'.
  - destruct (N.ltb_spec n' n) as [Hlt|Hge].
    + cbn [map fst wf_keys]. rewrite forallb_keys_insert_index, Hk', IH by tauto.
      rewrite (proj2 (precedes_index k' k n' n Ek' Hk) Hlt). reflexivity.
    + cbn [map fst wf_keys forallb]. rewrite Hk', Hwf, !andb_true_r.
      assert (Hlt : (n < n')%N).
      { destruct (N.eq_dec n n') as [<-|]; [|lia].
        exfalso. apply Hin. left. now apply (array_index_inj k' k n). }
      rewrite (proj2 (precedes_index k k' n n' Hk Ek') Hlt). cbn [andb].
      apply forallb_forall. intros k'' Hk''.
      rewrite forallb_forall in Hk'. specialize (Hk' k'' Hk'').
      unfold precedes in *. rewrite Hk. rewrite Ek' in Hk'.
      apply andb_true_iff in Hk' as [_ Hk'].
      apply andb_true_iff. split.
      * apply negb_true_iff, String.eqb_neq. intros ->. tauto.
      * destruct (array_index k'') as [n''|]; [|reflexivity].
        apply N.ltb_lt in Hk'. apply N.ltb_lt. lia.
  - cbn [map fst wf_keys forallb]. rewrite Hk', Hwf, !andb_true_r.
    unfold precedes at 1. rewrite Hne, Hk, Ek'. cbn [andb].
    apply forallb_forall. intros k'' Hk''.
    rewrite forallb_forall in Hk'. specialize (Hk' k'' Hk'').
    unfold precedes in *. rewrite Hk. rewrite Ek' in Hk'.
    apply andb_true_iff in Hk' as [_ Hk'].
    apply andb_true_iff. split.
    + apply negb_true_iff, String.eqb_neq. intros ->. tauto.
    + destruct (array_index k''); [discriminate|reflexivity].
Qed.

Lemma wf_keys_append (k : string) (ks : list string) :
  array_index k = None -> ~ In k ks ->
  wf_keys ks = true -> wf_keys (ks ++ [k]) = true.
Proof.
  intros Hk. induction ks as [|k' ks IH]; intros Hin Hwf; [reflexivity|].
  cbn [In] in Hin. cbn [wf_keys] in Hwf. apply andb_true_iff in Hwf as [Hk' Hwf].
  cbn [app wf_keys]. rewrite forallb_app, Hk', IH by tauto. cbn [forallb andb].
  rewrite !andb_true_r. unfold precedes. rewrite Hk.
  apply andb_true_iff. split.
  - apply negb_true_iff, String.eqb_neq. intros ->. tauto.
  - destruct (array_index k'); reflexivity.
Qed.

Lemma wf_keys_obj_set (k : string) (v : value) (o : jsobject) :
  wf_keys (map fst o) = true -> wf_keys (map fst (obj_set k v o)) = true.
Proof.
  intros Hwf. unfold obj_set. destruct (has_key k o) eqn:Hk.
  - now rewrite keys_obj_replace.
  - apply has_key_false_In in Hk. destruct (array_index k) as [n|] eqn:Hi.
    + now apply wf_keys_insert_index.
    + rewrite map_app. now apply wf_keys_append.
Qed.

Lemma all_values_obj_set (Q : value -> bool) (k : string) (v : value) (o : jsobject) :
  Q v = true -> all_values Q o = true -> all_values Q (obj_set k v o) = true.
Proof.
  unfold all_values. intros Hv Ho. apply forallb_forall. intros [k0 v0] Hin.
  apply In_obj_set in Hin as [[-> ->]|Hin]; [exact Hv|].
  rewrite forallb_forall in Ho. exact (Ho _ Hin).
Qed.

Lemma all_values_obj_assign (Q : value -> bool) (source target : jsobject) :
  all_values Q target = true -> all_values Q source = true ->
  all_values Q (obj_assign target source) = true.
Proof.
  unfold all_values. intros Ht Hs. apply forallb_forall. intros [k0 v0] Hin.
  apply In_obj_assign in Hin as [Hin|Hin].
  - rewrite forallb_forall in Ht. exact (Ht _ Hin).
  - rewrite forallb_forall in Hs. exact (Hs _ Hin).
Qed.

Lemma wf_keys_obj_assign (source target : jsobject) :
  wf_keys (map fst target) = true ->
  wf_keys (map fst (obj_assign target source)) = true.
Proof.
  unfold obj_assign. revert target.
  induction source as [|[k v] source IH]; intros target Ht; [exact Ht|].
  cbn [fold_left fst snd]. apply IH. now apply wf_keys_obj_set.
Qed.

(* ================================================================= *)
(** ** Documents of typed configurations round-trip *)

Lemma forallb_map_all {A} (Q : value -> bool) (g : A -> value) (l : list A) :
  (forall x, Q (g x) = true) -> forallb Q (map g l) = true.
Proof. intros H. induction l as [|x l IH]; cbn [map forallb]; [reflexivity|]. now rewrite H, IH. Qed.

Lemma icon_value_ok (i : ManifestIcon) :
  json_clean (icon_value i) = true /\ wf_value (icon_value i) = true.
Proof. destruct i as [s z [t|] [p|]]; split; reflexivity. Qed.

Lemma screenshot_value_ok (s : Screenshot) :
  json_clean (screenshot_value s) = true /\ wf_value (screenshot_value s) = true.
Proof. destruct s as [s [z|] [t|] [l|] [f|]]; split; reflexivity. Qed.

Lemma related_application_value_ok (a : RelatedApplication) :
  json_clean (related_application_value a) = true
  /\ wf_value (related_application_value a) = true.
Proof. destruct a as [p [u|] [i|]]; split; reflexivity. Qed.

Lemma protocol_handler_value_ok (h : ProtocolHandler) :
  json_clean (protocol_handler_value h) = true
  /\ wf_value (protocol_handler_value h) = true.
Proof. destruct h; split; reflexivity. Qed.

Ltac typed_value :=
  first
    [ reflexivity
    | apply forallb_map_all; intros ?;
      first [ reflexivity
            | apply icon_value_ok | apply screenshot_value_ok
            | apply related_application_value_ok | apply protocol_handler_value_ok ] ].

Lemma baseManifest_values (o : ManifestOptions) :
  all_values carried (baseManifest o) = true
  /\ all_values wf_value (baseManifest o) = true.
Proof.
  unfold baseManifest, obj_literal.
  split; (apply all_values_obj_assign; [reflexivity|]);
    unfold all_values, carried; cbn [forallb snd];
    repeat (apply andb_true_iff; split); try reflexivity;
    try match goal with
        | |- context [or_undefined _ ?x] => destruct x; cbn [or_undefined from_option]
        end;
    try reflexivity;
    match goal with
    | |- is_undefined (VArr ?l) || json_clean (VArr ?l) = true =>
        change (forallb json_clean l = true); typed_value
    | |- wf_value (VArr ?l) = true =>
        change (forallb wf_value l = true); typed_value
    end.
Qed.

Lemma assembled_values (o : ManifestOptions) (env : Env) :
  all_values carried (assembled o env) = true
  /\ all_values wf_value (assembled o env) = true.
Proof.
  destruct (baseManifest_values o) as [Hc Hw].
  unfold assembled, attachBuildMeta. destruct (includesBuildMeta o); [|now split].
  cbv zeta.
  split;
    (apply all_values_obj_set; [reflexivity|];
     apply all_values_obj_set;
       [destruct (or_else (gitShort env) (readPkgVersion env)); reflexivity|];
     apply all_values_obj_set; [destruct (readPkgVersion env); reflexivity|];
     assumption).
Qed.

(** The merged object of a configuration whose [extra] map holds only
    what JSON can carry is such a document itself. *)
Lemma mergedManifest_ok (o : ManifestOptions) (env : Env) :
  all_values carried (default [] (opt_extra o)) = true ->
  all_values wf_value (default [] (opt_extra o)) = true ->
  json_clean (VObj (mergedManifest o env)) = true
  /\ wf_value (VObj (mergedManifest o env)) = true.
Proof.
  intros Hc Hw. destruct (assembled_values o env) as [Hac Haw].
  unfold mergedManifest. split.
  - change (all_values carried
              (obj_assign (obj_assign [] (assembled o env)) (default [] (opt_extra o)))
            = true).
    apply all_values_obj_assign; [|exact Hc].
    apply all_values_obj_assign; [reflexivity|exact Hac].
  - change (wf_keys (map fst (obj_assign (obj_assign [] (assembled o env))
                                (default [] (opt_extra o))))
            && all_values wf_value
                 (obj_assign (obj_assign [] (assembled o env)) (default [] (opt_extra o)))
            = true).
    apply andb_true_iff. split.
    + apply wf_keys_obj_assign, wf_keys_obj_assign. reflexivity.
    + apply all_values_obj_assign; [|exact Hw].
      apply all_values_obj_assign; [reflexivity|exact Haw].
Qed.

(** Without a transform, and with an [extra] map that holds only what
    JSON can carry and no [icons], [serialize] returns a payload that
    parses back to the document without its properties that hold
    [undefined]. *)
Lemma typed_round_trip (o : ManifestOptions) (env : Env) (mode : Mode) :
  opt_transform o = None ->
  has_key "icons" (default [] (opt_extra o)) = false ->
  all_values carried (default [] (opt_extra o)) = true ->
  all_values wf_value (default [] (opt_extra o)) = true ->
  exists doc payload calls,
    buildManifest o env mode = Ok doc
    /\ serialize o env mode = Ok (payload, calls)
    /\ JSON_parse payload = Some (prune (VObj doc))
    /\ struct_eq (VObj doc) (prune (VObj doc)).
Proof.
  intros Ht Hi Hc Hw.
  destruct (serialize_returns o env mode Ht Hi) as [calls Hs].
  destruct (mergedManifest_ok o env Hc Hw) as [Hclean Hwf].
  exists (mergedManifest o env), (serialized (mergedManifest o env)), calls.
  split; [unfold buildManifest; now rewrite Ht|]. split; [exact Hs|]. split.
  - now apply JSON_parse_document.
  - apply struct_eq_prune.
Qed.

(* ================================================================= *)
(** ** Deduplication where the key is faithful *)

Lemma bar_split (a a' r r' : string) :
  bar_free a = true -> bar_free a' = true ->
  a +:+ String "|"%char r = a' +:+ String "|"%char r' -> a = a' /\ r = r'.
Proof.
  revert a'. induction a as [|c a IH]; intros [|c' a'] Ha Ha' H.
  - rewrite !str_app_nil_l in H. injection H as <-. now split.
  - rewrite str_app_nil_l, str_app_cons in H. injection H as <- _.
    cbn in Ha'. discriminate Ha'.
  - rewrite str_app_nil_l, str_app_cons in H. injection H as -> _.
    cbn in Ha. discriminate Ha.
  - rewrite !str_app_cons in H. injection H as <- H.
    cbn [bar_free] in Ha, Ha'. apply andb_true_iff in Ha as [_ Ha].
    apply andb_true_iff in Ha' as [_ Ha'].
    destruct (IH a' Ha Ha' H) as [-> ->]. now split.
Qed.

Lemma purpose_string_inj (p p' : option IconPurpose) :
  from_option purpose_string EmptyString p = from_option purpose_string EmptyString p' ->
  p = p'.
Proof. destruct p as [[]|], p' as [[]|]; cbn; intros H; try reflexivity; discriminate H. Qed.

(** Where no part holds a bar, the key determines the triple. *)
Lemma icon_key_inj (i j : ManifestIcon) :
  bar_free_icon i = true -> bar_free_icon j = true ->
  icon_key i = icon_key j -> icon_triple i = icon_triple j.
Proof.
  unfold bar_free_icon, icon_key, icon_triple. intros Hi Hj H.
  apply andb_true_iff in Hi as [Hi1 Hi2]. apply andb_true_iff in Hj as [Hj1 Hj2].
  change ("|" +:+ ?s) with (String "|"%char s) in H.
  apply bar_split in H as [-> H]; [|assumption..].
  change ("|" +:+ ?s) with (String "|"%char s) in H.
  apply bar_split in H as [-> H]; [|assumption..].
  now rewrite (purpose_string_inj _ _ H).
Qed.

Lemma filter_unseen_refines (l : list ManifestIcon) :
  Forall (fun i => bar_free_icon i = true) l ->
  forall (seen : gset string) (seen' : list (string * string * option IconPurpose)),
    (forall i, bar_free_icon i = true ->
               icon_key i ∈ seen <-> icon_triple i ∈ seen') ->
    filter_unseen seen l = first_of_each_triple seen' l.
Proof.
  induction 1 as [|x l Hx Hl IH]; intros seen seen' Hseen; [reflexivity|].
  cbn [filter_unseen first_of_each_triple].
  destruct (decide (icon_key x ∈ seen)) as [Hin|Hnin];
    destruct (decide (icon_triple x ∈ seen')) as [Hin'|Hnin'].
  - now apply IH.
  - exfalso. apply Hnin'. now apply Hseen.
  - exfalso. apply Hnin. now apply Hseen.
  - f_equal. apply IH. intros i Hi.
    rewrite elem_of_union, elem_of_singleton, elem_of_cons, (Hseen i Hi).
    split; (intros [H|H]; [left|now right]).
    + now apply icon_key_inj.
    + unfold icon_key. unfold icon_triple in H. now injection H as -> -> ->.
Qed.

Lemma bar_free_ensureLeadingSlash (s : string) :
  bar_free s = true -> bar_free (ensureLeadingSlash s) = true.
Proof.
  unfold ensureLeadingSlash. destruct (startsWith "/" s); [auto|].
  intros H. change (bar_free (String "/"%char s) = true). cbn [bar_free]. now rewrite H.
Qed.

(** On icons whose source and size hold no bar, [normalizeIcons] keeps
    exactly the first icon of every triple, in input order. *)
Lemma normalizeIcons_refines (icons : list ManifestIcon) :
  Forall (fun i => bar_free_icon i = true) icons ->
  normalizeIcons (Some icons) = deduplicated icons.
Proof.
  intros H. unfold normalizeIcons, deduplicated. cbn [default from_option id].
  apply filter_unseen_refines.
  - apply Forall_map. eapply Forall_impl; [exact H|].
    intros i Hi. unfold bar_free_icon in *. cbn [with_leading_slash icon_src icon_sizes].
    apply andb_true_iff in Hi as [Hi1 Hi2].
    now rewrite bar_free_ensureLeadingSlash, Hi2.
  - intros i _. split; intros Hin.
    + now apply elem_of_empty in Hin.
    + now apply elem_of_nil in Hin.
Qed.

(** What the spec's deduplication keeps: no triple twice, and every
    triple of the input once. *)
Lemma first_of_each_triple_NoDup (l : list ManifestIcon) :
  forall seen,
    NoDup (map icon_triple (first_of_each_triple seen l))
    /\ (forall i, In i (first_of_each_triple seen l) -> icon_triple i ∉ seen)
    /\ (forall i, In i l ->
          icon_triple i ∈ seen
          \/ In (icon_triple i) (map icon_triple (first_of_each_triple seen l))).
Proof.
  induction l as [|x l IH]; intros seen.
  - cbn. split; [constructor|]. split; tauto.
  - cbn [first_of_each_triple].
    destruct (decide (icon_triple x ∈ seen)) as [Hin|Hnin].
    + destruct (IH seen) as (Hnd & Hfresh & Hall). split; [exact Hnd|].
      split; [exact Hfresh|]. intros i [<-|Hi]; [now left|now apply Hall].
    + destruct (IH (icon_triple x :: seen)) as (Hnd & Hfresh & Hall).
      split; [|split].
      * cbn [map]. apply NoDup_cons. split; [|exact Hnd].
        intros Hx. apply list_elem_of_In, in_map_iff in Hx as (i & Hi & Hin).
        apply Hfresh in Hin. apply Hin. rewrite Hi. now left.
      * intros i [<-|Hi]; [exact Hnin|].
        apply Hfresh in Hi. intros Hs. apply Hi. now right.
      * intros i [<-|Hi]; [right; now left|].
        destruct (Hall i Hi) as [Hs|Hs].
        -- apply elem_of_cons in Hs as [->|Hs]; [right; now left|now left].
        -- right. now right.
Qed.
(* ================================================================= *)
(** ** What [normalizeIcons] keeps *)

Lemma filter_unseen_keys (l : list ManifestIcon) :
  forall seen,
    NoDup (map icon_key (filter_unseen seen l))
    /\ (forall i, In i (filter_unseen seen l) -> icon_key i ∉ seen)
    /\ (forall i, In i l ->
          icon_key i ∈ seen
          \/ exists j, In j (filter_unseen seen l) /\ icon_key j = icon_key i).
Proof.
  induction l as [|x l IH]; intros seen.
  - cbn. split; [constructor|]. split; tauto.
  - cbn [filter_unseen].
    destruct (decide (icon_key x ∈ seen)) as [Hin|Hnin].
    + destruct (IH seen) as (Hnd & Hfresh & Hall). split; [exact Hnd|].
      split; [exact Hfresh|]. intros i [<-|Hi]; [now left|now apply Hall].
    + destruct (IH ({[icon_key x]} ∪ seen)) as (Hnd & Hfresh & Hall).
      split; [|split].
      * cbn [map]. apply NoDup_cons. split; [|exact Hnd].
        intros Hx. apply list_elem_of_In, in_map_iff in Hx as (i & Hi & Hin).
        apply Hfresh in Hin. apply Hin. rewrite Hi.
        apply elem_of_union_l. now apply elem_of_singleton.
      * intros i [<-|Hi]; [exact Hnin|].
        apply Hfresh in Hi. intros Hs. apply Hi. now apply elem_of_union_r.
      * intros i [<-|Hi]; [right; exists x; split; [now left|reflexivity]|].
        destruct (Hall i Hi) as [Hs|(j & Hj & Hk)].
        -- apply elem_of_union in Hs as [Hs|Hs]; [|now left].
           apply elem_of_singleton in Hs. right. exists x. split; [now left|now symmetry].
        -- right. exists j. split; [now right|exact Hk].
Qed.

Lemma filter_unseen_sublist (l : list ManifestIcon) :
  forall seen, sublist (filter_unseen seen l) l.
Proof.
  induction l as [|x l IH]; intros seen; cbn [filter_unseen]; [constructor|].
  destruct (decide (icon_key x ∈ seen)).
  - apply sublist_cons, IH.
  - apply sublist_skip, IH.
Qed.

Lemma filter_unseen_first (l : list ManifestIcon) :
  forall seen pre i post,
    l = pre ++ i :: post ->
    icon_key i ∉ seen -> ~ In (icon_key i) (map icon_key pre) ->
    In i (filter_unseen seen l).
Proof.
  induction l as [|x l IH]; intros seen pre i post E Hs Hpre.
  - destruct pre; discriminate E.
  - cbn [filter_unseen]. destruct pre as [|y pre]; cbn in E; injection E as -> E.
    + destruct (decide (icon_key i ∈ seen)); [contradiction|now left].
    + assert (Hne : icon_key i <> icon_key y).
      { intros H. apply Hpre. left. now symmetry. }
      assert (Hpre' : ~ In (icon_key i) (map icon_key pre)).
      { intros H. apply Hpre. now right. }
      destruct (decide (icon_key y ∈ seen)).
      * eapply IH; eauto.
      * right. eapply IH; eauto. intros H.
        apply elem_of_union in H as [H|H]; [|contradiction].
        apply elem_of_singleton in H. contradiction.
Qed.

Lemma filter_unseen_all (l : list ManifestIcon) :
  forall seen,
    NoDup (map icon_key l) -> (forall i, In i l -> icon_key i ∉ seen) ->
    filter_unseen seen l = l.
Proof.
  induction l as [|x l IH]; intros seen Hnd Hs; [reflexivity|].
  cbn [filter_unseen]. cbn [map] in Hnd. apply NoDup_cons in Hnd as [Hx Hnd].
  destruct (decide (icon_key x ∈ seen)) as [Hin|_].
  - exfalso. eapply Hs; [now left|exact Hin].
  - f_equal. apply IH; [exact Hnd|]. intros i Hi Hin.
    apply elem_of_union in Hin as [Hin|Hin].
    + apply elem_of_singleton in Hin. apply Hx. rewrite <- Hin.
      apply list_elem_of_In, in_map, Hi.
    + eapply Hs; [right; exact Hi|exact Hin].
Qed.

Lemma icon_key_of_triple (i j : ManifestIcon) :
  icon_triple i = icon_triple j -> icon_key i = icon_key j.
Proof. unfold icon_triple, icon_key. now intros [= -> -> ->]. Qed.

Lemma with_leading_slash_fixed (i : ManifestIcon) :
  startsWith "/" (icon_src i) = true -> with_leading_slash i = i.
Proof.
  intros H. destruct i as [src sizes type purpose]. unfold with_leading_slash.
  cbn [icon_src icon_sizes icon_type icon_purpose] in *.
  unfold ensureLeadingSlash. now rewrite H.
Qed.

(** X1.  Whatever the input, no two icons that [normalizeIcons] returns
    have the same key, nor the same (source, size, purpose) triple; what
    it returns is the input with its sources normalized, some icons
    left out and the order kept; an icon is kept when no icon before it
    has its key, and every key of the input is the key of an icon that
    is kept. *)
Theorem normalizeIcons_distinct (icons : option (list ManifestIcon)) :
  NoDup (map icon_key (normalizeIcons icons))
  /\ NoDup (map icon_triple (normalizeIcons icons))
  /\ sublist (normalizeIcons icons) (slashed icons)
  /\ (forall pre i post,
        slashed icons = pre ++ i :: post ->
        ~ In (icon_key i) (map icon_key pre) ->
        In i (normalizeIcons icons))
  /\ (forall i, In i (slashed icons) ->
        exists j, In j (normalizeIcons icons) /\ icon_key j = icon_key i).
Proof.
  unfold normalizeIcons. fold (slashed icons).
  destruct (filter_unseen_keys (slashed icons) ∅) as (Hnd & _ & Hall).
  split; [exact Hnd|]. split; [|split; [|split]].
  - clear Hall. induction (filter_unseen ∅ (slashed icons)) as [|x l IH]; [constructor|].
    cbn [map] in *. apply NoDup_cons in Hnd as [Hx Hnd]. apply NoDup_cons.
    split; [|now apply IH].
    intros Hin. apply Hx. apply list_elem_of_In, in_map_iff in Hin as (j & Hj & Hin).
    apply list_elem_of_In, in_map_iff. exists j. split; [|exact Hin].
    now apply icon_key_of_triple.
  - apply filter_unseen_sublist.
  - intros pre i post E Hpre. eapply filter_unseen_first; eauto. apply not_elem_of_empty.
  - intros i Hi. destruct (Hall i Hi) as [H|H]; [now apply elem_of_empty in H|exact H].
Qed.

(** X2.  [normalizeIcons] is idempotent: given its own output it returns
    it unchanged. *)
Theorem normalizeIcons_idempotent (icons : option (list ManifestIcon)) :
  normalizeIcons (Some (normalizeIcons icons)) = normalizeIcons icons.
Proof.
  assert (Hfix : map with_leading_slash (normalizeIcons icons) = normalizeIcons icons).
  { rewrite <- (map_id (normalizeIcons icons)) at 2. apply map_ext_in.
    intros i Hi. apply with_leading_slash_fixed.
    apply (filter_unseen_In _ ∅), in_map_iff in Hi as (i0 & <- & _).
    apply ensureLeadingSlash_starts. }
  unfold normalizeIcons at 1. cbn [default from_option id]. rewrite Hfix.
  apply filter_unseen_all.
  - apply (filter_unseen_keys _ ∅).
  - intros i _. apply not_elem_of_empty.
Qed.

(** X3.  On icons whose source and size hold no vertical bar,
    [normalizeIcons] is the deduplication on (source, size, purpose)
    triples after path normalization: it keeps the first icon of every
    triple, and every triple of the input is the triple of an icon that
    is kept. *)
Theorem normalizeIcons_one_per_triple (icons : list ManifestIcon) :
  Forall (fun i => bar_free_icon i = true) icons ->
  normalizeIcons (Some icons) = deduplicated icons
  /\ (forall i, In i (map with_leading_slash icons) ->
        In (icon_triple i) (map icon_triple (normalizeIcons (Some icons)))).
Proof.
  intros H. rewrite (normalizeIcons_refines icons H). split; [reflexivity|].
  intros i Hi. unfold deduplicated.
  destruct (first_of_each_triple_NoDup (map with_leading_slash icons) []) as (_ & _ & Hall).
  destruct (Hall i Hi) as [Hs|Hs]; [now apply elem_of_nil in Hs|exact Hs].
Qed.

Lemma normalizeIcons_one_per_triple_witness :
  let a := {| icon_src := "a.png"; icon_sizes := "48x48"; icon_type := Some "image/png";
              icon_purpose := None |} in
  let b := {| icon_src := "/a.png"; icon_sizes := "48x48"; icon_type := None;
              icon_purpose := None |} in
  normalizeIcons (Some [a; b]) = deduplicated [a; b]
  /\ In (icon_triple b) (map icon_triple (normalizeIcons (Some [a; b]))).
Proof.
  intros a b.
  destruct (normalizeIcons_one_per_triple [a; b]) as [H1 H2].
  - repeat constructor.
  - split; [exact H1|]. apply H2. right. left. reflexivity.
Defined.

Lemma normalizeIcons_distinct_witness :
  let a := {| icon_src := "a.png"; icon_sizes := "48x48"; icon_type := Some "image/png";
              icon_purpose := None |} in
  let b := {| icon_src := "/a.png"; icon_sizes := "48x48"; icon_type := None;
              icon_purpose := None |} in
  In (with_leading_slash a) (normalizeIcons (Some [a; b]))
  /\ exists j, In j (normalizeIcons (Some [a; b])) /\ icon_key j = icon_key b.
Proof.
  intros a b.
  destruct (normalizeIcons_distinct (Some [a; b])) as (_ & _ & _ & Hfirst & Hall).
  split.
  - apply (Hfirst [] (with_leading_slash a) [with_leading_slash b]); [reflexivity|].
    intros [].
  - apply Hall. right. left. reflexivity.
Defined.
(* ================================================================= *)
(** ** The maskable check *)

Lemma includes_maskable_purpose (p : option IconPurpose) :
  includes "maskable" (from_option purpose_string EmptyString p) = maskable_purpose p.
Proof. destruct p as [[]|]; reflexivity. Qed.

Lemma existsb_pointwise {A} (f g : A -> bool) (l : list A) :
  (forall x, f x = g x) -> existsb f l = existsb g l.
Proof. intros H. induction l as [|x l IH]; cbn; [reflexivity|]. now rewrite H, IH. Qed.

(** X4.  For a configuration without a transform whose [extra] holds
    only what JSON can carry and has no [icons] key, [serialize]
    returns, and it warns exactly when no icon that [normalizeIcons]
    keeps has the purpose [maskable] or [any maskable]; without an
    [icons] field (the built-in pair) it never warns. *)
Theorem warns_without_maskable_icon (o : ManifestOptions) (env : Env) (mode : Mode) :
  opt_transform o = None ->
  has_key "icons" (default [] (opt_extra o)) = false ->
  all_values carried (default [] (opt_extra o)) = true ->
  all_values wf_value (default [] (opt_extra o)) = true ->
  serialize o env mode
  = Ok (serialized (mergedManifest o env),
        if existsb (fun i => maskable_purpose (icon_purpose i)) (normalizeIcons (opt_icons o))
        then [] else [no_maskable_warning])
  /\ (opt_icons o = None ->
      serialize o env mode = Ok (serialized (mergedManifest o env), [])).
Proof.
  intros Ht He _ _.
  assert (H : serialize o env mode
              = Ok (serialized (mergedManifest o env),
                    if existsb (fun i => maskable_purpose (icon_purpose i))
                         (normalizeIcons (opt_icons o))
                    then [] else [no_maskable_warning])).
  { unfold serialize, buildManifest. rewrite Ht. cbn [bind].
    rewrite (merged_get o env "icons" He), assembled_icons. cbn [default from_option id].
    rewrite hasMaskableIcon_typed. cbn [bind].
    rewrite (existsb_pointwise _ (fun i => maskable_purpose (icon_purpose i)));
      [reflexivity|].
    intros i. apply includes_maskable_purpose. }
  split; [exact H|]. intros Hi. rewrite H, Hi. reflexivity.
Qed.

Lemma warns_without_maskable_icon_witness :
  serialize
    (options_with (Some [ {| icon_src := "a.png"; icon_sizes := "48x48";
                             icon_type := None; icon_purpose := Some PurposeMonochrome |} ])
       None None None)
    bare_env production
  = Ok (serialized
          (mergedManifest
             (options_with (Some [ {| icon_src := "a.png"; icon_sizes := "48x48";
                                      icon_type := None;
                                      icon_purpose := Some PurposeMonochrome |} ])
                None None None)
             bare_env),
        [no_maskable_warning]).
Proof.
  apply (warns_without_maskable_icon
           (options_with (Some [ {| icon_src := "a.png"; icon_sizes := "48x48";
                                    icon_type := None;
                                    icon_purpose := Some PurposeMonochrome |} ])
              None None None)
           bare_env production); reflexivity.
Defined.

Lemma some_maskable_app (pre : list value) :
  Forall (fun i => maskable_answer i = Ok false) pre ->
  forall rest, some_maskable (pre ++ rest) = some_maskable rest.
Proof.
  induction 1 as [|i pre Hi Hpre IH]; intros rest; [reflexivity|].
  cbn [app some_maskable]. unfold maskable_answer in Hi.
  destruct (get_property "purpose" i) as [p|e]; cbn [bind] in *; [|discriminate Hi].
  rewrite Hi. cbn [bind]. apply IH.
Qed.

(** X5.  [hasMaskableIcon] on an array asks the elements in order and
    stops at the first one that does not answer [false]: the result is
    that element's answer, [true] or the exception it throws, whatever
    stands behind it; when every element answers [false], the result is
    [false]. *)
Theorem hasMaskableIcon_first_answer (pre : list value) :
  Forall (fun i => maskable_answer i = Ok false) pre ->
  hasMaskableIcon (VArr pre) = Ok false
  /\ (forall x post,
        maskable_answer x <> Ok false ->
        hasMaskableIcon (VArr (pre ++ x :: post)) = maskable_answer x).
Proof.
  intros Hpre. cbn [hasMaskableIcon]. split.
  - rewrite <- (app_nil_r pre). now rewrite some_maskable_app.
  - intros x post Hx. rewrite some_maskable_app by exact Hpre.
    cbn [some_maskable]. unfold maskable_answer in *.
    destruct (get_property "purpose" x) as [p|e]; cbn [bind] in *; [|reflexivity].
    destruct (purpose_includes_maskable p) as [[]|e]; cbn [bind]; try reflexivity.
    now contradiction Hx.
Qed.

Lemma hasMaskableIcon_first_answer_witness :
  hasMaskableIcon (VArr [VObj [("src", VStr "/a.png")]; VNull;
                         VObj [("purpose", VStr "maskable")]])
  = Err (TypeError "Cannot read properties of undefined or null")
  /\ hasMaskableIcon (VArr [VObj [("src", VStr "/a.png")];
                            VObj [("purpose", VStr "maskable")]; VNull])
     = Ok true.
Proof.
  split.
  - apply (hasMaskableIcon_first_answer [VObj [("src", VStr "/a.png")]]
             ltac:(repeat constructor)).
    discriminate.
  - apply (hasMaskableIcon_first_answer [VObj [("src", VStr "/a.png")]]
             ltac:(repeat constructor)).
    discriminate.
Defined.

Lemma obj_get_some_In (k : string) (v : value) (o : jsobject) :
  obj_get k o = Some v -> In (k, v) o.
Proof.
  induction o as [|[k' v'] o IH]; cbn [obj_get]; [discriminate|].
  destruct (String.eqb_spec k' k) as [->|Hne].
  - intros [= ->]. now left.
  - intros H. right. now apply IH.
Qed.

Lemma obj_get_assign_source (k : string) (v : value) (source : jsobject) :
  forall target,
    NoDup (map fst source) -> obj_get k source = Some v ->
    obj_get k (obj_assign target source) = Some v.
Proof.
  induction source as [|[k' v'] source IH]; intros target Hnd Hk; [discriminate Hk|].
  cbn [map fst] in Hnd. apply NoDup_cons in Hnd as [Hk' Hnd].
  unfold obj_assign. cbn [fold_left fst snd]. fold (obj_assign (obj_set k' v' target) source).
  cbn [obj_get] in Hk. destruct (String.eqb_spec k' k) as [->|Hne].
  - injection Hk as ->. rewrite obj_get_assign_other; [apply obj_get_set_eq|].
    apply has_key_false_In. intros H. apply Hk'. now apply list_elem_of_In.
  - now apply IH.
Qed.

(** X6.  The maskable check reads the merged document: when [extra]
    has an [icons] key, the check is made on that value and not on the
    configured icons, and what it throws on an ill-typed value is thrown
    by [serialize]. *)
Theorem maskable_check_reads_extra (o : ManifestOptions) (env : Env) (mode : Mode)
    (extra : jsobject) (v : value) :
  opt_transform o = None ->
  opt_extra o = Some extra ->
  NoDup (map fst extra) ->
  obj_get "icons" extra = Some v ->
  serialize o env mode
  = let* maskable := hasMaskableIcon v in
    Ok (serialized (mergedManifest o env),
        if maskable : bool then [] else [no_maskable_warning]).
Proof.
  intros Ht He Hnd Hv. unfold serialize, buildManifest. rewrite Ht. cbn [bind].
  unfold mergedManifest at 1. rewrite He. cbn [default from_option id].
  rewrite (obj_get_assign_source "icons" v extra _ Hnd Hv). cbn [default from_option id].
  destruct (hasMaskableIcon v) as [[]|e]; reflexivity.
Qed.

Lemma maskable_check_reads_extra_witness :
  serialize (options_with None (Some [("icons", VArr [VNull])]) None None)
    bare_env development
  = Err (TypeError "Cannot read properties of undefined or null").
Proof.
  rewrite (maskable_check_reads_extra
             (options_with None (Some [("icons", VArr [VNull])]) None None)
             bare_env development [("icons", VArr [VNull])] (VArr [VNull])
             eq_refl eq_refl ltac:(repeat constructor; cbn; intros H; inversion H) eq_refl).
  reflexivity.
Defined.
(* ================================================================= *)
(** ** What the version-control commands give *)

Lemma trimEnd_idempotent (s : string) : trimEnd (trimEnd s) = trimEnd s.
Proof.
  induction s as [|c s IH]; [reflexivity|].
  cbn [trimEnd]. destruct (trimEnd s) as [|c' t] eqn:E.
  - destruct (is_js_space c) eqn:Ec; [reflexivity|].
    cbn [trimEnd]. now rewrite Ec.
  - cbn [trimEnd] in *. now rewrite IH.
Qed.

Lemma trimEnd_head (c : ascii) (s : string) :
  is_js_space c = false -> exists t, trimEnd (String c s) = String c t.
Proof.
  intros Hc. cbn [trimEnd]. destruct (trimEnd s) as [|c' t].
  - rewrite Hc. now eexists.
  - now eexists.
Qed.

Lemma trimStart_head (s : string) :
  trimStart s = EmptyString
  \/ exists c t, trimStart s = String c t /\ is_js_space c = false.
Proof.
  induction s as [|c s IH]; [now left|].
  cbn [trimStart]. destruct (is_js_space c) eqn:Ec; [exact IH|].
  right. now exists c, s.
Qed.

Lemma trimStart_trim (s : string) : trimStart (trim s) = trim s.
Proof.
  unfold trim. destruct (trimStart_head s) as [->|(c & t & -> & Hc)]; [reflexivity|].
  destruct (trimEnd_head c t Hc) as (t' & ->). cbn [trimStart]. now rewrite Hc.
Qed.

Lemma trim_idempotent (s : string) : trim (trim s) = trim s.
Proof.
  unfold trim at 1. rewrite trimStart_trim. unfold trim. apply trimEnd_idempotent.
Qed.

Lemma runCommand_trimmed (env : Env) (cmd v : string) :
  runCommand env cmd = Some v ->
  v <> EmptyString /\ trim v = v
  /\ exists out, env_exec env cmd = Some out /\ v = trim out.
Proof.
  unfold runCommand. destruct (env_exec env cmd) as [out|]; [|discriminate].
  destruct (trim out) as [|c t] eqn:E; [discriminate|].
  intros [= <-]. split; [discriminate|]. split.
  - rewrite <- E. apply trim_idempotent.
  - exists out. now split.
Qed.

(** X7.  What [runCommand] returns, and so what [gitShort] returns, is
    never the empty string and has no white space at either end: it is
    the trimmed output of a command that ran, and for [gitShort] of one
    of its three commands. *)
Theorem vcs_version_trimmed (env : Env) (v : string) :
  (forall cmd, runCommand env cmd = Some v ->
     v <> EmptyString /\ trim v = v
     /\ exists out, env_exec env cmd = Some out /\ v = trim out)
  /\ (gitShort env = Some v ->
      v <> EmptyString /\ trim v = v
      /\ exists cmd out,
           In cmd [ "git describe --tags --exact-match"; "git describe --tags --always";
                    "git rev-parse --short HEAD" ]
           /\ env_exec env cmd = Some out /\ v = trim out).
Proof.
  split; [intros cmd; apply runCommand_trimmed|].
  unfold gitShort, or_else.
  destruct (runCommand env "git describe --tags --exact-match") as [v1|] eqn:E1.
  { intros [= ->]. destruct (runCommand_trimmed _ _ _ E1) as (H1 & H2 & out & H3 & H4).
    split; [exact H1|]. split; [exact H2|]. eexists. exists out.
    split; [left; reflexivity|]. now split. }
  destruct (runCommand env "git describe --tags --always") as [v2|] eqn:E2.
  { intros [= ->]. destruct (runCommand_trimmed _ _ _ E2) as (H1 & H2 & out & H3 & H4).
    split; [exact H1|]. split; [exact H2|]. eexists. exists out.
    split; [right; left; reflexivity|]. now split. }
  destruct (runCommand env "git rev-parse --short HEAD") as [v3|] eqn:E3; [|discriminate].
  intros [= ->]. destruct (runCommand_trimmed _ _ _ E3) as (H1 & H2 & out & H3 & H4).
  split; [exact H1|]. split; [exact H2|]. eexists. exists out.
  split; [right; right; left; reflexivity|]. now split.
Qed.

Lemma vcs_version_trimmed_witness :
  "abc1234" <> EmptyString /\ trim "abc1234" = "abc1234"
  /\ exists cmd out,
       In cmd [ "git describe --tags --exact-match"; "git describe --tags --always";
                "git rev-parse --short HEAD" ]
       /\ env_exec git_env cmd = Some out /\ "abc1234" = trim out.
Proof.
  destruct (vcs_version_trimmed git_env "abc1234") as [_ H]. apply H. reflexivity.
Defined.
(* ================================================================= *)
(** ** What [extra] does to the assembled object *)

Lemma has_key_obj_set (k k0 : string) (v : value) (o : jsobject) :
  has_key k0 (obj_set k v o) = String.eqb k0 k || has_key k0 o.
Proof.
  unfold has_key. destruct (String.eqb_spec k0 k) as [->|Hne].
  - now rewrite obj_get_set_eq.
  - now rewrite obj_get_set_ne.
Qed.

Lemma keys_obj_set_plain (k : string) (v : value) (o : jsobject) :
  array_index k = None ->
  map fst (obj_set k v o) = map fst o ++ (if has_key k o then [] else [k]).
Proof.
  intros Hk. unfold obj_set. rewrite Hk. destruct (has_key k o).
  - now rewrite keys_obj_replace, app_nil_r.
  - now rewrite map_app.
Qed.

Lemma keys_obj_assign_plain (source : jsobject) :
  forall target,
    NoDup (map fst source) ->
    Forall (fun k => array_index k = None) (map fst source) ->
    map fst (obj_assign target source)
    = map fst target ++ List.filter (fun k => negb (has_key k target)) (map fst source).
Proof.
  induction source as [|[k v] source IH]; intros target Hnd Hplain.
  - cbn. now rewrite app_nil_r.
  - cbn [map fst] in Hnd, Hplain. apply NoDup_cons in Hnd as [Hk Hnd].
    apply Forall_cons in Hplain as [Hkp Hplain].
    unfold obj_assign. cbn [fold_left fst snd]. fold (obj_assign (obj_set k v target) source).
    rewrite (IH _ Hnd Hplain), (keys_obj_set_plain k v target Hkp).
    cbn [map fst List.filter].
    assert (Hf : List.filter (fun k0 => negb (has_key k0 (obj_set k v target))) (map fst source)
                 = List.filter (fun k0 => negb (has_key k0 target)) (map fst source)).
    { apply filter_ext_in. intros k0 Hk0. rewrite has_key_obj_set.
      destruct (String.eqb_spec k0 k) as [->|Hne]; [|reflexivity].
      exfalso. apply Hk. now apply list_elem_of_In. }
    rewrite Hf. destruct (has_key k target); cbn [negb].
    + now rewrite app_nil_r.
    + now rewrite <- app_assoc.
Qed.

(** X8.  The merged document is the assembled object with [extra] on
    top: a key that [extra] has holds the value [extra] gives it, every
    other key holds what the builder assembled; and when no key of
    [extra] is an array index, the keys come in assembly order, a key
    that [extra] overrides keeping its place, followed by the new keys
    of [extra] in their order. *)
Theorem extra_overrides (o : ManifestOptions) (env : Env) (extra : jsobject) :
  opt_extra o = Some extra ->
  NoDup (map fst extra) ->
  (forall k,
     obj_get k (mergedManifest o env)
     = match obj_get k extra with
       | Some v => Some v
       | None => obj_get k (assembled o env)
       end)
  /\ (Forall (fun k => array_index k = None) (map fst extra) ->
      map fst (mergedManifest o env)
      = map fst (assembled o env)
        ++ List.filter (fun k => negb (has_key k (assembled o env))) (map fst extra)).
Proof.
  intros He Hnd. unfold mergedManifest. rewrite He, spread_assembled.
  cbn [default from_option id]. split.
  - intros k. destruct (obj_get k extra) as [v|] eqn:E.
    + now apply obj_get_assign_source.
    + apply obj_get_assign_other. unfold has_key. now rewrite E.
  - intros Hplain. now apply keys_obj_assign_plain.
Qed.

Lemma extra_overrides_witness :
  let o := options_with None (Some [("name", VStr "Shop"); ("gcm_sender_id", VStr "1")])
             (Some false) None in
  obj_get "name" (mergedManifest o bare_env) = Some (VStr "Shop")
  /\ obj_get "short_name" (mergedManifest o bare_env) = Some (VStr "App")
  /\ map fst (mergedManifest o bare_env)
     = map fst (assembled o bare_env) ++ ["gcm_sender_id"].
Proof.
  intros o.
  destruct (extra_overrides o bare_env
              [("name", VStr "Shop"); ("gcm_sender_id", VStr "1")] eq_refl) as [Hget Hkeys].
  - apply (bool_decide_unpack _). vm_compute. exact I.
  - split; [apply (Hget "name")|]. split; [apply (Hget "short_name")|].
    apply Hkeys. repeat constructor.
Defined.
(* ================================================================= *)
(** ** What [serialize] returns *)

(** X9.  The mode reaches nothing but the transform: without a
    transform, or with one that does not look at the mode, [serialize]
    returns the same payload and makes the same console calls in
    development and in production. *)
Theorem serialize_mode_irrelevant (o : ManifestOptions) (env : Env) :
  (forall t json, opt_transform o = Some t -> t json development = t json production) ->
  serialize o env development = serialize o env production.
Proof.
  intros H. unfold serialize, buildManifest.
  destruct (opt_transform o) as [t|]; [|reflexivity].
  now rewrite (H t _ eq_refl).
Qed.

Lemma serialize_mode_irrelevant_witness :
  serialize (options_with None None None (Some (fun json _ => Ok (obj_set "name" (VStr "X") json))))
    bare_env development
  = serialize (options_with None None None (Some (fun json _ => Ok (obj_set "name" (VStr "X") json))))
      bare_env production.
Proof.
  apply serialize_mode_irrelevant. intros t json [= <-]. reflexivity.
Defined.

Lemma fold_obj_set_ok (g : json -> value) (ms : list (string * json)) :
  Forall (fun kv => json_clean (g (snd kv)) = true /\ wf_value (g (snd kv)) = true) ms ->
  forall acc,
    all_values carried acc = true -> all_values wf_value acc = true ->
    wf_keys (map fst acc) = true ->
    let o := fold_left (fun o kv => obj_set (fst kv) (g (snd kv)) o) ms acc in
    all_values carried o = true /\ all_values wf_value o = true
    /\ wf_keys (map fst o) = true.
Proof.
  induction 1 as [|[k j] ms [Hc Hw] Hms IH]; intros acc Hac Haw Hak; [now cbn|].
  cbn [fold_left fst snd] in *. apply IH.
  - apply all_values_obj_set; [|exact Hac]. unfold carried. rewrite Hc. apply orb_true_r.
  - now apply all_values_obj_set.
  - now apply wf_keys_obj_set.
Qed.

(** What a JSON text denotes has no [undefined], no [NaN] and no
    infinity, and its objects keep the invariant. *)
Lemma of_json_ok (j : json) :
  json_clean (of_json j) = true /\ wf_value (of_json j) = true.
Proof.
  induction j as [| b | z | s | items IH | members IH] using json_ind;
    try (split; reflexivity).
  - change (forallb json_clean (map of_json items) = true
            /\ forallb wf_value (map of_json items) = true).
    induction IH as [|x items [Hc Hw] _ IHitems]; [now split|].
    cbn [map forallb]. rewrite Hc, Hw. exact IHitems.
  - destruct (fold_obj_set_ok of_json members IH [] eq_refl eq_refl eq_refl)
      as (Hc & Hw & Hk).
    split.
    + exact Hc.
    + change (wf_keys (map fst (fold_left (fun o kv => obj_set (fst kv) (of_json (snd kv)) o)
                                  members []))
              && all_values wf_value
                   (fold_left (fun o kv => obj_set (fst kv) (of_json (snd kv)) o) members [])
              = true).
      now rewrite Hk, Hw.
Qed.

(** Whenever [serialize] returns, the payload is the rendering of the
    document that [buildManifest] returned, and a line feed. *)
Lemma serialize_text (o : ManifestOptions) (env : Env) (mode : Mode)
    (payload : string) (calls : list console_call) :
  serialize o env mode = Ok (payload, calls) ->
  exists doc,
    buildManifest o env mode = Ok doc
    /\ payload = render 0 (JObj (ser_members to_json doc)) +:+ nl
    /\ (calls = [] \/ calls = [no_maskable_warning]).
Proof.
  unfold serialize. destruct (buildManifest o env mode) as [doc|e]; [|discriminate].
  cbn [bind]. destruct (hasMaskableIcon _) as [maskable|e]; [|discriminate].
  cbn [bind]. intros [= <- <-]. exists doc. split; [reflexivity|].
  fold (serialized doc). rewrite serialized_eq. split; [reflexivity|].
  destruct maskable; [now left|now right].
Qed.

(** The rendering of an object parses, with or without the line feed,
    to an object that holds no [undefined]. *)
Lemma rendered_object_parses (ms : list (string * json)) :
  exists parsed,
    of_json (JObj ms) = VObj parsed
    /\ JSON_parse (render 0 (JObj ms)) = Some (VObj parsed)
    /\ JSON_parse (render 0 (JObj ms) +:+ nl) = Some (VObj parsed)
    /\ json_clean (VObj parsed) = true
    /\ wf_value (VObj parsed) = true.
Proof.
  exists (fold_left (fun acc kv => obj_set (fst kv) (of_json (snd kv)) acc) ms []).
  split; [reflexivity|]. split; [apply JSON_parse_render|].
  split; [apply JSON_parse_render_nl|]. apply (of_json_ok (JObj ms)).
Qed.

Lemma fold_obj_set_keys (g : json -> value) (k : string) (ms : list (string * json)) :
  forall acc,
    has_key k (fold_left (fun o kv => obj_set (fst kv) (g (snd kv)) o) ms acc) = true ->
    has_key k acc = true \/ In k (map fst ms).
Proof.
  induction ms as [|[k' j] ms IH]; intros acc H; [now left|].
  cbn [fold_left fst snd] in H. destruct (IH _ H) as [Hk|Hk].
  - rewrite has_key_obj_set in Hk. apply orb_true_iff in Hk as [Hk|Hk].
    + apply String.eqb_eq in Hk. subst k'. right. now left.
    + now left.
  - right. now right.
Qed.

Lemma ser_members_defined (k : string) (doc : jsobject) :
  In k (map fst (ser_members to_json doc)) ->
  exists v, In (k, v) doc /\ v <> VUndefined.
Proof.
  induction doc as [|[k' x] doc IH]; [intros []|].
  cbn [ser_members]. destruct (to_json x) as [j|] eqn:E.
  - cbn [map fst]. intros [<-|H].
    + exists x. split; [now left|]. intros ->. discriminate E.
    + destruct (IH H) as (v & Hin & Hv). exists v. split; [now right|exact Hv].
  - intros H. destruct (IH H) as (v & Hin & Hv). exists v. split; [now right|exact Hv].
Qed.

(** X10.  For a configuration without a transform whose [extra] holds
    only what JSON can carry (an [icons] key among it or not): when
    [serialize] returns, the payload is a JSON text followed by one
    line feed, the text and the payload both parse to the same object,
    which is the document of [buildManifest] without its keys that hold
    [undefined]: every key of it is a key that the document holds with
    something else than [undefined]; and the console calls are none or
    the one warning. *)
Theorem payload_is_json (o : ManifestOptions) (env : Env) (mode : Mode)
    (payload : string) (calls : list console_call) :
  opt_transform o = None ->
  all_values carried (default [] (opt_extra o)) = true ->
  all_values wf_value (default [] (opt_extra o)) = true ->
  serialize o env mode = Ok (payload, calls) ->
  exists doc text parsed,
    buildManifest o env mode = Ok doc
    /\ payload = text +:+ nl
    /\ JSON_parse text = Some (VObj parsed)
    /\ JSON_parse payload = Some (VObj parsed)
    /\ VObj parsed = prune (VObj doc)
    /\ json_clean (VObj parsed) = true
    /\ wf_value (VObj parsed) = true
    /\ (forall k, has_key k parsed = true ->
          exists v, In (k, v) doc /\ v <> VUndefined)
    /\ (calls = [] \/ calls = [no_maskable_warning]).
Proof.
  intros Ht Hc Hw H. destruct (serialize_text _ _ _ _ _ H) as (doc & Hdoc & -> & Hcalls).
  destruct (rendered_object_parses (ser_members to_json doc))
    as (parsed & Hparsed & H1 & H2 & H3 & H4).
  assert (Hprune : VObj parsed = prune (VObj doc)).
  { unfold buildManifest in Hdoc. rewrite Ht in Hdoc. injection Hdoc as <-.
    destruct (mergedManifest_ok o env Hc Hw) as [Hclean Hwf].
    pose proof (JSON_parse_document _ Hclean Hwf) as Hp.
    rewrite serialized_eq, H2 in Hp. congruence. }
  exists doc, (render 0 (JObj (ser_members to_json doc))), parsed.
  repeat (split; [first [reflexivity | assumption]|]).
  split; [|exact Hcalls].
  intros k Hk. apply ser_members_defined.
  change (of_json (JObj (ser_members to_json doc)))
    with (VObj (fold_left (fun acc kv => obj_set (fst kv) (of_json (snd kv)) acc)
                  (ser_members to_json doc) [])) in Hparsed.
  injection Hparsed as <-.
  destruct (fold_obj_set_keys _ _ _ _ Hk) as [Hacc|Hin]; [discriminate Hacc|exact Hin].
Qed.

Lemma payload_is_json_witness :
  exists doc text parsed,
    buildManifest no_options git_env production = Ok doc
    /\ serialized (mergedManifest no_options git_env) = text +:+ nl
    /\ JSON_parse text = Some (VObj parsed)
    /\ JSON_parse (serialized (mergedManifest no_options git_env)) = Some (VObj parsed)
    /\ VObj parsed = prune (VObj doc)
    /\ json_clean (VObj parsed) = true
    /\ wf_value (VObj parsed) = true
    /\ (forall k, has_key k parsed = true ->
          exists v, In (k, v) doc /\ v <> VUndefined)
    /\ (@nil console_call = [] \/ @nil console_call = [no_maskable_warning]).
Proof.
  apply (payload_is_json no_options git_env production _ [] eq_refl eq_refl eq_refl).
  vm_compute. reflexivity.
Defined.
(* ================================================================= *)
(** ** The build time in the payload *)

Lemma wf_keys_NoDup (ks : list string) : wf_keys ks = true -> NoDup ks.
Proof.
  induction ks as [|k ks IH]; [constructor|].
  cbn [wf_keys]. intros H. apply andb_true_iff in H as [Hk Hks].
  apply NoDup_cons. split; [|now apply IH].
  intros Hin. apply list_elem_of_In in Hin.
  rewrite forallb_forall in Hk. specialize (Hk k Hin).
  apply precedes_ne in Hk. now apply Hk.
Qed.

Lemma mergedManifest_keys (o : ManifestOptions) (env : Env) :
  wf_keys (map fst (mergedManifest o env)) = true.
Proof. unfold mergedManifest. apply wf_keys_obj_assign, wf_keys_obj_assign. reflexivity. Qed.

Lemma ser_members_sublist (doc : jsobject) :
  sublist (map fst (ser_members to_json doc)) (map fst doc).
Proof.
  induction doc as [|[k x] doc IH]; [constructor|].
  cbn [ser_members]. destruct (to_json x); cbn [map fst].
  - now apply sublist_skip.
  - now apply sublist_cons.
Qed.

Lemma ser_members_In (k : string) (x : value) (j : json) (doc : jsobject) :
  In (k, x) doc -> to_json x = Some j -> In (k, j) (ser_members to_json doc).
Proof.
  intros Hin Hj. induction doc as [|[k' x'] doc IH]; [contradiction|].
  cbn [ser_members]. destruct Hin as [[= -> ->]|Hin].
  - rewrite Hj. now left.
  - destruct (to_json x'); [right|]; now apply IH.
Qed.

Lemma obj_get_fold_other (g : json -> value) (k : string) (ms : list (string * json)) :
  forall acc,
    ~ In k (map fst ms) ->
    obj_get k (fold_left (fun o kv => obj_set (fst kv) (g (snd kv)) o) ms acc)
    = obj_get k acc.
Proof.
  induction ms as [|[k' j] ms IH]; intros acc Hk; [reflexivity|].
  cbn [fold_left fst snd]. cbn [map fst In] in Hk. rewrite IH by tauto.
  apply obj_get_set_ne. intros ->. tauto.
Qed.

Lemma obj_get_fold_In (g : json -> value) (k : string) (j : json)
    (ms : list (string * json)) :
  forall acc,
    NoDup (map fst ms) -> In (k, j) ms ->
    obj_get k (fold_left (fun o kv => obj_set (fst kv) (g (snd kv)) o) ms acc)
    = Some (g j).
Proof.
  induction ms as [|[k' j'] ms IH]; intros acc Hnd Hin; [contradiction|].
  cbn [map fst] in Hnd. apply NoDup_cons in Hnd as [Hk' Hnd].
  cbn [fold_left fst snd]. destruct Hin as [[= -> ->]|Hin].
  - rewrite obj_get_fold_other; [apply obj_get_set_eq|].
    intros H. apply Hk'. now apply list_elem_of_In.
  - now apply IH.
Qed.

(** A string that the document holds under [k] is what the parsed
    payload holds under [k]. *)
Lemma parsed_get_string (doc : jsobject) (k s : string) :
  wf_keys (map fst doc) = true -> obj_get k doc = Some (VStr s) ->
  exists parsed,
    JSON_parse (serialized doc) = Some (VObj parsed)
    /\ obj_get k parsed = Some (VStr s).
Proof.
  intros Hwf Hk. rewrite JSON_parse_serialized.
  exists (fold_left (fun acc kv => obj_set (fst kv) (of_json (snd kv)) acc)
            (ser_members to_json doc) []).
  split; [reflexivity|].
  apply (obj_get_fold_In of_json k (JStr s)).
  - apply (sublist_NoDup _ (map fst doc)); [now apply wf_keys_NoDup|].
    apply ser_members_sublist.
  - apply (ser_members_In k (VStr s)); [now apply obj_get_some_In|reflexivity].
Qed.

(** With the build metadata on, no transform and no [buildTime] key in
    [extra], the parsed payload holds the instant of the call. *)
Lemma payload_build_time (o : ManifestOptions) (env : Env) (mode : Mode)
    (payload : string) (calls : list console_call) :
  opt_transform o = None ->
  opt_includeBuildMeta o <> Some false ->
  has_key "buildTime" (default [] (opt_extra o)) = false ->
  serialize o env mode = Ok (payload, calls) ->
  exists parsed, JSON_parse payload = Some (VObj parsed)
                 /\ obj_get "buildTime" parsed = Some (VStr (env_now env)).
Proof.
  intros Ht Hm He H.
  rewrite (serialize_payload o env mode (mergedManifest o env) payload calls) by
    (try exact H; unfold buildManifest; now rewrite Ht).
  apply parsed_get_string; [apply mergedManifest_keys|].
  rewrite (merged_get o env "buildTime" He). unfold assembled.
  apply includesBuildMeta_iff in Hm. rewrite Hm. unfold attachBuildMeta.
  apply obj_get_set_eq.
Qed.

Lemma payload_differs (o : ManifestOptions) (env env' : Env) (mode mode' : Mode)
    (payload payload' : string) (calls calls' : list console_call) :
  opt_transform o = None ->
  opt_includeBuildMeta o <> Some false ->
  has_key "buildTime" (default [] (opt_extra o)) = false ->
  serialize o env mode = Ok (payload, calls) ->
  serialize o env' mode' = Ok (payload', calls') ->
  env_now env <> env_now env' -> payload <> payload'.
Proof.
  intros Ht Hm He Hs Hs' Hne Heq. subst payload'.
  destruct (payload_build_time _ _ _ _ _ Ht Hm He Hs) as (parsed & H1 & H2).
  destruct (payload_build_time _ _ _ _ _ Ht Hm He Hs') as (parsed' & H1' & H2').
  rewrite H1 in H1'. injection H1' as <-. rewrite H2 in H2'. injection H2' as H.
  now apply Hne.
Qed.

(** X11.  With the build metadata on, no transform and no [buildTime]
    key in [extra], the payload carries the instant of the call: the
    parsed payload holds it under [buildTime], so two calls at
    different instants never return the same payload. *)
Theorem payload_tracks_build_time (o : ManifestOptions) (env env' : Env)
    (mode mode' : Mode) (payload payload' : string) (calls calls' : list console_call) :
  opt_transform o = None ->
  opt_includeBuildMeta o <> Some false ->
  has_key "buildTime" (default [] (opt_extra o)) = false ->
  serialize o env mode = Ok (payload, calls) ->
  serialize o env' mode' = Ok (payload', calls') ->
  (exists parsed, JSON_parse payload = Some (VObj parsed)
                  /\ obj_get "buildTime" parsed = Some (VStr (env_now env)))
  /\ (env_now env <> env_now env' -> payload <> payload').
Proof.
  intros Ht Hm He Hs Hs'. split.
  - exact (payload_build_time _ _ _ _ _ Ht Hm He Hs).
  - exact (payload_differs _ _ _ _ _ _ _ _ _ Ht Hm He Hs Hs').
Qed.

Lemma payload_tracks_build_time_witness :
  serialized (mergedManifest no_options bare_env)
  <> serialized (mergedManifest no_options
                   {| env_package := None; env_exec := fun _ => None;
                      env_now := "2025-09-09T13:45:01.000Z" |}).
Proof.
  apply (payload_tracks_build_time no_options bare_env
           {| env_package := None; env_exec := fun _ => None;
              env_now := "2025-09-09T13:45:01.000Z" |}
           production production _ _ [] []);
    try (vm_compute; reflexivity); discriminate.
Defined.
(* ================================================================= *)
(** ** What the disk mirror leaves alone *)


(** The tree after [writeFileIfChanged]: what [mkdir] made of it, with
    the file on top when it was written. *)
Lemma writeFileIfChanged_nodes (p : fspath) (payload : string) (fs fs' : FS)
    (r : result fs_error bool) :
  writeFileIfChanged p payload fs = (r, fs') ->
  exists m1,
    (m1 = fs_nodes fs \/ mkdir_below [] (dirname p) (fs_nodes fs) = Ok m1)
    /\ ((fs_nodes fs' = m1 /\ r <> Ok true)
        \/ exists rd, fs_nodes fs' = <[p := File payload rd true]> m1
                      /\ r = Ok true
                      /\ (m1 !! p = None -> rd = true)).
Proof.
  intros H. destruct (same_content fs p payload) eqn:Es.
  { rewrite (writeFileIfChanged_same _ _ _ Es) in H. injection H as <- <-.
    exists (fs_nodes fs). split; [now left|]. left. split; [reflexivity|discriminate]. }
  rewrite (writeFileIfChanged_differs _ _ _ Es) in H.
  unfold io_bind, mkdir in H. cbn [fs_nodes fs_calls called] in H.
  destruct (fs_nodes fs !! []) as [[w0|? ? ?]|] eqn:Eroot.
  2,3: injection H as <- <-; exists (fs_nodes fs); split; [now left|];
       left; split; [reflexivity|discriminate].
  destruct (mkdir_below [] (dirname p) (fs_nodes fs)) as [m1|e] eqn:Em.
  2: { injection H as <- <-. exists (fs_nodes fs). split; [now left|].
       left. split; [reflexivity|discriminate]. }
  exists m1. split; [now right|].
  unfold writeFile in H. cbn [fs_nodes fs_calls called] in H.
  destruct (m1 !! p) as [[w|c rd [|]]|] eqn:Ep.
  - injection H as <- <-. left. split; [reflexivity|discriminate].
  - injection H as <- <-. right. exists rd. cbn [fs_nodes].
    split; [reflexivity|]. split; [reflexivity|discriminate].
  - injection H as <- <-. left. split; [reflexivity|discriminate].
  - destruct (m1 !! dirname p) as [[[|]|? ? ?]|].
    + injection H as <- <-. right. exists true. cbn [fs_nodes]. now repeat split.
    + injection H as <- <-. left. split; [reflexivity|discriminate].
    + injection H as <- <-. left. split; [reflexivity|discriminate].
    + injection H as <- <-. left. split; [reflexivity|discriminate].
Qed.



(** X13.  The disk mirror never replaces a directory and never forces
    a read-only file: when the target is a directory, or a file that
    cannot be written and does not already hold the payload, the
    operation rejects, the promise that [buildStart] leaves rejects with
    it without a console call, and the target is as it was. *)
Theorem mirror_rejects (p : fspath) (payload : string) (fs : FS) :
  is_directory fs p
  \/ (exists content readable,
        fs_nodes fs !! p = Some (File content readable false)
        /\ same_content fs p payload = false) ->
  exists e fs',
    writeFileIfChanged p payload fs = (Err e, fs')
    /\ mirror p payload fs = (Err e, fs')
    /\ fs_nodes fs' !! p = fs_nodes fs !! p.
Proof.
  intros Hp.
  assert (Es : same_content fs p payload = false).
  { destruct Hp as [(w & Hp)|(c & r & _ & Hp)]; [|exact Hp].
    unfold same_content. now rewrite Hp. }
  assert (Hrej : exists e fs', writeFileIfChanged p payload fs = (Err e, fs')).
  { rewrite (writeFileIfChanged_differs _ _ _ Es).
    unfold io_bind, mkdir. cbn [fs_nodes fs_calls called].
    destruct (fs_nodes fs !! []) as [[w0|? ? ?]|] eqn:Eroot; [|eauto..].
    destruct (mkdir_below [] (dirname p) (fs_nodes fs)) as [m1|e] eqn:Em; [|eauto].
    unfold writeFile. cbn [fs_nodes fs_calls called].
    destruct Hp as [(w & Hp)|(c & r & Hp & _)];
      rewrite (mkdir_below_keeps _ _ _ _ _ _ Em Hp); eauto. }
  destruct Hrej as (e & fs' & H). exists e, fs'. split; [exact H|]. split.
  - unfold mirror, io_bind. now rewrite H.
  - destruct (writeFileIfChanged_nodes _ _ _ _ _ H) as (m1 & Hm1 & Hfs').
    destruct Hfs' as [[-> _]|(rd & _ & E & _)]; [|discriminate E].
    destruct Hm1 as [->|Hm1]; [reflexivity|].
    destruct p as [|s p']; [cbn in Hm1; now injection Hm1 as <-|].
    apply (mkdir_below_other _ _ _ _ _ Hm1). intros k. cbn [app].
    now apply dirname_not_below.
Qed.

Lemma mirror_rejects_witness :
  exists e fs',
    writeFileIfChanged ["app"] "{ }" empty_project = (Err e, fs')
    /\ mirror ["app"] "{ }" empty_project = (Err e, fs')
    /\ fs_nodes fs' !! ["app"] = fs_nodes empty_project !! ["app"].
Proof.
  apply mirror_rejects. left. exists true. reflexivity.
Defined.
(* ================================================================= *)
(** ** The dev route on any response *)

(** X14.  A client that sends back the entity tag it was given gets
    [304] with an empty body for as long as the payload is the same:
    when a request was answered, a later request whose [If-None-Match]
    is the [ETag] of that answer, made while [serialize] returns what it
    returned then, is answered [304], without body and with the same
    [ETag]. *)
Theorem dev_route_revalidates (o : ManifestOptions) (env env' : Env) (req : Request)
    (hs hs' : list (string * string)) (res : Response) (calls : list console_call) :
  devHandler o env req (response_with hs) = Ok (res, calls) ->
  serialize o env' development = serialize o env development ->
  exists etag res',
    getHeader "ETag" (res_headers res) = Some etag
    /\ devHandler o env' {| req_if_none_match := Some etag |} (response_with hs')
       = Ok (res', calls)
    /\ statusCode res' = 304
    /\ res_body res' = EmptyString
    /\ getHeader "ETag" (res_headers res') = Some etag.
Proof.
  intros H Hsame.
  destruct (serialize o env development) as [[payload calls0]|e] eqn:Hs.
  2: { unfold devHandler in H. rewrite Hs in H. discriminate H. }
  destruct (devHandler_ok o env req (response_with hs) payload calls0 Hs)
    as (res0 & H0 & _ & _ & _ & _ & Hetag & _).
  rewrite H0 in H. injection H as <- <-.
  destruct (devHandler_ok o env' {| req_if_none_match := Some (hashETag payload) |}
              (response_with hs') payload calls0 Hsame)
    as (res' & H' & _ & _ & _ & _ & Hetag' & _ & _ & [(_ & Hstatus & Hbody)|(Hne & _)]).
  - exists (hashETag payload), res'. now repeat split.
  - now contradiction Hne.
Qed.

Lemma dev_route_revalidates_witness :
  exists etag res',
    getHeader "ETag"
      (res_headers (response_of (devHandler no_options bare_env
                                   {| req_if_none_match := None |} (response_with []))))
    = Some etag
    /\ devHandler no_options bare_env {| req_if_none_match := Some etag |}
         (response_with []) = Ok (res', [])
    /\ statusCode res' = 304
    /\ res_body res' = EmptyString
    /\ getHeader "ETag" (res_headers res') = Some etag.
Proof.
  apply (dev_route_revalidates no_options bare_env bare_env
           {| req_if_none_match := None |} [] []); [|reflexivity].
  vm_compute. reflexivity.
Defined.

(** X15.  The dev route handler leaves the rest of the response
    alone.  On a response that is not ended and has nothing written,
    when the handler returns: a header whose name is, without its case,
    none of the five that the handler sets keeps its value, and each of
    the five has the value the handler gives it, under any spelling of
    its name and whatever it held before; the body is the payload or
    empty; the response is ended; and the status code is written only
    for [304]: on any other request it stays what it was. *)
Theorem dev_route_leaves_the_rest (o : ManifestOptions) (env : Env) (req : Request)
    (res res' : Response) (calls : list console_call) :
  res_ended res = false ->
  res_body res = EmptyString ->
  devHandler o env req res = Ok (res', calls) ->
  exists payload,
    serialize o env development = Ok (payload, calls)
    /\ (forall name, ~ In (toLowerCase name) (map toLowerCase manifest_headers) ->
          getHeader name (res_headers res') = getHeader name (res_headers res))
    /\ (forall k v name,
          In (k, v) (sent_headers payload) -> toLowerCase name = toLowerCase k ->
          getHeader name (res_headers res') = Some v)
    /\ res_ended res' = true
    /\ ((statusCode res' = 304 /\ res_body res' = EmptyString)
        \/ (statusCode res' = statusCode res /\ res_body res' = payload)).
Proof.
  intros _ Hempty H.
  destruct (serialize o env development) as [[payload calls0]|e] eqn:Hs.
  2: { unfold devHandler in H. rewrite Hs in H. discriminate H. }
  destruct (devHandler_ok o env req res payload calls0 Hs)
    as (res0 & H0 & H1 & H2 & H3 & H4 & H5 & Hother & Hended & Hcases).
  rewrite H0 in H. injection H as <- <-.
  exists payload. split; [reflexivity|].
  split; [exact Hother|]. split; [|split; [exact Hended|]].
  - intros k v name Hin Hname. unfold getHeader in *. rewrite Hname.
    unfold sent_headers in Hin. cbn [In] in Hin.
    destruct Hin as [Hin|[Hin|[Hin|[Hin|[Hin|[]]]]]]; injection Hin as <- <-; assumption.
  - destruct Hcases as [(_ & Hstatus & Hbody)|(_ & Hstatus & Hbody)].
    + left. split; [exact Hstatus|]. now rewrite Hbody.
    + right. split; [exact Hstatus|]. now rewrite Hbody, Hempty.
Qed.

Lemma dev_route_leaves_the_rest_witness :
  let res := {| statusCode := 404; res_headers := [("x-powered-by", "vite"); ("etag", "old")];
                res_body := EmptyString; res_ended := false |} in
  let res' := response_of (devHandler no_options bare_env
                             {| req_if_none_match := None |} res) in
  exists payload,
    serialize no_options bare_env development = Ok (payload, [])
    /\ getHeader "X-Powered-By" (res_headers res') = Some "vite"
    /\ getHeader "etag" (res_headers res') = Some (hashETag payload)
    /\ statusCode res' = 404.
Proof.
  intros res res'.
  destruct (dev_route_leaves_the_rest no_options bare_env {| req_if_none_match := None |}
              res res' [] eq_refl eq_refl)
    as (payload & Hs & Hother & Hset & _ & Hcases).
  - vm_compute. reflexivity.
  - exists payload. split; [exact Hs|]. split; [|split].
    + rewrite Hother; [reflexivity|].
      cbn. intros H. repeat (destruct H as [H|H]; [discriminate H|]). exact H.
    + apply (Hset "ETag"); [|reflexivity]. cbn. auto 10.
    + vm_compute. reflexivity.
Defined.
(* ================================================================= *)
(** ** The hooks of the plugin *)

(** What the mirror leaves when its promise resolves. *)
Lemma mirror_resolved (p : fspath) (payload : string) (fs fs' : FS)
    (out : list console_call) :
  mirror p payload fs = (Ok out, fs') ->
  (exists r w, fs_nodes fs' !! p = Some (File payload r w))
  /\ ((same_content fs p payload = true /\ out = [] /\ writes fs' = writes fs)
      \/ (same_content fs p payload = false /\ out = [mirrored_log p]
          /\ writes fs' = WriteFile p payload :: writes fs)).
Proof.
  unfold mirror, io_bind, io_ret.
  destruct (writeFileIfChanged p payload fs) as [[b|e] fs1] eqn:E; [|discriminate].
  intros [= <- <-]. destruct (same_content fs p payload) eqn:Es.
  - rewrite (writeFileIfChanged_same _ _ _ Es) in E. injection E as <- <-.
    split.
    + unfold same_content in Es. cbn [fs_nodes called].
      destruct (fs_nodes fs !! p) as [[w|c [] w]|]; try discriminate Es.
      apply String.eqb_eq in Es. subst c. eauto.
    + left. split; [reflexivity|]. split; [reflexivity|]. apply writes_called.
  - destruct (writeFileIfChanged_wrote _ _ _ _ _ Es E) as (-> & Hcalls & Hnode & _).
    split; [eauto|]. right. split; [reflexivity|]. split; [reflexivity|].
    unfold writes. rewrite Hcalls. reflexivity.
Qed.

(** X16.  What a build emits is what it mirrors: after [buildStart]
    has returned, [generateBundle] emits one asset under the configured
    file name (default [manifest.json]) whose source is the payload that
    [serialize] returned for production in that call, whatever the hooks
    did before; [buildStart] leaves a mirror pending exactly when
    [outputDir] is a non-empty string; and once that mirror resolves,
    the file at [path.resolve(root, outputDir, filename)] holds the very
    source that is emitted, the one console call [Manifest mirrored to
    disk] being made exactly when it was written. *)
Theorem build_emits_what_it_mirrors (opts : ManifestOptions) (env : Env) (cwd : string)
    (st st' : PluginState) (calls : list console_call)
    (job : option (io (list console_call))) :
  buildStart opts env cwd st = (st', Ok (calls, job)) ->
  serialize opts env production = Ok (source (fst (generateBundle opts st')), calls)
  /\ fileName (fst (generateBundle opts st')) = default "manifest.json" (opt_filename opts)
  /\ root st' = root st
  /\ (job = None <-> opt_outputDir opts = None \/ opt_outputDir opts = Some EmptyString)
  /\ (forall m fs out fs',
        job = Some m -> m fs = (Ok out, fs') ->
        exists d r w,
          opt_outputDir opts = Some d
          /\ fs_nodes fs' !! path_resolve cwd [root st; d; filename opts]
             = Some (File (source (fst (generateBundle opts st'))) r w)
          /\ (writes fs' = writes fs /\ out = []
              \/ writes fs'
                 = WriteFile (path_resolve cwd [root st; d; filename opts])
                     (source (fst (generateBundle opts st'))) :: writes fs
                 /\ out = [mirrored_log (path_resolve cwd [root st; d; filename opts])])).
Proof.
  unfold buildStart.
  destruct (serialize opts env production) as [[payload calls0]|e]; [|discriminate].
  cbn [generateBundle fst source fileName].
  destruct (opt_outputDir opts) as [[|c d]|] eqn:Ed.
  - intros [= <- <- <-]. cbn [lastJSON root]. repeat split; auto. discriminate.
  - intros [= <- <- <-]. cbn [lastJSON root]. split; [reflexivity|].
    split; [reflexivity|]. split; [reflexivity|]. split.
    + split; [discriminate|]. intros [H|H]; discriminate H.
    + intros m fs out fs' [= <-] Hm. exists (String c d).
      destruct (mirror_resolved _ _ _ _ _ Hm) as ((r & w & Hnode) & Hout).
      exists r, w. split; [reflexivity|]. split; [exact Hnode|].
      destruct Hout as [(_ & -> & Hw)|(_ & -> & Hw)]; [left|right]; now split.
  - intros [= <- <- <-]. cbn [lastJSON root]. repeat split; auto. discriminate.
Qed.

Lemma build_emits_what_it_mirrors_witness :
  let st' := fst (buildStart mirrored_options bare_env "/app" (generateManifest "/app")) in
  let p := ["app"; "public"; "manifest.json"] in
  let payload := serialized (mergedManifest mirrored_options bare_env) in
  serialize mirrored_options bare_env production
  = Ok (source (fst (generateBundle mirrored_options st')), [])
  /\ exists d r w,
       opt_outputDir mirrored_options = Some d
       /\ fs_nodes (snd (mirror p payload empty_project))
            !! path_resolve "/app" ["/app"; d; filename mirrored_options]
          = Some (File (source (fst (generateBundle mirrored_options st'))) r w)
       /\ (writes (snd (mirror p payload empty_project)) = writes empty_project
           /\ [mirrored_log p] = []
           \/ writes (snd (mirror p payload empty_project))
              = WriteFile (path_resolve "/app" ["/app"; d; filename mirrored_options])
                  (source (fst (generateBundle mirrored_options st')))
                :: writes empty_project
              /\ [mirrored_log p]
                 = [mirrored_log (path_resolve "/app" ["/app"; d; filename mirrored_options])]).
Proof.
  intros st' p payload.
  assert (Hs : serialize mirrored_options bare_env production = Ok (payload, []))
    by (vm_compute; reflexivity).
  assert (E : buildStart mirrored_options bare_env "/app" (generateManifest "/app")
              = (st', Ok ([], Some (mirror p payload)))).
  { subst st'. unfold buildStart. rewrite Hs. reflexivity. }
  destruct (build_emits_what_it_mirrors _ _ _ _ _ _ _ E) as (H1 & _ & _ & _ & H5).
  split; [exact H1|].
  apply (H5 (mirror p payload) empty_project); [reflexivity|].
  vm_compute. reflexivity.
Defined.

Lemma mirror_readable (p : fspath) (payload : string) (fs fs' : FS)
    (out : list console_call) :
  mirror p payload fs = (Ok out, fs') -> ~ unreadable fs p ->
  same_content fs' p payload = true.
Proof.
  unfold mirror, io_bind, io_ret.
  destruct (writeFileIfChanged p payload fs) as [[b|e] fs1] eqn:E; [|discriminate].
  intros [= <- <-] Hr. destruct (same_content fs p payload) eqn:Es.
  - rewrite (writeFileIfChanged_same _ _ _ Es) in E. injection E as <- <-. exact Es.
  - destruct (writeFileIfChanged_wrote _ _ _ _ _ Es E) as (_ & _ & Hnode & _).
    unfold same_content. rewrite Hnode.
    destruct (fs_nodes fs !! p) as [[w|c [|] w]|] eqn:Ep; try apply String.eqb_refl.
    exfalso. apply Hr. now exists c, w.
Qed.

(** X17.  A second build mirrors only a change.  After a build whose
    mirror resolved, the mirror of the next build, when the payload is
    the same and the file was not unreadable, reads the file and does
    nothing else: no write, no console call; when the payload differs
    and the mirror resolves, it writes the new payload and logs it.  And
    the payload does differ when the build metadata is on (no transform,
    no [buildTime] in [extra]) and the clock has moved. *)
Theorem rebuild_mirrors_only_changes (opts : ManifestOptions) (env env' : Env)
    (cwd : string) (st st1 st2 : PluginState) (c1 c2 out1 : list console_call)
    (m1 m2 : io (list console_call)) (fs fs1 : FS) (d : string) :
  opt_outputDir opts = Some d ->
  buildStart opts env cwd st = (st1, Ok (c1, Some m1)) ->
  m1 fs = (Ok out1, fs1) ->
  buildStart opts env' cwd st1 = (st2, Ok (c2, Some m2)) ->
  let outPath := path_resolve cwd [root st; d; filename opts] in
    (lastJSON st2 = lastJSON st1 -> ~ unreadable fs outPath ->
       m2 fs1 = (Ok [], called (ReadFile outPath) fs1))
    /\ (lastJSON st2 <> lastJSON st1 ->
        forall out2 fs2,
          m2 fs1 = (Ok out2, fs2) ->
          out2 = [mirrored_log outPath]
          /\ writes fs2 = WriteFile outPath (lastJSON st2) :: writes fs1)
    /\ (opt_transform opts = None ->
        opt_includeBuildMeta opts <> Some false ->
        has_key "buildTime" (default [] (opt_extra opts)) = false ->
        env_now env <> env_now env' ->
        lastJSON st2 <> lastJSON st1).
Proof.
  intros Hd. unfold buildStart. rewrite Hd.
  destruct (serialize opts env production) as [[p1 calls1]|e1] eqn:Hs1; [|discriminate].
  destruct (serialize opts env' production) as [[p2 calls2]|e2] eqn:Hs2; [|discriminate].
  destruct d as [|c d]; [discriminate|].
  cbn [lastJSON root]. intros [= <- <- <-] Hm1. cbn [lastJSON root]. intros [= <- <- <-].
  cbn [lastJSON]. cbv zeta.
  set (outPath := path_resolve cwd [root st; String c d; filename opts]) in *.
  split; [|split].
  - intros -> Hr. pose proof (mirror_readable _ _ _ _ _ Hm1 Hr) as Hsame.
    unfold mirror, io_bind. now rewrite (writeFileIfChanged_same _ _ _ Hsame).
  - intros Hne out2 fs2 Hm2.
    destruct (mirror_resolved _ _ _ _ _ Hm1) as ((r & w & Hnode) & _).
    destruct (mirror_resolved _ _ _ _ _ Hm2) as (_ & [(Hsame & _)|(_ & -> & Hw)]).
    + exfalso. unfold same_content in Hsame. rewrite Hnode in Hsame.
      destruct r; [|discriminate Hsame]. apply String.eqb_eq in Hsame. now apply Hne.
    + now split.
  - intros Ht Hm He Hnow Heq.
    exact (payload_differs _ _ _ _ _ _ _ _ _ Ht Hm He Hs2 Hs1 (not_eq_sym Hnow) Heq).
Qed.

Lemma rebuild_mirrors_only_changes_witness :
  let p := ["app"; "public"; "manifest.json"] in
  let payload := serialized (mergedManifest mirrored_options bare_env) in
  let st1 := fst (buildStart mirrored_options bare_env "/app" (generateManifest "/app")) in
  let fs1 := snd (mirror p payload empty_project) in
  mirror p payload fs1 = (Ok [], called (ReadFile p) fs1).
Proof.
  intros p payload st1 fs1.
  assert (Hs : serialize mirrored_options bare_env production = Ok (payload, []))
    by (vm_compute; reflexivity).
  assert (E1 : buildStart mirrored_options bare_env "/app" (generateManifest "/app")
               = (st1, Ok ([], Some (mirror p payload)))).
  { subst st1. unfold buildStart. rewrite Hs. reflexivity. }
  assert (E2 : buildStart mirrored_options bare_env "/app" st1
               = (st1, Ok ([], Some (mirror p payload)))).
  { subst st1. unfold buildStart. rewrite Hs. reflexivity. }
  destruct (rebuild_mirrors_only_changes mirrored_options bare_env bare_env "/app"
              (generateManifest "/app") st1 st1 [] [] [mirrored_log p]
              (mirror p payload) (mirror p payload) empty_project fs1 "public"
              eq_refl E1 ltac:(vm_compute; reflexivity) E2)
    as (Hsame & _).
  apply Hsame; [reflexivity|].
  intros (content & writable & H). vm_compute in H. discriminate H.
Defined.
(* ================================================================= *)
(** ** Where the mirror lands *)

Lemma fold_enter_plain (parts : list string) :
  Forall (fun seg => plain_part seg = true) parts ->
  forall dir, fold_left enter parts dir = dir ++ parts.
Proof.
  induction 1 as [|seg parts Hseg _ IH]; intros dir; [now rewrite app_nil_r|].
  cbn [fold_left]. rewrite IH. unfold enter. unfold plain_part in Hseg.
  apply andb_true_iff in Hseg as [Hseg H3]. apply andb_true_iff in Hseg as [H1 H2].
  apply negb_true_iff in H1, H2, H3. rewrite H1, H2, H3. cbn [orb].
  now rewrite <- app_assoc.
Qed.

Lemma split_slash_absolute (p : string) :
  startsWith "/" p = true -> exists parts, split_slash p = EmptyString :: parts.
Proof.
  intros H. apply startsWith_slash in H as (s & ->). cbn [split_slash].
  now eexists.
Qed.

Lemma plain_parts_relative (p : string) :
  Forall (fun seg => plain_part seg = true) (split_slash p) -> startsWith "/" p = false.
Proof.
  intros H. destruct (startsWith "/" p) eqn:E; [|reflexivity].
  destruct (split_slash_absolute p E) as (parts & Hp). rewrite Hp in H.
  apply Forall_cons in H as [H _]. discriminate H.
Qed.

(** X18.  Where [buildStart] mirrors, [path.resolve(root, outputDir,
    filename)]: when [outputDir] and [filename] are relative paths
    made of names (no empty part, no [.], no [..]), the mirror is the
    resolved root followed by their parts, so below the root; when
    [outputDir] is absolute, the root and the working directory play no
    part; and when [filename] is absolute, nothing else plays a part. *)
Theorem mirror_path (cwd r d f : string) :
  (Forall (fun seg => plain_part seg = true) (split_slash d) ->
   Forall (fun seg => plain_part seg = true) (split_slash f) ->
   path_resolve cwd [r; d; f] = path_resolve cwd [r] ++ split_slash d ++ split_slash f)
  /\ (startsWith "/" d = true ->
      forall cwd' r', path_resolve cwd [r; d; f] = path_resolve cwd' [r'; d; f])
  /\ (startsWith "/" f = true ->
      forall cwd' r' d', path_resolve cwd [r; d; f] = path_resolve cwd' [r'; d'; f]).
Proof.
  unfold path_resolve. cbn [fold_left]. split; [|split].
  - intros Hd Hf. rewrite (plain_parts_relative d Hd), (plain_parts_relative f Hf).
    rewrite (fold_enter_plain _ Hd), (fold_enter_plain _ Hf). now rewrite <- app_assoc.
  - intros Hd cwd' r'. now rewrite Hd.
  - intros Hf cwd' r' d'. now rewrite Hf.
Qed.

Lemma mirror_path_witness :
  path_resolve "/app" ["/app"; "public/pwa"; "manifest.json"]
  = path_resolve "/app" ["/app"] ++ ["public"; "pwa"] ++ ["manifest.json"]
  /\ path_resolve "/app" ["/app"; "/srv/www"; "manifest.json"]
     = path_resolve "/" ["/tmp"; "/srv/www"; "manifest.json"].
Proof.
  destruct (mirror_path "/app" "/app" "public/pwa" "manifest.json") as (Hplain & _ & _).
  destruct (mirror_path "/app" "/app" "/srv/www" "manifest.json") as (_ & Habs & _).
  split.
  - apply Hplain; repeat constructor.
  - apply Habs. reflexivity.
Defined.

(* ================================================================= *)
(** ** Exceptions and the variables of the plugin *)

(** X19.  Nothing catches what the transform throws: when the
    transform throws on the merged document, so do [serialize], the dev
    route handler (in development), [buildStart] (in production) and
    [configResolved] (in the mode of the command), and [lastJSON] is
    left as it was. *)
Theorem transform_errors_propagate (o : ManifestOptions) (env : Env) (mode : Mode)
    (t : jsobject -> Mode -> result js_error jsobject) (e : js_error) :
  opt_transform o = Some t ->
  t (mergedManifest o env) mode = Err e ->
  serialize o env mode = Err e
  /\ (mode = development -> forall req res, devHandler o env req res = Err e)
  /\ (mode = production -> forall cwd st, buildStart o env cwd st = (st, Err e))
  /\ (forall cwd c st,
        match cfg_command c with serve => development | build => production end = mode ->
        snd (configResolved o env cwd c st) = Err e
        /\ lastJSON (fst (configResolved o env cwd c st)) = lastJSON st).
Proof.
  intros Ht He.
  assert (Hs : serialize o env mode = Err e).
  { unfold serialize, buildManifest. rewrite Ht, He. reflexivity. }
  split; [exact Hs|]. split; [|split].
  - intros -> req res. unfold devHandler. now rewrite Hs.
  - intros -> cwd st. unfold buildStart. now rewrite Hs.
  - intros cwd c st Hc. unfold configResolved. rewrite Hc, Hs. now split.
Qed.

Lemma transform_errors_propagate_witness :
  let o := options_with None None None (Some (fun _ _ => Err (UserError "no"))) in
  serialize o bare_env production = Err (UserError "no")
  /\ buildStart o bare_env "/app" (generateManifest "/app")
     = (generateManifest "/app", Err (UserError "no")).
Proof.
  intros o.
  destruct (transform_errors_propagate o bare_env production
              (fun _ _ => Err (UserError "no")) (UserError "no") eq_refl eq_refl)
    as (Hs & _ & Hb & _).
  split; [exact Hs|]. now apply Hb.
Defined.

(** X20.  For a configuration without a transform whose [extra] holds
    only what JSON can carry: in whatever order and world the host has
    called [configResolved] and [buildStart], and whether they returned
    or threw, the asset that [generateBundle] emits is the text of a
    JSON object followed by one line feed: [lastJSON] is the empty
    object of the start or a payload that [serialize] returned. *)
Theorem emitted_asset_is_json (opts : ManifestOptions) (st : PluginState) :
  opt_transform opts = None ->
  all_values carried (default [] (opt_extra opts)) = true ->
  all_values wf_value (default [] (opt_extra opts)) = true ->
  reachable opts st ->
  exists text parsed,
    source (fst (generateBundle opts st)) = text +:+ nl
    /\ JSON_parse text = Some (VObj parsed)
    /\ JSON_parse (source (fst (generateBundle opts st))) = Some (VObj parsed)
    /\ json_clean (VObj parsed) = true.
Proof.
  intros _ _ _. cbn [generateBundle fst source].
  induction 1 as [cwd|env cwd c st Hst IH|env cwd st Hst IH].
  - exists "{}", []. now vm_compute.
  - unfold configResolved.
    destruct (serialize opts env _) as [[payload calls]|e] eqn:Hs; cbn [fst lastJSON].
    + destruct (serialize_text _ _ _ _ _ Hs) as (doc & _ & -> & _).
      destruct (rendered_object_parses (ser_members to_json doc))
        as (parsed & _ & H1 & H2 & H3 & _).
      now exists (render 0 (JObj (ser_members to_json doc))), parsed.
    + exact IH.
  - unfold buildStart.
    destruct (serialize opts env production) as [[payload calls]|e] eqn:Hs.
    + destruct (serialize_text _ _ _ _ _ Hs) as (doc & _ & -> & _).
      destruct (rendered_object_parses (ser_members to_json doc))
        as (parsed & _ & H1 & H2 & H3 & _).
      destruct (opt_outputDir opts) as [[|? ?]|]; cbn [fst lastJSON];
        now exists (render 0 (JObj (ser_members to_json doc))), parsed.
    + exact IH.
Qed.

Lemma emitted_asset_is_json_witness :
  exists text parsed,
    source (fst (generateBundle mirrored_options
                   (fst (buildStart mirrored_options bare_env "/app"
                           (fst (configResolved mirrored_options bare_env "/app"
                                   {| cfg_root := None; cfg_command := build |}
                                   (generateManifest "/app")))))))
    = text +:+ nl
    /\ JSON_parse text = Some (VObj parsed)
    /\ JSON_parse (source (fst (generateBundle mirrored_options
                   (fst (buildStart mirrored_options bare_env "/app"
                           (fst (configResolved mirrored_options bare_env "/app"
                                   {| cfg_root := None; cfg_command := build |}
                                   (generateManifest "/app")))))))) = Some (VObj parsed)
    /\ json_clean (VObj parsed) = true.
Proof.
  apply emitted_asset_is_json; try reflexivity.
  apply reach_buildStart, reach_configResolved, reach_new.
Defined.

(** X21.  [configResolved] decides the root and the first payload:
    when it returns, [root] is the root of the resolved configuration,
    or the working directory when it has none, and [lastJSON] is the
    payload of [serialize] in development for the command [serve], in
    production otherwise.  A [buildStart] that follows replaces
    [lastJSON] by the production payload, also under [serve], and
    mirrors to [path.resolve(root, outputDir, filename)] with that
    root; when the root is absolute and [outputDir] and [filename] are
    relative paths made of names, this is the root followed by their
    parts: below the root, wherever the working directory then is. *)
Theorem configResolved_then_buildStart (opts : ManifestOptions) (env env' : Env)
    (cwd cwd' : string) (c : ResolvedConfig) (st st1 st2 : PluginState)
    (c1 c2 : list console_call) (job : option (io (list console_call))) :
  configResolved opts env cwd c st = (st1, Ok c1) ->
  buildStart opts env' cwd' st1 = (st2, Ok (c2, job)) ->
  root st1 = default cwd (cfg_root c)
  /\ serialize opts env
       match cfg_command c with serve => development | build => production end
     = Ok (lastJSON st1, c1)
  /\ serialize opts env' production = Ok (lastJSON st2, c2)
  /\ (forall d, opt_outputDir opts = Some d -> d <> EmptyString ->
        job = Some (mirror (path_resolve cwd' [root st1; d; filename opts]) (lastJSON st2))
        /\ (startsWith "/" (root st1) = true ->
            Forall (fun seg => plain_part seg = true) (split_slash d) ->
            Forall (fun seg => plain_part seg = true) (split_slash (filename opts)) ->
            path_resolve cwd' [root st1; d; filename opts]
            = path_resolve "/" [root st1] ++ split_slash d ++ split_slash (filename opts))).
Proof.
  unfold configResolved, buildStart.
  destruct (serialize opts env _) as [[p1 calls1]|e1]; [|discriminate].
  cbn [root config lastJSON]. intros [= <- <-].
  destruct (serialize opts env' production) as [[p2 calls2]|e2]; [|discriminate].
  cbn [root config lastJSON].
  assert (Hpath : forall r d f,
            startsWith "/" r = true ->
            Forall (fun seg => plain_part seg = true) (split_slash d) ->
            Forall (fun seg => plain_part seg = true) (split_slash f) ->
            path_resolve cwd' [r; d; f] = path_resolve "/" [r] ++ split_slash d ++ split_slash f).
  { intros r d f Hr Hd Hf. unfold path_resolve. cbn [fold_left].
    rewrite Hr, (plain_parts_relative d Hd), (plain_parts_relative f Hf).
    rewrite (fold_enter_plain _ Hd), (fold_enter_plain _ Hf). now rewrite <- app_assoc. }
  destruct (opt_outputDir opts) as [[|ch d0]|]; intros [= <- <- <-]; cbn [root lastJSON];
    (split; [reflexivity|]); (split; [reflexivity|]); (split; [reflexivity|]);
    intros d [= <-] Hd; [now contradiction Hd|].
  split; [reflexivity|]. apply Hpath.
Qed.

Lemma configResolved_then_buildStart_witness :
  let c := {| cfg_root := Some "/srv/site"; cfg_command := serve |} in
  let st1 := fst (configResolved mirrored_options bare_env "/app" c (generateManifest "/app")) in
  let st2 := fst (buildStart mirrored_options bare_env "/tmp" st1) in
  root st1 = "/srv/site"
  /\ serialize mirrored_options bare_env development = Ok (lastJSON st1, [])
  /\ serialize mirrored_options bare_env production = Ok (lastJSON st2, [])
  /\ path_resolve "/tmp" [root st1; "public"; filename mirrored_options]
     = ["srv"; "site"; "public"; "manifest.json"].
Proof.
  intros c st1 st2.
  assert (Hd : serialize mirrored_options bare_env development
               = Ok (serialized (mergedManifest mirrored_options bare_env), []))
    by (vm_compute; reflexivity).
  assert (Hp : serialize mirrored_options bare_env production
               = Ok (serialized (mergedManifest mirrored_options bare_env), []))
    by (vm_compute; reflexivity).
  destruct (configResolved_then_buildStart mirrored_options bare_env bare_env "/app" "/tmp"
              c (generateManifest "/app") st1 st2 [] []
              (Some (mirror (path_resolve "/tmp" ["/srv/site"; "public"; "manifest.json"])
                       (serialized (mergedManifest mirrored_options bare_env)))))
    as (Hroot & Hs1 & Hs2 & Hjob).
  - subst st1. unfold configResolved. cbn [cfg_command c]. rewrite Hd. reflexivity.
  - subst st2 st1. unfold buildStart, configResolved. cbn [cfg_command c].
    rewrite Hd, Hp. reflexivity.
  - split; [exact Hroot|]. split; [exact Hs1|]. split; [exact Hs2|].
    destruct (Hjob "public" eq_refl ltac:(discriminate)) as [_ Hpath].
    rewrite Hpath; [reflexivity|reflexivity|repeat constructor|repeat constructor].
Defined.
(* ================================================================= *)
(** ** The keys of the payload *)

Lemma defined_members_sublist (f : value -> value) (l : list (string * value)) :
  sublist (map fst (defined_members f l)) (map fst l).
Proof.
  induction l as [|[k x] l IH]; [constructor|].
  rewrite defined_members_cons. destruct (is_undefined x); cbn [map fst].
  - now apply sublist_cons.
  - now apply sublist_skip.
Qed.

Lemma obj_get_defined_members (f : value -> value) (k : string) (l : list (string * value)) :
  NoDup (map fst l) ->
  obj_get k (defined_members f l)
  = match obj_get k l with
    | Some VUndefined | None => None
    | Some v => Some (f v)
    end.
Proof.
  induction l as [|[k' x] l IH]; intros Hnd; [reflexivity|].
  cbn [map fst] in Hnd. apply NoDup_cons in Hnd as [Hk' Hnd].
  rewrite defined_members_cons. cbn [obj_get].
  destruct (String.eqb_spec k' k) as [->|Hne].
  - destruct x; cbn [is_undefined obj_get]; rewrite ?String.eqb_refl; try reflexivity.
    rewrite (IH Hnd). destruct (obj_get k l) as [v|] eqn:E; [|reflexivity].
    exfalso. apply Hk'. apply list_elem_of_In.
    apply obj_get_some_In in E. now apply (in_map fst) in E.
  - destruct (is_undefined x); cbn [obj_get].
    + now apply IH.
    + apply String.eqb_neq in Hne. rewrite Hne. now apply IH.
Qed.

(** X22.  For a configuration without a transform whose [extra] holds
    only what JSON can carry and no [icons] key, the payload parses to
    the merged document without the keys that hold [undefined]: the keys
    come in the order of the document, and a key reads back as what the
    document holds under it. *)
Theorem typed_payload_keeps_order (o : ManifestOptions) (env : Env) (mode : Mode) :
  opt_transform o = None ->
  has_key "icons" (default [] (opt_extra o)) = false ->
  all_values carried (default [] (opt_extra o)) = true ->
  all_values wf_value (default [] (opt_extra o)) = true ->
  exists calls parsed,
    serialize o env mode = Ok (serialized (mergedManifest o env), calls)
    /\ JSON_parse (serialized (mergedManifest o env)) = Some (VObj parsed)
    /\ sublist (map fst parsed) (map fst (mergedManifest o env))
    /\ (forall k,
          obj_get k parsed
          = match obj_get k (mergedManifest o env) with
            | Some VUndefined | None => None
            | Some v => Some (prune v)
            end).
Proof.
  intros Ht Hi Hc Hw.
  destruct (serialize_returns o env mode Ht Hi) as [calls Hs].
  destruct (mergedManifest_ok o env Hc Hw) as [Hclean Hwf].
  exists calls, (defined_members prune (mergedManifest o env)).
  split; [exact Hs|]. split; [now apply JSON_parse_document|].
  split; [apply defined_members_sublist|].
  intros k. apply obj_get_defined_members, wf_keys_NoDup, mergedManifest_keys.
Qed.

Lemma typed_payload_keeps_order_witness :
  exists calls parsed,
    serialize no_options git_env production
    = Ok (serialized (mergedManifest no_options git_env), calls)
    /\ JSON_parse (serialized (mergedManifest no_options git_env)) = Some (VObj parsed)
    /\ sublist (map fst parsed) (map fst (mergedManifest no_options git_env))
    /\ (forall k,
          obj_get k parsed
          = match obj_get k (mergedManifest no_options git_env) with
            | Some VUndefined | None => None
            | Some v => Some (prune v)
            end).
Proof.
  apply (typed_payload_keeps_order no_options git_env production); reflexivity.
Defined.
(* ================================================================= *)
(** ** The versions in the payload *)

Lemma assembled_versions (o : ManifestOptions) (env : Env) :
  opt_includeBuildMeta o <> Some false ->
  obj_get "pkgVersion" (assembled o env) = Some (or_undefined VStr (readPkgVersion env))
  /\ obj_get "version" (assembled o env)
     = Some (or_undefined VStr (or_else (gitShort env) (readPkgVersion env))).
Proof.
  intros Hm. apply includesBuildMeta_iff in Hm. unfold assembled. rewrite Hm.
  unfold attachBuildMeta. split.
  - rewrite !obj_get_set_ne by discriminate. apply obj_get_set_eq.
  - rewrite obj_get_set_ne by discriminate. apply obj_get_set_eq.
Qed.

(** X23.  With the build metadata on, no transform, and an [extra] of
    JSON-representable values without [icons], [pkgVersion] and
    [version]: the payload holds [pkgVersion] exactly when the parsed
    [package.json] is an object whose [version] is a string, and then
    that string (a number, a missing version, a package that could not
    be read leave the key out); and it holds under [version] the answer
    of version control when there is one, else the package version,
    else nothing. *)
Theorem versions_in_payload (o : ManifestOptions) (env : Env) (mode : Mode) :
  opt_transform o = None ->
  opt_includeBuildMeta o <> Some false ->
  has_key "icons" (default [] (opt_extra o)) = false ->
  has_key "pkgVersion" (default [] (opt_extra o)) = false ->
  has_key "version" (default [] (opt_extra o)) = false ->
  all_values carried (default [] (opt_extra o)) = true ->
  all_values wf_value (default [] (opt_extra o)) = true ->
  exists payload calls parsed,
    serialize o env mode = Ok (payload, calls)
    /\ JSON_parse payload = Some (VObj parsed)
    /\ obj_get "pkgVersion" parsed
       = match env_package env with
         | Some (VObj pkg) =>
             match obj_get "version" pkg with
             | Some (VStr s) => Some (VStr s)
             | _ => None
             end
         | _ => None
         end
    /\ obj_get "version" parsed
       = match gitShort env with
         | Some v => Some (VStr v)
         | None => VStr <$> readPkgVersion env
         end.
Proof.
  intros Ht Hm Hi Hp Hv Hc Hw.
  destruct (serialize_returns o env mode Ht Hi) as [calls Hs].
  destruct (mergedManifest_ok o env Hc Hw) as [Hclean Hwf].
  destruct (assembled_versions o env Hm) as [Hpkg Hver].
  exists (serialized (mergedManifest o env)), calls,
         (defined_members prune (mergedManifest o env)).
  split; [exact Hs|]. split; [now apply JSON_parse_document|].
  rewrite !obj_get_defined_members by apply wf_keys_NoDup, mergedManifest_keys.
  rewrite (merged_get o env "pkgVersion" Hp), (merged_get o env "version" Hv), Hpkg, Hver.
  split.
  - unfold readPkgVersion. destruct (env_package env) as [[| | | | |xs|pkg]|]; try reflexivity.
    cbn [get_property]. destruct (obj_get "version" pkg) as [[| | | |s| |]|]; reflexivity.
  - destruct (gitShort env) as [v|]; [reflexivity|].
    cbn [or_else]. destruct (readPkgVersion env); reflexivity.
Qed.

Lemma versions_in_payload_witness :
  exists payload calls parsed,
    serialize no_options
      {| env_package := Some (VObj [("name", VStr "app"); ("version", VNum (NInt 2))]);
         env_exec := fun _ => None; env_now := "2025-09-09T13:45:00.000Z" |}
      production = Ok (payload, calls)
    /\ JSON_parse payload = Some (VObj parsed)
    /\ obj_get "pkgVersion" parsed = None
    /\ obj_get "version" parsed = None.
Proof.
  apply (versions_in_payload no_options
           {| env_package := Some (VObj [("name", VStr "app"); ("version", VNum (NInt 2))]);
              env_exec := fun _ => None; env_now := "2025-09-09T13:45:00.000Z" |}
           production); try reflexivity.
  discriminate.
Defined.
(* ================================================================= *)
(** ** C3: the leading slash in what the builder returns *)

Lemma assembled_base_get (o : ManifestOptions) (env : Env) (k : string) :
  ~ In k build_meta_keys -> obj_get k (assembled o env) = obj_get k (baseManifest o).
Proof.
  intros Hk. unfold assembled. destruct (includesBuildMeta o); [|reflexivity].
  unfold attachBuildMeta. unfold build_meta_keys in Hk. cbn [In] in Hk.
  rewrite !obj_get_set_ne; [reflexivity|intros ->; tauto..].
Qed.

(** C3.  The normalization of [start_url], [scope], [id] and of every
    icon source path leaves a value that starts with "/" as it is, puts
    exactly one "/" before any other value, and is idempotent.  The
    builder assigns each of [start_url], [scope] and [id] the
    normalization of the configured value, and "/" when the
    configuration has none, and this is what the document of
    [buildManifest] holds (no transform, the key not in [extra]); the
    icons of that document are those of [normalizeIcons], each with a
    source that starts with "/" and is the normalization of an input
    source, none being dropped when their keys differ. *)
Theorem leading_slash_normalization :
  (forall s, startsWith "/" s = true -> ensureLeadingSlash s = s)
  /\ (forall s, startsWith "/" s = false ->
        ensureLeadingSlash s = String "/"%char s)
  /\ (forall s, ensureLeadingSlash (ensureLeadingSlash s) = ensureLeadingSlash s)
  /\ (forall o,
        obj_get "start_url" (baseManifest o)
          = Some (VStr match opt_start_url o with
                       | Some s => ensureLeadingSlash s
                       | None => "/"
                       end)
        /\ obj_get "scope" (baseManifest o)
          = Some (VStr match opt_scope o with
                       | Some s => ensureLeadingSlash s
                       | None => "/"
                       end)
        /\ obj_get "id" (baseManifest o)
          = Some (VStr match opt_id o with
                       | Some s => ensureLeadingSlash s
                       | None => "/"
                       end))
  /\ (forall icons i,
        In i (normalizeIcons (Some icons)) ->
        exists i0, In i0 icons
                   /\ icon_src i = ensureLeadingSlash (icon_src i0)
                   /\ icon_sizes i = icon_sizes i0
                   /\ icon_type i = icon_type i0
                   /\ icon_purpose i = icon_purpose i0)
  /\ (forall o env mode,
        opt_transform o = None ->
        exists doc,
          buildManifest o env mode = Ok doc
          /\ (has_key "start_url" (default [] (opt_extra o)) = false ->
              obj_get "start_url" doc
              = Some (VStr match opt_start_url o with
                           | Some s => ensureLeadingSlash s
                           | None => "/"
                           end))
          /\ (has_key "scope" (default [] (opt_extra o)) = false ->
              obj_get "scope" doc
              = Some (VStr match opt_scope o with
                           | Some s => ensureLeadingSlash s
                           | None => "/"
                           end))
          /\ (has_key "id" (default [] (opt_extra o)) = false ->
              obj_get "id" doc
              = Some (VStr match opt_id o with
                           | Some s => ensureLeadingSlash s
                           | None => "/"
                           end))
          /\ (has_key "icons" (default [] (opt_extra o)) = false ->
              obj_get "icons" doc
              = Some (VArr (map icon_value (normalizeIcons (opt_icons o))))))
  /\ (forall icons i,
        In i (normalizeIcons icons) -> startsWith "/" (icon_src i) = true)
  /\ (forall icons,
        NoDup (map icon_key (map with_leading_slash icons)) ->
        normalizeIcons (Some icons) = map with_leading_slash icons)
  /\ (forall i rest,
        exists rest', normalizeIcons (Some (i :: rest)) = with_leading_slash i :: rest').
Proof.
  assert (Hbase : forall o,
    obj_get "start_url" (baseManifest o)
      = Some (VStr match opt_start_url o with
                   | Some s => ensureLeadingSlash s
                   | None => "/"
                   end)
    /\ obj_get "scope" (baseManifest o)
      = Some (VStr match opt_scope o with
                   | Some s => ensureLeadingSlash s
                   | None => "/"
                   end)
    /\ obj_get "id" (baseManifest o)
      = Some (VStr match opt_id o with
                   | Some s => ensureLeadingSlash s
                   | None => "/"
                   end)).
  { intros o. repeat split.
    + destruct (opt_start_url o) eqn:E; unfold baseManifest; rewrite E; reflexivity.
    + destruct (opt_scope o) eqn:E; unfold baseManifest; rewrite E; reflexivity.
    + destruct (opt_id o) eqn:E; unfold baseManifest; rewrite E; reflexivity. }
  split; [|split; [|split; [|split; [|split; [|split; [|split; [|split]]]]]]].
  - intros s H. unfold ensureLeadingSlash. now rewrite H.
  - intros s H. unfold ensureLeadingSlash. now rewrite H.
  - apply ensureLeadingSlash_idempotent.
  - exact Hbase.
  - intros icons i Hi. unfold normalizeIcons in Hi. cbn [default] in Hi.
    apply filter_unseen_In in Hi. apply in_map_iff in Hi as (i0 & <- & Hi0).
    exists i0. repeat split. exact Hi0.
  - intros o env mode Ht. exists (mergedManifest o env).
    destruct (Hbase o) as (H1 & H2 & H3).
    split; [unfold buildManifest; now rewrite Ht|].
    assert (Hmeta : forall k, In k ["start_url"; "scope"; "id"] -> ~ In k build_meta_keys).
    { intros k Hk Hm. cbn in Hk, Hm. intuition congruence. }
    split; [|split; [|split]].
    + intros He. rewrite (merged_get o env _ He), assembled_base_get; [exact H1|].
      apply Hmeta. cbn. auto.
    + intros He. rewrite (merged_get o env _ He), assembled_base_get; [exact H2|].
      apply Hmeta. cbn. auto.
    + intros He. rewrite (merged_get o env _ He), assembled_base_get; [exact H3|].
      apply Hmeta. cbn. auto.
    + intros He. rewrite (merged_get o env _ He). apply assembled_icons.
  - intros icons i Hi. unfold normalizeIcons in Hi.
    apply filter_unseen_In in Hi. apply in_map_iff in Hi as (i0 & <- & _).
    apply ensureLeadingSlash_starts.
  - intros icons Hnd. unfold normalizeIcons. cbn [default from_option id].
    apply filter_unseen_all; [exact Hnd|]. intros i _. apply not_elem_of_empty.
  - intros i rest. unfold normalizeIcons. cbn [default from_option id map filter_unseen].
    destruct (decide (icon_key (with_leading_slash i) ∈ (∅ : gset string))) as [H|_].
    + now apply elem_of_empty in H.
    + now eexists.
Qed.

(** The normalization at "manifest" and at "/app", and in the document
    of a configuration whose paths come without their slash. *)
Lemma leading_slash_normalization_witness :
  ensureLeadingSlash "/app" = "/app" /\ ensureLeadingSlash "manifest" = "/manifest"
  /\ exists doc,
       buildManifest slashless_options bare_env production = Ok doc
       /\ obj_get "start_url" doc = Some (VStr "/app/")
       /\ obj_get "scope" doc = Some (VStr "/app/")
       /\ obj_get "id" doc = Some (VStr "/pwa")
       /\ obj_get "icons" doc
          = Some (VArr [VObj [("src", VStr "/icon.png"); ("sizes", VStr "48x48");
                              ("purpose", VStr "maskable")]]).
Proof.
  destruct leading_slash_normalization as (Hkeep & Hadd & _ & _ & _ & Hdoc & _).
  split; [apply Hkeep; reflexivity|]. split; [apply Hadd; reflexivity|].
  destruct (Hdoc slashless_options bare_env production eq_refl)
    as (doc & Hb & H1 & H2 & H3 & H4).
  exists doc. split; [exact Hb|].
  split; [exact (H1 eq_refl)|]. split; [exact (H2 eq_refl)|].
  split; [exact (H3 eq_refl)|exact (H4 eq_refl)].
Defined.

(* ================================================================= *)
(** ** C6: the transform *)

(** C6.  When a transform is configured, what the builder returns is
    what the transform returns for the merged object and the mode.  The
    merged object is the assembled one with [extra] on top: a key of
    [extra] holds what [extra] gives it, any other key what the builder
    assembled, the defaults and the build metadata among it.  With the
    transform that sets [name] to "X" in development only, a development
    build has the name "X", and a production build is the untransformed
    merged object, whose name is the one of [extra] if it has one, else
    the configured one or "My App". *)
Theorem transform_is_final (o : ManifestOptions) (env : Env) :
  (forall t mode, opt_transform o = Some t ->
     buildManifest o env mode = t (mergedManifest o env) mode)
  /\ (NoDup (map fst (default [] (opt_extra o))) ->
      forall k,
        obj_get k (mergedManifest o env)
        = match obj_get k (default [] (opt_extra o)) with
          | Some v => Some v
          | None => obj_get k (assembled o env)
          end)
  /\ (forall k v, In (k, v) (defaulted_fields o) -> obj_get k (assembled o env) = Some v)
  /\ (opt_includeBuildMeta o <> Some false ->
      obj_get "buildTime" (assembled o env) = Some (VStr (env_now env)))
  /\ (opt_transform o = Some name_X_in_development ->
      (exists doc, buildManifest o env development = Ok doc
                   /\ obj_get "name" doc = Some (VStr "X"))
      /\ buildManifest o env production = Ok (mergedManifest o env)
      /\ (has_key "name" (default [] (opt_extra o)) = false ->
          obj_get "name" (mergedManifest o env)
          = Some (VStr match opt_name o with Some n => n | None => "My App" end))
      /\ (forall v, NoDup (map fst (default [] (opt_extra o))) ->
            obj_get "name" (default [] (opt_extra o)) = Some v ->
            obj_get "name" (mergedManifest o env) = Some v)).
Proof.
  assert (Hmerged : NoDup (map fst (default [] (opt_extra o))) ->
            forall k,
              obj_get k (mergedManifest o env)
              = match obj_get k (default [] (opt_extra o)) with
                | Some v => Some v
                | None => obj_get k (assembled o env)
                end).
  { intros Hnd k. unfold mergedManifest. rewrite spread_assembled.
    destruct (obj_get k (default [] (opt_extra o))) as [v|] eqn:E.
    - now apply obj_get_assign_source.
    - apply obj_get_assign_other. unfold has_key. now rewrite E. }
  split; [|split; [exact Hmerged|split; [|split]]].
  - intros t mode Ht. unfold buildManifest. now rewrite Ht.
  - intros k v. apply assembled_defaulted.
  - intros Hm. apply includesBuildMeta_iff in Hm. unfold assembled. rewrite Hm.
    unfold attachBuildMeta. apply obj_get_set_eq.
  - intros Ht. split; [|split; [|split]].
    + eexists. split.
      * unfold buildManifest. rewrite Ht. reflexivity.
      * apply obj_get_set_eq.
    + unfold buildManifest. rewrite Ht. reflexivity.
    + intros He. rewrite (merged_get o env "name" He).
      apply (assembled_defaulted o env "name"). cbn. auto.
    + intros v Hnd Hv. rewrite (Hmerged Hnd), Hv. reflexivity.
Qed.

Lemma transform_is_final_witness :
  let o := options_with None (Some [("short_name", VStr "Shop"); ("beta", VBool true)])
             None (Some name_X_in_development) in
  (exists doc, buildManifest o bare_env development = Ok doc
               /\ obj_get "name" doc = Some (VStr "X"))
  /\ buildManifest o bare_env production = Ok (mergedManifest o bare_env)
  /\ obj_get "name" (mergedManifest o bare_env) = Some (VStr "My App")
  /\ obj_get "short_name" (mergedManifest o bare_env) = Some (VStr "Shop")
  /\ obj_get "beta" (mergedManifest o bare_env) = Some (VBool true)
  /\ obj_get "buildTime" (assembled o bare_env) = Some (VStr "2025-09-09T13:45:00.000Z").
Proof.
  intros o.
  destruct (transform_is_final o bare_env) as (_ & Hmerged & _ & Hmeta & H).
  destruct (H eq_refl) as (Hdev & Hprod & Hname & _).
  assert (Hnd : NoDup (map fst (default [] (opt_extra o))))
    by (apply (bool_decide_unpack _); vm_compute; exact I).
  split; [exact Hdev|]. split; [exact Hprod|]. split; [apply Hname; reflexivity|].
  split; [exact (Hmerged Hnd "short_name")|]. split; [exact (Hmerged Hnd "beta")|].
  apply Hmeta. discriminate.
Defined.
